(** * Verification of the web-codegen-scorer orchestration core

    A shallow embedding of the parts of the runner that the specification
    makes claims about:

    - [Environment] (configuration/environment.ts): the rating hash, its
      validation and the resolution of multi-step prompts;
    - [Generate] (orchestration/generate.ts): pool sizing, the per-prompt
      retry loop, the aggregation of results and the label deduplication;
    - [EvalTask] (orchestration/generate-eval-task.ts): the per-step loop
      of one job;
    - [AiSdk] (codegen/ai-sdk/ai-sdk-runner.ts): [generateFiles].

    JavaScript values are modelled as follows: strings are [string]
    (sequences of character codes, compared code by code), [undefined] and
    [null] are [None], counters and lengths are [Z] or [nat], a number
    parsed from a file name is a double ([Number]), exceptions are the
    [Throw] branch of [Result], and the mutable state shared between
    callbacks is threaded explicitly. *)

From Stdlib Require Import ZArith QArith Qround String Ascii OrderedTypeEx.
From stdpp Require Import gmap strings list sorting pretty.

Local Open Scope Z_scope.

(** ** JavaScript primitives *)

Module JS.

(** Values that can be thrown. [ErrorObject] covers everything that is
    [instanceof Error]; anything else is kept by its string rendering. *)
Inductive ErrorClass :=
| UserFacingError | TimeoutError | TypeError | PlainError | AssertionError.

Record ErrorObject := {
  err_class : ErrorClass;
  err_name : string;
  err_message : string;
  err_stack : option string;
}.

Inductive Thrown :=
| ErrorObj (e : ErrorObject)
| NonError (rendered : string).

Inductive Result (A : Type) :=
| Ok (a : A)
| Throw (e : Thrown).
Arguments Ok {A} a.
Arguments Throw {A} e.

Definition bind {A B} (m : Result A) (k : A → Result B) : Result B :=
  match m with
  | Ok a => k a
  | Throw e => Throw e
  end.

Definition instanceofError (e : Thrown) : bool :=
  match e with ErrorObj _ => true | NonError _ => false end.

Definition instanceofTimeoutError (e : Thrown) : bool :=
  match e with
  | ErrorObj {| err_class := TimeoutError |} => true
  | _ => false
  end.

(** The [toString] of an error object: [Error.prototype.toString] for
    every class but [AssertionError] of node:assert, which has a
    [toString] of its own that inserts the code of the error. *)
Definition errorToString (e : ErrorObject) : string :=
  match err_class e with
  | AssertionError =>
      err_name e +:+ " [ERR_ASSERTION]: " +:+ err_message e
  | _ =>
      if decide (err_message e = EmptyString) then err_name e
      else if decide (err_name e = EmptyString) then err_message e
      else err_name e +:+ ": " +:+ err_message e
  end.

(** The template literal [`${e}`]. *)
Definition render (e : Thrown) : string :=
  match e with
  | ErrorObj o => errorToString o
  | NonError s => s
  end.

Definition newUserFacingError (msg : string) : Thrown :=
  ErrorObj {| err_class := UserFacingError; err_name := "Error";
              err_message := msg; err_stack := None |}.

(** [Array.prototype.join]. *)
Fixpoint join (sep : string) (l : list string) : string :=
  match l with
  | [] => EmptyString
  | x :: l' =>
      match l' with
      | [] => x
      | _ => x +:+ sep +:+ join sep l'
      end
  end.

(** [`${n}`] for a number that holds the integer [n] exactly and below
    2^53 in absolute value, as the counters, lengths and configured points
    do that it is applied to: its decimal digits, with a leading minus
    sign when negative. Numbers beyond that range are [Number]s, printed
    by [doubleToString] below. *)
Definition numberToString (n : Z) : string := pretty n.

(** *** Doubles

    A number is an IEEE 754 double. The doubles met where a string of
    decimal digits is parsed hold a non-negative integer, or Infinity. *)
Inductive Number := Integral (value : Z) | PositiveInfinity.

Definition Number_eqb (x y : Number) : bool :=
  match x, y with
  | Integral a, Integral b => a =? b
  | PositiveInfinity, PositiveInfinity => true
  | _, _ => false
  end.

(** The double nearest to the non-negative integer [n], ties going to the
    even significand: [n] itself below 2^53; above, [n] cut to its 53
    leading bits, [q], and rounded on the bits cut off, [r]; Infinity
    when the rounded value reaches 2^1024. *)
Definition toDouble (n : Z) : Number :=
  if n <? 2 ^ 53 then Integral n
  else
    let e := Z.log2 n - 52 in
    let q := Z.shiftr n e in
    let r := n - Z.shiftl q e in
    let half := Z.shiftl 1 (e - 1) in
    let q' := if (half <? r) || ((r =? half) && Z.odd q) then q + 1 else q in
    let v := Z.shiftl q' e in
    if 2 ^ 1024 <=? v then PositiveInfinity else Integral v.

(** [x - y] for two such doubles, up to a positive factor: the sign is
    what a comparator hands to [sort]. Infinity minus Infinity is [NaN],
    which [sort] takes for [+0]. *)
Definition Number_minus (x y : Number) : Z :=
  match x, y with
  | Integral a, Integral b => a - b
  | PositiveInfinity, Integral _ => 1
  | Integral _, PositiveInfinity => -1
  | PositiveInfinity, PositiveInfinity => 0
  end.

Definition digitCount (n : Z) : Z := Z.of_nat (String.length (pretty n)).

(** [Number::toString] looks for the fewest digits [k] such that some
    [k]-digit integer [s], scaled by a power of ten, converts back to the
    double [x]; among several it takes the one nearest to [x], and the
    even one on a tie. [x] has [d] digits; the two multiples of
    10^(d-k) around [x] are the only candidates with [k] digits. *)
Fixpoint shortestDigits (fuel : nat) (k : Z) (x d : Z) : Z :=
  match fuel with
  | O => x
  | S fuel' =>
      let p := 10 ^ (d - k) in
      let low := x / p * p in
      let high := low + p in
      let okLow := Number_eqb (toDouble low) (Integral x) in
      let okHigh := Number_eqb (toDouble high) (Integral x) in
      if okLow && okHigh then
        if x - low <? high - x then low
        else if high - x <? x - low then high
        else if Z.even (low / p) then low else high
      else if okLow then low
      else if okHigh then high
      else shortestDigits fuel' (k + 1) x d
  end.

Fixpoint stripZeros (fuel : nat) (n : Z) : Z :=
  match fuel with
  | O => n
  | S fuel' => if n mod 10 =? 0 then stripZeros fuel' (n / 10) else n
  end.

(** [`${x}`] for such a double: all the digits of a value below 2^53;
    above, the digits found by [shortestDigits], followed by zeros up to
    21 digits, and in exponent notation beyond. *)
Definition doubleToString (x : Number) : string :=
  match x with
  | PositiveInfinity => "Infinity"
  | Integral x =>
      if x <? 2 ^ 53 then pretty x
      else
        let d := digitCount x in
        let c := shortestDigits (Z.to_nat d) 1 x d in
        let n := digitCount c in
        if n <=? 21 then pretty c
        else
          match pretty (stripZeros (Z.to_nat n) c) with
          | EmptyString => EmptyString
          | String first rest =>
              String first
                (match rest with
                 | EmptyString => EmptyString
                 | _ => "." +:+ rest
                 end) +:+ "e+" +:+ pretty (n - 1)
          end
  end.

(** The line feed of ["\n"]. *)
Definition LF : string := String (ascii_of_nat 10) EmptyString.

(** The double quote character. *)
Definition DQ : string := String (ascii_of_nat 34) EmptyString.

(** Truthiness of a string: every string but the empty one. *)
Definition truthy (s : string) : bool := bool_decide (s ≠ EmptyString).

(** [Array.prototype.sort(comparefn)]. The language guarantees a stable
    sort; for a consistent comparator the result of a stable sort is
    unique, so the straight insertion sort below computes it. [x] comes
    from an earlier index than every element of [l]: it stays in front
    unless the comparator returns a positive number. *)
Section sort.
Context {A : Type} (comparefn : A → A → Z).

Fixpoint insert (x : A) (l : list A) : list A :=
  match l with
  | [] => [x]
  | y :: l' => if comparefn x y <=? 0 then x :: l else y :: insert x l'
  end.

Definition sort (l : list A) : list A := foldr insert [] l.
End sort.

(** The comparator used by [sort()] without an argument: elements are
    compared as strings, code unit by code unit. *)
Definition defaultCompare (x y : string) : Z :=
  match String.compare x y with
  | Lt => -1
  | Eq => 0
  | Gt => 1
  end.

(** A consistent comparator in the sense of the language definition. *)
Class Consistent {A : Type} (comparefn : A → A → Z) : Prop := {
  cmp_refl a : comparefn a a = 0;
  cmp_total a b : 0 < comparefn a b → comparefn b a <= 0;
  cmp_trans a b c :
    comparefn a b <= 0 → comparefn b c <= 0 → comparefn a c <= 0;
}.

(** [new Set(iterable)] keeps its elements in insertion order and ignores
    a value that is already present; [Array.from] reads them back in that
    order. *)
Definition Set_add (s : list string) (x : string) : list string :=
  if decide (x ∈ s) then s else s ++ [x].

Definition newSet (iterable : option (list string)) : list string :=
  foldl Set_add [] (default [] iterable).

Definition Array_from (s : list string) : list string := s.

(** The specification's reading of the deduplication, as a recursion on
    the input: every element is kept where it occurs first and dropped
    wherever it occurs again. *)
Fixpoint keepFirstOccurrences (l : list string) : list string :=
  match l with
  | [] => []
  | x :: l' => x :: filter (λ y, y ≠ x) (keepFirstOccurrences l')
  end.

End JS.

(** ** The context filters of shared-interfaces.ts *)

Module Filters.

Inductive ReportContextFilter := AllReports | ActiveReports | NonPerfectReports.

Inductive RatingContextFilter := AllRatings | NonPerfectRatings.

End Filters.

(** ** The run configuration: configuration/environment.ts *)

Module Environment.
Import JS.
Export Filters.

Inductive RatingKind := PER_BUILD | PER_FILE | LLM_BASED.

Inductive RatingCategory := HIGH_IMPACT | MEDIUM_IMPACT | LOW_IMPACT.

(** The string value of each member of the [RatingCategory] enum. *)
Definition categoryValue (c : RatingCategory) : string :=
  match c with
  | HIGH_IMPACT => "high-impact"
  | MEDIUM_IMPACT => "medium-impact"
  | LOW_IMPACT => "low-impact"
  end.

(** The fields of a rating that the environment reads; the [rate] callback
    plays no part in it. *)
Record Rating := {
  kind : RatingKind;
  category : RatingCategory;
  scoreReduction : string;
  name : string;
  description : string;
  id : string;
  groupingLabels : option (list string);
}.

Record RatingOverride := {
  o_category : option RatingCategory;
  o_scoreReduction : option string;
  o_groupingLabels : option (list string);
}.

Record CategoryConfig := {
  c_name : string;
  maxPoints : Z;
}.

Record CategoryOverride := {
  o_name : option string;
  o_maxPoints : option Z;
}.

(** An entry of [analysisPrompts] in the configuration. *)
Record AnalysisPromptConfig := {
  ap_name : string;
  ap_path : string;
  ap_model : option string;
  ap_reportsFilter : option ReportContextFilter;
  ap_ratingsFilter : option RatingContextFilter;
}.

Record AnalysisPrompt := {
  a_name : string;
  a_prompt : string;
  a_model : string;
  reportsFilter : ReportContextFilter;
  ratingsFilter : RatingContextFilter;
}.

(** The part of [EnvironmentConfig] read by the statements of the
    constructor that can throw, and by the rating logic. An object used
    as a map is the list of its entries in key order, as [Object.keys]
    enumerates them. *)
Record EnvironmentConfig := {
  configuredId : option string;
  displayName : string;
  ratings : list Rating;
  ratingOverrides : option (list (string * RatingOverride));
  categoryOverrides : option (RatingCategory → option CategoryOverride);
  expectedRatingHash : option string;
  analysisPrompts : option (list AnalysisPromptConfig);
}.

Definition lookupOverride (overrides : list (string * RatingOverride))
  (key : string) : option RatingOverride :=
  list_find (λ entry, fst entry = key) overrides ≫= λ found,
  Some (snd (snd found)).

(** [{...rating, ...override}] for an override as its type describes it:
    an object with the three optional keys of the schema, each absent or
    holding a value. *)
Definition applyOverride (rating : Rating) (override : RatingOverride) : Rating :=
  {| kind := kind rating;
     category := default (category rating) (o_category override);
     scoreReduction := default (scoreReduction rating) (o_scoreReduction override);
     name := name rating;
     description := description rating;
     id := id rating;
     groupingLabels :=
       match o_groupingLabels override with
       | Some labels => Some labels
       | None => groupingLabels rating
       end |}.

(** The [forEach] over [Object.keys(config.ratingOverrides)]: the first key
    without a configured rating raises. *)
Fixpoint checkOverrideIds (keys : list string) (configured : list Rating)
  : Result unit :=
  match keys with
  | [] => Ok ()
  | key :: keys' =>
      if existsb (λ rating, bool_decide (id rating = key)) configured
      then checkOverrideIds keys' configured
      else Throw (newUserFacingError
             ("Rating with an ID of " +:+ DQ +:+ key +:+ DQ +:+
              " has not been configured. Cannot apply an override to it."))
  end.

Definition resolveRatings (config : EnvironmentConfig) : Result (list Rating) :=
  match ratingOverrides config with
  | None => Ok (ratings config)
  | Some overrides =>
      bind (checkOverrideIds (fst <$> overrides) (ratings config)) (λ _,
      Ok ((λ rating,
             match lookupOverride overrides (id rating) with
             | Some override => applyOverride rating override
             | None => rating
             end) <$> ratings config))
  end.

(** [{name: ..., maxPoints: ..., ...overrides?.[category]}]. *)
Definition categoryWithOverride (defaultName : string) (defaultMax : Z)
  (override : option CategoryOverride) : CategoryConfig :=
  {| c_name := default defaultName (override ≫= o_name);
     maxPoints := default defaultMax (override ≫= o_maxPoints) |}.

Definition getRatingCategories (config : EnvironmentConfig)
  : RatingCategory → CategoryConfig :=
  λ c,
    let override := categoryOverrides config ≫= λ overrides, overrides c in
    match c with
    | HIGH_IMPACT => categoryWithOverride "High Impact" 60 override
    | MEDIUM_IMPACT => categoryWithOverride "Medium Impact" 30 override
    | LOW_IMPACT => categoryWithOverride "Low Impact" 10 override
    end.

(** The last interpolation of the canonical string,
    [${rating.groupingLabels || [].sort().join(',')}]. The method calls
    bind tighter than [||], so the expression reads
    [rating.groupingLabels || ([].sort().join(','))]: an array, which is
    always truthy, is interpolated as it is (its elements joined by a comma
    in their stored order), and only an absent list reaches the sorted
    empty array. *)
Definition groupingLabelsPart (rating : Rating) : string :=
  match groupingLabels rating with
  | Some labels => join "," labels
  | None => join "," (sort defaultCompare [])
  end.

(** The canonical string pushed to [parts] for one rating. *)
Definition ratingPart (categories : RatingCategory → CategoryConfig)
  (rating : Rating) : string :=
  categoryValue (category rating) +:+ ";" +:+
  numberToString (maxPoints (categories (category rating))) +:+ ";" +:+
  id rating +:+ ";" +:+ scoreReduction rating +:+ ";" +:+
  groupingLabelsPart rating.

(** The same configuration with its [ratings] array replaced. *)
Definition withRatings (config : EnvironmentConfig) (ratings' : list Rating)
  : EnvironmentConfig :=
  {| configuredId := configuredId config;
     displayName := displayName config;
     ratings := ratings';
     ratingOverrides := ratingOverrides config;
     categoryOverrides := categoryOverrides config;
     expectedRatingHash := expectedRatingHash config;
     analysisPrompts := analysisPrompts config |}.

(** The argument of [getSha256Hash] in [getRatingHash]. *)
Definition ratingHashInput (ratings : list Rating)
  (categories : RatingCategory → CategoryConfig) : string :=
  join "|" (sort defaultCompare (ratingPart categories <$> ratings)).

Section hashing.
(** [utils/hashing.ts] is outside the verified sources: the digest is a
    parameter of everything that follows. So are [generateId] of
    [utils/id-generation.ts], which returns [null] for a name it cannot
    make an identifier from, the constant [DEFAULT_SUMMARY_MODEL], and
    the reading and rendering of the file of a prompt that
    [this.renderEnvironmentPrompt(path).result] stands for: it throws
    when the file cannot be read. *)
Variable getSha256Hash : string → string.
Variable generateId : string → option string.
Variable renderAnalysisPrompt : string → Result string.
Variable DEFAULT_SUMMARY_MODEL : string.

Definition getRatingHash (ratings : list Rating)
  (categories : RatingCategory → CategoryConfig) : string :=
  getSha256Hash (ratingHashInput ratings categories).

(** [validateRatingHash]; [this_ratingHash] is the field [this.ratingHash],
    which the constructor has assigned before the call. *)
Definition validateRatingHash (this_displayName this_ratingHash : string)
  (currentHash : string) (config : EnvironmentConfig) : Result unit :=
  match expectedRatingHash config with
  | Some expected =>
      if truthy expected && bool_decide (expected ≠ currentHash)
      then Throw (newUserFacingError (join LF [
        "Rating hash for environment " +:+ DQ +:+ this_displayName +:+ DQ +:+
          " does not match the expectation.";
        "Expected: " +:+ expected;
        "Actual: " +:+ this_ratingHash;
        "Either update the `expectedRatingHash` field in the config or revert the ratings back to their previous configuration"
      ]))
      else Ok ()
  | None => Ok ()
  end.

(** [this.generateId(displayName)]. *)
Definition environmentId (displayName : string) : Result string :=
  match generateId displayName with
  | None =>
      Throw (newUserFacingError
        ("Could not auto-generate an ID from " +:+ DQ +:+ displayName +:+ DQ))
  | Some id => Ok id
  end.

(** [resolveAnalysisPrompts]: the [forEach] stops at the first prompt
    whose file cannot be rendered. *)
Fixpoint analysisPromptsLoop (prompts : list AnalysisPromptConfig)
  (result : list AnalysisPrompt) : Result (list AnalysisPrompt) :=
  match prompts with
  | [] => Ok result
  | current :: rest =>
      bind (renderAnalysisPrompt (ap_path current)) (λ prompt,
      analysisPromptsLoop rest
        (result ++ [{|
           a_name := ap_name current;
           a_prompt := prompt;
           a_model :=
             match ap_model current with
             | Some model => if truthy model then model else DEFAULT_SUMMARY_MODEL
             | None => DEFAULT_SUMMARY_MODEL
             end;
           reportsFilter := default NonPerfectReports (ap_reportsFilter current);
           ratingsFilter := default NonPerfectRatings (ap_ratingsFilter current)
         |}]))
  end.

Definition resolveAnalysisPrompts (config : EnvironmentConfig)
  : Result (list AnalysisPrompt) :=
  analysisPromptsLoop (default [] (analysisPrompts config)) [].

(** The fields of an [Environment] that the statements below assign. *)
Record Environment := {
  env_id : string;
  env_displayName : string;
  ratingCategories : RatingCategory → CategoryConfig;
  env_ratings : list Rating;
  ratingHash : string;
  env_analysisPrompts : list AnalysisPrompt;
}.

(** [config.id || this.generateId(config.displayName)]. *)
Definition idOrGenerated (config : EnvironmentConfig) : Result string :=
  match configuredId config with
  | Some id => if truthy id then Ok id else environmentId (displayName config)
  | None => environmentId (displayName config)
  end.

(** The constructor: the statements that can throw, in their order. The
    assignments between them (the frameworks, the path of the rating
    prompt, the executor and the like) copy or join values of the
    configuration and cannot. *)
Definition newEnvironment (config : EnvironmentConfig) : Result Environment :=
  bind (idOrGenerated config) (λ this_id,
  let this_ratingCategories := getRatingCategories config in
  bind (resolveRatings config) (λ this_ratings,
  let this_ratingHash := getRatingHash this_ratings this_ratingCategories in
  bind (resolveAnalysisPrompts config) (λ this_analysisPrompts,
  bind (validateRatingHash (displayName config) this_ratingHash
          this_ratingHash config) (λ _,
  Ok {| env_id := this_id;
        env_displayName := displayName config;
        ratingCategories := this_ratingCategories;
        env_ratings := this_ratings;
        ratingHash := this_ratingHash;
        env_analysisPrompts := this_analysisPrompts |})))).

End hashing.

(** *** Prompt definitions *)

Inductive SystemPromptType := generation | editing.

(** Step metadata is an opaque payload supplied by the user. *)
Definition Metadata := string.

Record PromptDefinition := {
  p_name : string;
  prompt : string;
  p_ratings : list Rating;
  systemPromptType : SystemPromptType;
  contextFilePatterns : list string;
  metadata : option Metadata;
}.

Record MultiStepPromptDefinition := {
  m_name : string;
  steps : list PromptDefinition;
}.

(** The [MultiStepPrompt] of a configuration. *)
Record MultiStepPrompt := {
  directoryPath : string;
  stepRatings : gmap string (list Rating);
  stepMetadata : gmap string Metadata;
}.

(** A directory entry as [readdirSync(..., {withFileTypes: true})]
    returns it. *)
Record Dirent := {
  d_name : string;
  d_isFile : bool;
}.

Definition isDigit (c : ascii) : bool :=
  (48 <=? nat_of_ascii c)%nat && (nat_of_ascii c <=? 57)%nat.

Fixpoint takeDigits (s : string) : string :=
  match s with
  | String c s' => if isDigit c then String c (takeDigits s') else EmptyString
  | EmptyString => EmptyString
  end.

Fixpoint stripPrefix (p s : string) : option string :=
  match p, s with
  | EmptyString, _ => Some s
  | String a p', String b s' =>
      if decide (a = b) then stripPrefix p' s' else None
  | String _ _, EmptyString => None
  end.

(** [name.match(/^step-(\d+)/)], reduced to its first group: the longest
    run of decimal digits that follows the prefix, which has to be
    non-empty for the expression to match. *)
Definition matchStep (name : string) : option string :=
  stripPrefix "step-" name ≫= λ rest,
  let digits := takeDigits rest in
  if truthy digits then Some digits else None.

Fixpoint parseDigits (acc : Z) (s : string) : Z :=
  match s with
  | EmptyString => acc
  | String c s' => parseDigits (10 * acc + (Z.of_nat (nat_of_ascii c) - 48)) s'
  end.

(** [parseInt] on a string of decimal digits: the double nearest to the
    integer that the digits denote. *)
Definition parseInt (digits : string) : Number := toDouble (parseDigits 0 digits).

Section prompts.
(** The path helpers of [node:path] and the prompt renderer
    ([renderEnvironmentPrompt], which reads a file that the directory
    was just found to hold and expands the template) are taken as
    parameters. *)
Variable resolve : string → string → string.
Variable basename : string → string.
Variable pathJoin : string → string → string.
Variable renderEnvironmentPrompt : string → string * list string.

Definition getSinglePromptDefinition (name relativePath : string)
  (ratings : list Rating) (isEditing : bool) (metadata : option Metadata)
  : PromptDefinition :=
  let '(result, contextFiles) := renderEnvironmentPrompt relativePath in
  {| p_name := name;
     prompt := result;
     p_ratings := ratings;
     systemPromptType := if isEditing then editing else generation;
     contextFilePatterns := contextFiles;
     metadata := metadata |}.

(** The state of the loop over the directory entries. *)
Record StepsState := {
  st_steps : list PromptDefinition;
  st_stepValues : gmap string Number;
}.

(** One iteration of [for (const current of entities)]. *)
Definition stepIteration (name : string) (def : MultiStepPrompt)
  (envRatings : list Rating) (current : Dirent) (st : StepsState)
  : Result StepsState :=
  if negb (d_isFile current) then
    Throw (newUserFacingError
      ("Multi-step prompt directory can only contain files. " +:+
       d_name current +:+ " is not a file."))
  else
    match matchStep (d_name current) with
    | None =>
        Throw (newUserFacingError
          ("Multi-step prompt name must be in the form of `step-<number>`, " +:+
           "but received '" +:+ d_name current +:+ "'"))
    | Some digits =>
        let ratings :=
          match stepRatings def !! d_name current with
          | Some extra => extra ++ envRatings
          | None => envRatings
          end in
        let stepMetadata := stepMetadata def !! d_name current in
        let stepNum := parseInt digits in
        if Number_eqb stepNum (Integral 0) then
          Throw (newUserFacingError "Multi-step prompts start with `step-1`.")
        else
          let step :=
            getSinglePromptDefinition
              (name +:+ "-step-" +:+ doubleToString stepNum)
              (pathJoin (directoryPath def) (d_name current))
              ratings (negb (Number_eqb stepNum (Integral 1))) stepMetadata in
          Ok {| st_steps := st_steps st ++ [step];
                st_stepValues := <[p_name step := stepNum]> (st_stepValues st) |}
    end.

Fixpoint stepsLoop (name : string) (def : MultiStepPrompt)
  (envRatings : list Rating) (entities : list Dirent) (st : StepsState)
  : Result StepsState :=
  match entities with
  | [] => Ok st
  | current :: rest =>
      bind (stepIteration name def envRatings current st)
           (stepsLoop name def envRatings rest)
  end.

(** The comparator [(a, b) => stepValues[a.name] - stepValues[b.name]].
    A missing key reads as [undefined], the difference is then [NaN], and
    [sort] takes [NaN] for [+0]. *)
Definition stepCompare (stepValues : gmap string Number)
  (a b : PromptDefinition) : Z :=
  match stepValues !! p_name a, stepValues !! p_name b with
  | Some x, Some y => Number_minus x y
  | _, _ => 0
  end.

(** [getMultiStepPrompt]. The two reads of the file system,
    [statSync(promptRoot).isDirectory()] and [readdirSync(promptRoot)],
    are the arguments [rootIsDirectory] and [entities]. *)
Definition getMultiStepPrompt (rootPath : string) (rootIsDirectory : bool)
  (entities : list Dirent) (def : MultiStepPrompt) (envRatings : list Rating)
  : Result MultiStepPromptDefinition :=
  let promptRoot := resolve rootPath (directoryPath def) in
  let name := basename promptRoot in
  if negb rootIsDirectory then
    Throw (newUserFacingError
      ("Multi-step prompt root must point to a directory. " +:+ DQ +:+
       promptRoot +:+ DQ +:+ " is not a directory."))
  else if (length entities =? 0)%nat then
    Throw (newUserFacingError "Multi-step prompt directory cannot be empty.")
  else
    bind (stepsLoop name def envRatings entities
            {| st_steps := []; st_stepValues := ∅ |}) (λ st,
    Ok {| m_name := name;
          steps := sort (stepCompare (st_stepValues st)) (st_steps st) |}).

(** *** The specification's reading of the step order

    The specification orders the steps by the number parsed from the name
    of the file each one comes from. The three definitions below say that
    in terms of the directory entries: the number of an entry, the
    comparison of two entries by their numbers, and the step an entry
    stands for. *)

Definition stepNumber (entry : Dirent) : Number :=
  match matchStep (d_name entry) with
  | Some digits => parseInt digits
  | None => Integral 0
  end.

Definition byStepNumber (a b : Dirent) : Z :=
  Number_minus (stepNumber a) (stepNumber b).




Definition stepOfEntry (name : string) (def : MultiStepPrompt)
  (envRatings : list Rating) (entry : Dirent) : PromptDefinition :=
  getSinglePromptDefinition
    (name +:+ "-step-" +:+ doubleToString (stepNumber entry))
    (pathJoin (directoryPath def) (d_name entry))
    (match stepRatings def !! d_name entry with
     | Some extra => extra ++ envRatings
     | None => envRatings
     end)
    (negb (Number_eqb (stepNumber entry) (Integral 1)))
    (stepMetadata def !! d_name entry).

(** The name under which the loop files the number of an entry, and the
    write it performs on [stepValues]. *)
Definition stepKey (name : string) (entry : Dirent) : string :=
  name +:+ "-step-" +:+ doubleToString (stepNumber entry).

Definition recordStep (name : string) (values : gmap string Number)
  (entry : Dirent) : gmap string Number :=
  <[stepKey name entry := stepNumber entry]> values.

(** An entry that the loop accepts. *)
Definition acceptedEntry (entry : Dirent) : Prop :=
  d_isFile entry = true ∧
  (∃ digits, matchStep (d_name entry) = Some digits) ∧
  stepNumber entry ≠ Integral 0.

End prompts.

End Environment.

(** ** Shared interfaces: shared-interfaces.ts *)

Module Shared.

Record LlmResponseFile := {
  filePath : string;
  code : string;
}.

Record Usage := {
  inputTokens : Z;
  outputTokens : Z;
  thinkingTokens : Z;
  totalTokens : Z;
}.

(** Values computed by collaborators that the orchestration only passes
    along are kept as opaque payloads. *)
Definition BuildResult := string.
Definition ServeTestingResult := string.
Definition TestExecutionResult := string.
Definition CodeAssessmentScore := string.
Definition AttemptDetails := string.
Definition UserJourneysResult := string.
Definition ToolLogEntry := string.

Record LlmGenerateFilesResponse := {
  files : list LlmResponseFile;
  reasoning : string;
  usage : option Usage;
  toolLogs : option (list ToolLogEntry);
}.

(** What [attemptBuildAndTest] resolves to when it does not give up. *)
Record BuildAndTestAttempt := {
  outputFiles : list LlmResponseFile;
  buildResult : BuildResult;
  serveTestingResult : option ServeTestingResult;
  repairAttempts : Z;
  axeRepairAttempts : Z;
  testResult : option TestExecutionResult;
  testRepairAttempts : Z;
}.

(** The serialisable part of a prompt definition kept in a result. *)
Record PromptRef := {
  name : string;
  prompt : string;
}.

Record AssessmentResult := {
  promptDef : PromptRef;
  r_outputFiles : list LlmResponseFile;
  finalAttempt : BuildAndTestAttempt;
  score : CodeAssessmentScore;
  r_repairAttempts : Z;
  attemptDetails : list AttemptDetails;
  userJourneys : option UserJourneysResult;
  r_axeRepairAttempts : Z;
  r_toolLogs : list ToolLogEntry;
  r_testResult : option TestExecutionResult;
  r_testRepairAttempts : Z;
}.

Record FailedPrompt := {
  promptName : string;
  error : string;
  stack : option string;
}.

End Shared.

(** ** More string methods *)

Module Strings.

(** [s.startsWith(searchString)]. *)
Fixpoint startsWith (s searchString : string) {struct searchString} : bool :=
  match searchString, s with
  | EmptyString, _ => true
  | String a rest, String b s' => bool_decide (a = b) && startsWith s' rest
  | String _ _, EmptyString => false
  end.

(** [s.includes(searchString)]. *)
Fixpoint includes (s searchString : string) : bool :=
  startsWith s searchString ||
  match s with
  | EmptyString => false
  | String _ s' => includes s' searchString
  end.

(** [s.endsWith(searchString)]. *)
Definition endsWith (s searchString : string) : bool :=
  startsWith (String.rev s) (String.rev searchString).

End Strings.

(** ** The candidate prompts: orchestration/generate.ts *)

Module Candidates.
Import JS Strings.

(** A value returned by [Math.random()]: a number from 0 up to, but not
    including, 1. *)
Record UnitInterval := {
  u_value : Q;
  u_range : (0 <= u_value)%Q ∧ (u_value < 1)%Q;
}.

(** An entry of the directory of locally cached output. *)
Record LocalEntry := {
  e_name : string;
  e_isDirectory : bool;
}.

Section prompts.
(** The prompts are kept abstract: the functions only read their name. *)
Context {Prompt : Type} (name : Prompt → string).

(** [[items[i], items[j]] = [items[j], items[i]]] for indices inside the
    array, which is where the shuffle keeps them. *)
Definition swap (items : list Prompt) (i j : nat) : list Prompt :=
  match items !! i, items !! j with
  | Some a, Some b => <[j := a]> (<[i := b]> items)
  | _, _ => items
  end.

(** The loop of [shuffleArray] from index [i] down to 1; [call] counts
    the calls of [Math.random] made so far. *)
Fixpoint shuffleFrom (random : nat → UnitInterval) (call : nat) (i : nat)
  (items : list Prompt) : list Prompt :=
  match i with
  | O => items
  | S i' =>
      let j := Z.to_nat (Qfloor (u_value (random call) * inject_Z (Z.of_nat i + 1))) in
      shuffleFrom random (S call) i' (swap items i j)
  end.

Definition shuffleArray (random : nat → UnitInterval) (items : list Prompt)
  : list Prompt :=
  shuffleFrom random 0 (length items - 1) items.

(** [getCandidateExecutablePrompts]. [envDir] is [None] when
    [existsSync(envDir)] is false and the listing of the directory
    otherwise. *)
Definition getCandidateExecutablePrompts (basename : string → string)
  (random : nat → UnitInterval) (executablePrompts : list Prompt)
  (localMode : bool) (envDir : option (list LocalEntry))
  (promptFilter : option string) : list Prompt :=
  let result :=
    match localMode, envDir with
    | true, Some entries =>
        let localPromptNames :=
          (λ entry, basename (e_name entry))
            <$> filter (λ entry, e_isDirectory entry = true) entries in
        filter (λ p, name p ∈ localPromptNames) executablePrompts
    | _, _ => executablePrompts
    end in
  match promptFilter with
  | Some f =>
      if truthy f
      then filter (λ p, includes (name p) f = true) result
      else shuffleArray random result
  | None => shuffleArray random result
  end.

(** [items.slice(0, end)] for an integral [end]: a negative [end] counts
    from the end of the array. *)
Definition slice0 (items : list Prompt) (end_ : Z) : list Prompt :=
  let len := Z.of_nat (length items) in
  let final := if end_ <? 0 then Z.max (len + end_) 0 else Z.min end_ len in
  take (Z.to_nat final) items.

(** [promptsToProcess] of [generateCodeAndAssess]. *)
Definition promptsToProcess (basename : string → string)
  (random : nat → UnitInterval) (executablePrompts : list Prompt)
  (localMode : bool) (envDir : option (list LocalEntry))
  (promptFilter : option string) (limit : Z) : list Prompt :=
  slice0 (getCandidateExecutablePrompts basename random executablePrompts
            localMode envDir promptFilter) limit.

End prompts.

End Candidates.

(** ** The summary of a run: orchestration/generate-summary.ts *)

Module Summary.
Import JS Shared.

(** An assessment as [prepareSummary] reads it: the usage of the raters
    and the usage of each attempt, where there is one. *)
Record ScoredAssessment := {
  tokenUsage : option Usage;
  attemptUsages : list (option Usage);
}.

Record ChatResponse := {
  responseHtml : string;
  usage : Usage;
}.

Record AnalysisPrompt := {
  analysis_name : string;
  analysis_prompt : string;
  analysis_model : string;
}.

Record ExecutorInfo := {
  executor_id : string;
  executor_displayName : string;
}.

Record AiAnalysis := {
  ai_name : string;
  ai_summary : string;
}.

Record Framework := {
  framework_id : string;
  framework_displayName : string;
}.

(** The fields of the environment that the summary copies. *)
Record EnvironmentInfo := {
  env_id : string;
  env_displayName : string;
  fullStackFramework : Framework;
  clientSideFramework : Framework;
  env_ratingHash : string;
}.

(** [CompletionStats] is passed along as it is. *)
Record RunSummary {CompletionStats : Type} := {
  summary_model : string;
  environmentId : string;
  summary_displayName : string;
  framework : Framework * Framework;
  aiSummary : option string;
  additionalAiAnalysis : list AiAnalysis;
  completionStats : CompletionStats;
  summary_usage : Usage;
  runner : ExecutorInfo;
  ratingHash : string;
}.
Arguments RunSummary : clear implicits.

Definition noUsage : Usage :=
  {| inputTokens := 0; outputTokens := 0; thinkingTokens := 0; totalTokens := 0 |}.

(** The four [+=] on the counters. *)
Definition addUsage (counters u : Usage) : Usage :=
  {| inputTokens := inputTokens counters + inputTokens u;
     outputTokens := outputTokens counters + outputTokens u;
     thinkingTokens := thinkingTokens counters + thinkingTokens u;
     totalTokens := totalTokens counters + totalTokens u |}.

Definition addIfPresent (counters : Usage) (u : option Usage) : Usage :=
  match u with
  | Some u => addUsage counters u
  | None => counters
  end.

(** The body of [assessments.forEach]. *)
Definition countAssessment (counters : Usage) (result : ScoredAssessment)
  : Usage :=
  foldl addIfPresent (addIfPresent counters (tokenUsage result))
    (attemptUsages result).

(** The continuation of one analysis prompt, run when its chat settles:
    a response is counted and pushed, a failure is logged and dropped. *)
Definition settleAnalysis (state : list AiAnalysis * Usage)
  (settled : AnalysisPrompt * Result ChatResponse) : list AiAnalysis * Usage :=
  match settled.2 with
  | Ok result =>
      (state.1 ++ [{| ai_name := analysis_name settled.1;
                      ai_summary := responseHtml result |}],
       addUsage state.2 (usage result))
  | Throw _ => state
  end.

(** [prepareSummary]. [summarizeReportWithAI] is what the summary request
    settles with, and [analyses] lists the analysis prompts of the
    environment with what their chats settle with, in the order in which
    they settle. [getExecutorInfo] is the optional method of the
    executor. *)
Definition prepareSummary {CompletionStats : Type}
  (generateAiSummaryLlm : bool) (evalRunModel : string)
  (env : EnvironmentInfo) (assessments : list ScoredAssessment)
  (completionStats : CompletionStats)
  (summarizeReportWithAI : Result ChatResponse)
  (analyses : list (AnalysisPrompt * Result ChatResponse))
  (getExecutorInfo : option (Result ExecutorInfo))
  : Result (RunSummary CompletionStats) :=
  let counters := foldl countAssessment noUsage assessments in
  let '(aiSummary, counters) :=
    if generateAiSummaryLlm then
      match summarizeReportWithAI with
      | Ok result => (Some (responseHtml result), addUsage counters (usage result))
      | Throw _ => (None, counters)
      end
    else (None, counters) in
  let '(additionalAiAnalysis, counters) :=
    if generateAiSummaryLlm && bool_decide (0 < length analyses)%nat then
      foldl settleAnalysis ([], counters) analyses
    else ([], counters) in
  match getExecutorInfo with
  | None =>
      Throw (ErrorObj {|
        err_class := TypeError; err_name := "TypeError";
        err_message := "Cannot read properties of undefined (reading 'id')";
        err_stack := None |})
  | Some executorInfo =>
      bind executorInfo (λ executorInfo,
      Ok {| summary_model := evalRunModel;
            environmentId := env_id env;
            summary_displayName := env_displayName env;
            framework :=
              ({| framework_id := framework_id (fullStackFramework env);
                  framework_displayName :=
                    framework_displayName (fullStackFramework env) |},
               {| framework_id := framework_id (clientSideFramework env);
                  framework_displayName :=
                    framework_displayName (clientSideFramework env) |});
            aiSummary := aiSummary;
            additionalAiAnalysis := additionalAiAnalysis;
            completionStats := completionStats;
            summary_usage := counters;
            runner := {| executor_id := executor_id executorInfo;
                         executor_displayName := executor_displayName executorInfo |};
            ratingHash := env_ratingHash env |})
  end.

(** The responses among what the AI requests settled with. *)
Definition responses (settled : list (Result ChatResponse)) : list ChatResponse :=
  omap (λ outcome, match outcome with Ok r => Some r | Throw _ => None end)
    settled.

Definition totalUsage (usages : list Usage) : Usage := foldl addUsage noUsage usages.

(** What an assessment adds to the counters. *)
Definition assessmentUsages (result : ScoredAssessment) : list Usage :=
  omap (λ u, u) (tokenUsage result :: attemptUsages result).

End Summary.

(** ** The run orchestrator: orchestration/generate.ts *)

Module Generate.
Import JS Shared.

Inductive Concurrency := auto | fixed (n : Z).

(** The [concurrency] option of a [PQueue]: a number or [Infinity]. *)
Inductive PoolSize := finite (n : Z) | Infinity.

(** The options of [AssessmentConfig] that the pools, the retry loop,
    the labels and the selection of the prompts read. The options that
    only decide which collaborators are called are part of [RunSetup]
    below. *)
Record AssessmentConfig := {
  concurrency : Concurrency;
  promptTimeoutRetries : option Z;
  labels : option (list string);
  promptFilter : option string;
}.

(** *** Pool sizes *)

(** [Math.floor(availableParallelism() * 0.8)] on rationals. The double
    nearest to 0.8 lies above it by less than 2^-54, so for every count of
    cores the floating-point product has the same floor as the exact one. *)
Definition appConcurrency (options : AssessmentConfig) (availableParallelism : Z) : Z :=
  match concurrency options with
  | auto => Qfloor (inject_Z availableParallelism * 0.8)
  | fixed n => n
  end.

(** The [concurrency] of [workerConcurrencyQueue]. *)
Definition workerConcurrency (options : AssessmentConfig) (appConcurrency : Z) : PoolSize :=
  match concurrency options with
  | auto => finite (Qfloor (inject_Z appConcurrency * 0.5))
  | fixed _ => Infinity
  end.

(** Modelled from the spec: the [PQueue] class of the p-queue package,
    which the repository imports and does not contain. The specification
    describes each pool as a semaphore-backed gate with a capacity: a task
    handed to the pool starts at once while fewer than [concurrency] tasks
    are active and waits otherwise; when a task ends, the longest-waiting
    one is admitted. [active] counts the admitted tasks, [waiting] the
    queued ones. *)
Record PQueue := {
  pq_concurrency : PoolSize;
  active : nat;
  waiting : nat;
}.

Inductive PQueueEvent := Add | Settle.

(** Modelled from the spec: a fresh pool of the given capacity. *)
Definition newPQueue (size : PoolSize) : PQueue :=
  {| pq_concurrency := size; active := 0; waiting := 0 |}.

Definition poolSizeToString (size : PoolSize) : string :=
  match size with
  | finite n => numberToString n
  | Infinity => "Infinity"
  end.

(** Modelled from the spec: [new PQueue({concurrency})]. Beyond what the
    specification says of a pool, the constructor of the package refuses
    a [concurrency] that is not a number from 1 up, with a [TypeError]. *)
Definition PQueue_constructor (size : PoolSize) : Result PQueue :=
  match size with
  | finite n =>
      if 1 <=? n then Ok (newPQueue size)
      else Throw (ErrorObj {|
             err_class := TypeError; err_name := "TypeError";
             err_message :=
               "Expected `concurrency` to be a number from 1 and up, got `" +:+
               poolSizeToString size +:+ "` (number)";
             err_stack := None |})
  | Infinity => Ok (newPQueue size)
  end.

(** Modelled from the spec: the test a pool makes before it lets a task
    start. *)
Definition hasRoom (q : PQueue) : bool :=
  match pq_concurrency q with
  | finite n => Z.of_nat (active q) <? n
  | Infinity => true
  end.

(** Modelled from the spec: what a pool does when a task is handed to it
    ([Add]) and when one of its running tasks ends ([Settle]). *)
Definition pqStep (q : PQueue) (ev : PQueueEvent) : PQueue :=
  match ev with
  | Add =>
      if hasRoom q
      then {| pq_concurrency := pq_concurrency q; active := S (active q);
              waiting := waiting q |}
      else {| pq_concurrency := pq_concurrency q; active := active q;
              waiting := S (waiting q) |}
  | Settle =>
      match active q with
      | O => q
      | S running =>
          let q' := {| pq_concurrency := pq_concurrency q; active := running;
                       waiting := waiting q |} in
          match waiting q with
          | S others =>
              if hasRoom q'
              then {| pq_concurrency := pq_concurrency q; active := S running;
                      waiting := others |}
              else q'
          | O => q'
          end
      end
  end.

Definition pqRun (q : PQueue) (events : list PQueueEvent) : PQueue :=
  foldl pqStep q events.

(** The invariant of a pool: the number of admitted tasks does not exceed
    its capacity. *)
Definition withinCapacity (q : PQueue) : Prop :=
  match pq_concurrency q with
  | finite n => Z.of_nat (active q) <= Z.max 0 n
  | Infinity => True
  end.

(** *** One prompt: evaluation, timeout and retries *)

Definition EvalID := string.

(** What one call of [evaluate()] meets: the outcome of
    [env.executor.initializeEval], of the [callWithTimeout] around
    [startEvaluationTask] (a [TimeoutError] when the deadline passes), and
    of [env.executor.finalizeEval]. *)
Record EvalAttempt := {
  initializeEval : Result EvalID;
  evaluationTask : Result (list AssessmentResult);
  finalizeEval : Result unit;
}.

(** The closure [evaluate]. A failure of [initializeEval] happens before
    the [try]; inside [finally] a failure of [finalizeEval] is caught and
    logged, so the outcome of the [try] block stands either way. *)
Definition evaluate (w : EvalAttempt) : Result (list AssessmentResult) :=
  bind (initializeEval w) (λ evalID,
    match finalizeEval w with
    | Ok _ => evaluationTask w
    | Throw _ => evaluationTask w
    end).

(** A root prompt of the environment, with what each successive call of
    [evaluate] for it is going to meet. [usesLlmBasedRatings] tells
    whether any of its ratings, or of the ratings of its steps, is of the
    kind [LLM_BASED]. *)
Record Job := {
  rootPromptDef_name : string;
  usesLlmBasedRatings : bool;
  attempts : nat → EvalAttempt;
}.

Definition failureEntry (job : Job) (e : Thrown) : FailedPrompt :=
  {| promptName := rootPromptDef_name job;
     error := render e;
     stack := match e with
              | ErrorObj o => err_stack o
              | NonError _ => None
              end |}.

(** The loop [for (attemptIdx = 0; attemptIdx < maxAttempts; attemptIdx++)].
    It returns [promptResults] ([None] for [null]) and the shared
    [failedPrompts] list. [fuel] bounds the number of iterations and is
    never exhausted before the loop condition fails (see
    [attemptLoop_fuel]). *)
Fixpoint attemptLoop (job : Job) (maxAttempts : Z) (fuel : nat)
  (attemptIdx : Z) (failedPrompts : list FailedPrompt)
  : option (list AssessmentResult) * list FailedPrompt :=
  match fuel with
  | O => (None, failedPrompts)
  | S fuel' =>
      if attemptIdx <? maxAttempts then
        match evaluate (attempts job (Z.to_nat attemptIdx)) with
        | Ok promptResults => (Some promptResults, failedPrompts)
        | Throw e =>
            if instanceofTimeoutError e && (attemptIdx <? maxAttempts - 1)
            then attemptLoop job maxAttempts fuel' (attemptIdx + 1) failedPrompts
            else (Some [], failedPrompts ++ [failureEntry job e])
        end
      else (None, failedPrompts)
  end.

(** The task handed to [appConcurrencyQueue.add]. *)
Definition runPrompt (options : AssessmentConfig) (job : Job)
  (failedPrompts : list FailedPrompt)
  : Result (list AssessmentResult) * list FailedPrompt :=
  let maxAttempts := default 0 (promptTimeoutRetries options) + 1 in
  match attemptLoop job maxAttempts (Z.to_nat maxAttempts) 0 failedPrompts with
  | (Some promptResults, failedPrompts') => (Ok promptResults, failedPrompts')
  | (None, failedPrompts') =>
      (Throw (ErrorObj {|
         err_class := PlainError; err_name := "Error";
         err_message :=
           "Unexpected code path. There were " +:+ numberToString maxAttempts +:+
           " attempts for evaluating: " +:+ rootPromptDef_name job;
         err_stack := None |}), failedPrompts')
  end.

(** What a prompt contributes when it runs on its own: the outcome of its
    task, its results, and its entries in [failedPrompts]. *)
Definition jobOutcome (options : AssessmentConfig) (job : Job)
  : Result (list AssessmentResult) :=
  fst (runPrompt options job []).

Definition jobResults (options : AssessmentConfig) (job : Job)
  : list AssessmentResult :=
  match jobOutcome options job with
  | Ok promptResults => promptResults
  | Throw _ => []
  end.

Definition jobFailures (options : AssessmentConfig) (job : Job)
  : list FailedPrompt :=
  snd (runPrompt options job []).

(** The situations the specification speaks of. The attempt of index [k]
    is the initial one for [k = 0] and the [k]-th retry otherwise. *)
Definition timedOut (job : Job) (k : nat) : Prop :=
  ∃ e, evaluate (attempts job k) = Throw e ∧ instanceofTimeoutError e = true.

(** Every attempt before [k] timed out, and attempt [k] fails for good:
    with an error that is not a timeout, or as the last attempt allowed. *)
Definition failsAt (retries : Z) (job : Job) (k : nat) (e : Thrown) : Prop :=
  Z.of_nat k <= retries ∧
  (∀ j, (j < k)%nat → timedOut job j) ∧
  evaluate (attempts job k) = Throw e ∧
  (instanceofTimeoutError e = false ∨ Z.of_nat k = retries).

(** Every attempt before [k] timed out, and attempt [k] returns. *)
Definition succeedsAt (retries : Z) (job : Job) (k : nat)
  (promptResults : list AssessmentResult) : Prop :=
  Z.of_nat k <= retries ∧
  (∀ j, (j < k)%nat → timedOut job j) ∧
  evaluate (attempts job k) = Ok promptResults.

(** *** All prompts *)

(** The state shared by the tasks: the array that [Promise.all] fills, one
    slot per task in submission order; the first rejection, which settles
    [Promise.all] at once; and the [failedPrompts] array. *)
Record RunState := {
  slots : list (option (list AssessmentResult));
  firstRejection : option Thrown;
  failedPrompts : list FailedPrompt;
}.

(** The task of index [i] runs to completion. Tasks interleave only at
    their suspension points, and each of them touches the shared state in
    one uninterrupted stretch at its end, so a run is described by the
    order in which the tasks complete. *)
Definition completeTask (options : AssessmentConfig) (jobs : list Job)
  (st : RunState) (i : nat) : RunState :=
  match jobs !! i with
  | None => st
  | Some job =>
      match runPrompt options job (failedPrompts st) with
      | (Ok promptResults, failedPrompts') =>
          {| slots := <[i := Some promptResults]> (slots st);
             firstRejection := firstRejection st;
             failedPrompts := failedPrompts' |}
      | (Throw e, failedPrompts') =>
          {| slots := slots st;
             firstRejection := Some (default e (firstRejection st));
             failedPrompts := failedPrompts' |}
      end
  end.

Definition runTasks (options : AssessmentConfig) (jobs : list Job)
  (completionOrder : list nat) : RunState :=
  foldl (completeTask options jobs)
        {| slots := replicate (length jobs) None; firstRejection := None;
           failedPrompts := [] |}
        completionOrder.

(** What the slot of index [i] holds once the tasks listed in
    [completionOrder] have completed: the results of the task, when it is
    among them and has fulfilled. *)
Definition slotValue (options : AssessmentConfig) (jobs : list Job)
  (completionOrder : list nat) (i : nat) : option (list AssessmentResult) :=
  if decide (i ∈ completionOrder) then
    jobs !! i ≫= λ job,
      match jobOutcome options job with
      | Ok promptResults => Some promptResults
      | Throw _ => None
      end
  else None.

(** The entries that the task of index [i] appends to [failedPrompts]. *)
Definition failuresOf (options : AssessmentConfig) (jobs : list Job) (i : nat)
  : list FailedPrompt :=
  from_option (jobFailures options) [] (jobs !! i).

(** [await Promise.all(allTasks)]: [None] while a task is still pending. *)
Definition promiseAll (st : RunState) : option (Result (list (list AssessmentResult))) :=
  match firstRejection st with
  | Some e => Some (Throw e)
  | None => Ok <$> mapM id (slots st)
  end.

(** [CompletionStats]. *)
Record CompletionStats := {
  cs_allPromptsCount : nat;
  cs_failedPrompts : list FailedPrompt;
}.

(** The fields of [RunInfo] and of its [details] that depend on the
    run; the identifier, the version, the time stamp and the report name
    are made up or copied. *)
Record RunInfo := {
  group : string;
  results : list AssessmentResult;
  details_summary : Summary.RunSummary CompletionStats;
  details_systemPromptGeneration : string;
  details_systemPromptRepair : string;
  details_labels : list string;
}.

(** The completion statistics that the summary of a run holds. *)
Definition allPromptsCount (info : RunInfo) : nat :=
  cs_allPromptsCount (Summary.completionStats (details_summary info)).

Definition summary_failedPrompts (info : RunInfo) : list FailedPrompt :=
  cs_failedPrompts (Summary.completionStats (details_summary info)).

(** The remaining options, the environment, and what every call that
    [generateCodeAndAssess] awaits settles with. A call that the options
    do not ask for is not made, and its outcome here is not read. *)
Record RunSetup := {
  (** [options.model], [options.localMode], [options.limit],
      [options.enableUserJourneyTesting], [options.skipAiSummary] and
      [options.startMcp]. *)
  opt_model : string;
  localMode : bool;
  limit : Z;
  enableUserJourneyTesting : bool;
  skipAiSummary : bool;
  startMcp : bool;
  (** [options.environment] when it is an [Environment], what
      [getEnvironmentByPath] resolves to or rejects with otherwise. *)
  getEnvironment : Result Summary.EnvironmentInfo;
  assertValidModelName : Result unit;
  (** [env.executablePrompts()], and the listing of the directory of
      locally cached output when that directory exists. *)
  executablePrompts : Result (list Job);
  envDir : option (list Candidates.LocalEntry);
  (** [getRunnerByName('ai-sdk')]. *)
  getRunnerByName : Result unit;
  (** Whether [env.executor] is a [LocalExecutor], and whether it has a
      method [startMcpServerHost]. *)
  localExecutor : bool;
  hasStartMcpServerHost : bool;
  startMcpServerHost : Result unit;
  availableParallelism : Z;
  collectMcpServerLogs : Result unit;
  (** [env.classifyPrompts] and the two system prompts. *)
  classifyPrompts : bool;
  systemPromptGeneration : Result string;
  systemPromptRepair : Result string;
  (** What the requests of [prepareSummary] settle with for the given
      results: the AI summary, and the analysis prompts of the
      environment in the order in which their chats settle; and the
      optional method [getExecutorInfo] of the executor. *)
  summarizeReportWithAI : list AssessmentResult → Result Summary.ChatResponse;
  analyses :
    list AssessmentResult →
    list (Summary.AnalysisPrompt * Result Summary.ChatResponse);
  getExecutorInfo : option (Result Summary.ExecutorInfo);
  (** [getRunGroupId(timestamp, env, options)], of [grouping.ts]. *)
  getRunGroupId : Result string;
}.

Definition Classified : string := "Classified üïµÔ∏è".

(** A rejected [await] ends the run with its error. *)
Definition awaiting {A} (outcome : Result A)
  (continue : A → option (Result RunInfo)) : option (Result RunInfo) :=
  match outcome with
  | Ok a => continue a
  | Throw e => Some (Throw e)
  end.

Section run.
(** [String.prototype.localeCompare] depends on the collation of the host
    and is a parameter, as are [basename] of [node:path], the stream of
    numbers that [Math.random] returns, and the reading of the token
    usage recorded in an assessment, whose score and attempt details are
    opaque here. *)
Variable localeCompare : string → string → Z.
Variable basename : string → string.
Variable random : nat → Candidates.UnitInterval.
Variable usageOf : AssessmentResult → Summary.ScoredAssessment.

Definition byPromptName (a b : AssessmentResult) : Z :=
  localeCompare (name (promptDef a)) (name (promptDef b)).

(** [(await getCandidateExecutablePrompts(env, options.localMode,
    options.promptFilter)).slice(0, options.limit)]. *)
Definition promptsToProcess (options : AssessmentConfig) (c : RunSetup)
  : Result (list Job) :=
  bind (executablePrompts c) (λ prompts,
  Ok (Candidates.promptsToProcess rootPromptDef_name basename random prompts
        (localMode c) (envDir c) (promptFilter options) (limit c))).

(** [generateCodeAndAssess]. The [catch] aborts the other evaluations
    and throws the error again, and the [finally] runs a clean-up that
    catches its own errors, so the outcome of the function is that of the
    [try] block. The logging, [installChrome], which catches its own
    errors, [workerConcurrencyQueue.onEmpty()], [randomUUID] and the
    reading of the clock are taken to return. The result is [None] when
    [Promise.all] never settles. *)
Definition generateCodeAndAssess (options : AssessmentConfig) (c : RunSetup)
  (completionOrder : list nat) : option (Result RunInfo) :=
  awaiting (getEnvironment c) (λ env,
  awaiting (assertValidModelName c) (λ _,
  awaiting (promptsToProcess options c) (λ promptsToProcess,
  let hasLlmBasedRatings := existsb usesLlmBasedRatings promptsToProcess in
  awaiting (if hasLlmBasedRatings || enableUserJourneyTesting c
               || negb (skipAiSummary c)
            then getRunnerByName c else Ok ()) (λ _,
  let appConcurrency := appConcurrency options (availableParallelism c) in
  if (length promptsToProcess =? 0)%nat then
    Some (Throw (newUserFacingError
      ("No prompts have been configured for environment '" +:+
       Summary.env_displayName env +:+ "'" +:+
       match promptFilter options with
       | Some f => if truthy f then " and filtered by '" +:+ f +:+ "'." else "."
       | None => "."
       end)))
  else
  awaiting (if localExecutor c && startMcp c && hasStartMcpServerHost c
            then startMcpServerHost c else Ok ()) (λ _,
  awaiting (PQueue_constructor (finite appConcurrency)) (λ appConcurrencyQueue,
  awaiting (PQueue_constructor (workerConcurrency options appConcurrency))
    (λ workerConcurrencyQueue,
  let st := runTasks options promptsToProcess completionOrder in
  promiseAll st ≫= λ settled,
  awaiting settled (λ all,
  let results := sort byPromptName (concat all) in
  awaiting (if localExecutor c && startMcp c
            then collectMcpServerLogs c else Ok ()) (λ _,
  awaiting (Summary.prepareSummary (negb (skipAiSummary c)) (opt_model c) env
              (usageOf <$> results)
              {| cs_allPromptsCount := length promptsToProcess;
                 cs_failedPrompts := failedPrompts st |}
              (summarizeReportWithAI c results) (analyses c results)
              (getExecutorInfo c)) (λ summary,
  awaiting (if classifyPrompts c then Ok Classified
            else systemPromptGeneration c) (λ generationPrompt,
  awaiting (if classifyPrompts c then Ok Classified
            else systemPromptRepair c) (λ repairPrompt,
  let labels := Array_from (newSet (labels options)) in
  awaiting (getRunGroupId c) (λ group,
  Some (Ok {| group := group;
              results := results;
              details_summary := summary;
              details_systemPromptGeneration := generationPrompt;
              details_systemPromptRepair := repairPrompt;
              details_labels := labels |})
  ))))))))))))).

(** The run gets as far as the evaluation of the prompts: the
    environment resolves, the model is valid, the runners are available,
    the MCP server starts, and both pools can be constructed. *)
Definition evaluationsStart (options : AssessmentConfig) (c : RunSetup)
  : Prop :=
  (∃ env, getEnvironment c = Ok env)
  ∧ assertValidModelName c = Ok ()
  ∧ getRunnerByName c = Ok ()
  ∧ startMcpServerHost c = Ok ()
  ∧ 1 <= appConcurrency options (availableParallelism c)
  ∧ (concurrency options = auto →
     2 <= appConcurrency options (availableParallelism c)).

(** Everything around the evaluation of the prompts goes well: the run
    gets as far as the evaluations, and the collaborators called after
    them return. *)
Definition surroundingsReturn (options : AssessmentConfig) (c : RunSetup)
  : Prop :=
  evaluationsStart options c
  ∧ collectMcpServerLogs c = Ok ()
  ∧ (∃ executorInfo, getExecutorInfo c = Some (Ok executorInfo))
  ∧ (∃ generationPrompt, systemPromptGeneration c = Ok generationPrompt)
  ∧ (∃ repairPrompt, systemPromptRepair c = Ok repairPrompt)
  ∧ (∃ group, getRunGroupId c = Ok group).

End run.

End Generate.

(** ** One job: orchestration/generate-eval-task.ts *)

Module EvalTask.
Import JS Shared.

(** What the job does to the outside world, in the order it does it. *)
Inductive Event :=
| SetupProjectStructure
| ProgressLog (promptName type message : string) (details : option string)
| WriteResponseFiles (directoryName : string)
| Cleanup.

(** A computation that may throw and that appends to the trace of events;
    the trace survives a throw. *)
Definition Task (A : Type) : Type := list Event → Result A * list Event.

Definition ret {A} (a : A) : Task A := λ trace, (Ok a, trace).

Definition throw {A} (e : Thrown) : Task A := λ trace, (Throw e, trace).

Definition emit (ev : Event) : Task unit := λ trace, (Ok (), trace ++ [ev]).

Definition await {A} (r : Result A) : Task A := λ trace, (r, trace).

Definition andThen {A B} (m : Task A) (k : A → Task B) : Task B :=
  λ trace,
    match m trace with
    | (Ok a, trace') => k a trace'
    | (Throw e, trace') => (Throw e, trace')
    end.

(** [try { m } catch (e) { handler e }]. *)
Definition tryCatch {A} (m : Task A) (handler : Thrown → Task A) : Task A :=
  λ trace,
    match m trace with
    | (Ok a, trace') => (Ok a, trace')
    | (Throw e, trace') => handler e trace'
    end.

#[export] Instance task_ret : MRet Task := @ret.
#[export] Instance task_bind : MBind Task := λ A B k m, andThen m k.

Inductive PromptKind := single | multi_step.

Record PromptDefinition := {
  p_name : string;
  p_prompt : string;
}.

(** A [RootPromptDefinition]: for a single prompt [defsToExecute] is the
    prompt itself, for a multi-step prompt its steps. *)
Record RootPromptDefinition := {
  root_name : string;
  root_kind : PromptKind;
  defsToExecute : list PromptDefinition;
}.

(** The number of times the workspace was cleaned up. *)
Fixpoint cleanups (events : list Event) : nat :=
  match events with
  | [] => 0
  | Cleanup :: rest => S (cleanups rest)
  | _ :: rest => cleanups rest
  end.

(** The collaborators of one job, each given by what its call for a step
    resolves to or rejects with. [generateInitialFiles] may resolve to
    nothing; [attemptBuildAndTest] resolves to nothing when it gives up,
    and fills the [attemptDetails] array it is handed. [cleanupOutcome]
    is what the [cleanup] function that [setupProjectStructure] returned
    settles with, by the number of times it was called before. *)
Record Collaborators := {
  setupProjectStructure : Result unit;
  cleanupOutcome : nat → Result unit;
  getPrompts : PromptDefinition → Result (string * string);
  resolveContextFiles : PromptDefinition → Result (list string);
  generateInitialFiles : PromptDefinition → Result (option LlmGenerateFilesResponse);
  writeResponseFiles : string → list LlmResponseFile → Result unit;
  generateUserJourneysForApp : list LlmResponseFile → Result UserJourneysResult;
  attemptBuildAndTest :
    PromptDefinition → LlmGenerateFilesResponse →
    Result (option BuildAndTestAttempt * list AttemptDetails);
  rateGeneratedCode : PromptDefinition → BuildAndTestAttempt → Result CodeAssessmentScore;
}.

Record TaskConfig := {
  enableUserJourneyTesting : bool;
  cujGenerationLlm_available : bool;
}.

(** [await cleanup()]: the call is made, and may reject. *)
Definition cleanup (c : Collaborators) : Task unit :=
  λ trace, (cleanupOutcome c (cleanups trace), trace ++ [Cleanup]).

Definition typeErrorReadingNull (property : string) : Thrown :=
  ErrorObj {| err_class := TypeError; err_name := "TypeError";
              err_message := "Cannot read properties of null (reading '" +:+
                             property +:+ "')";
              err_stack := None |}.

Definition assertionError (msg : string) : Thrown :=
  ErrorObj {| err_class := AssertionError; err_name := "AssertionError";
              err_message := msg; err_stack := None |}.

Definition generationFailedMessage : string :=
  "Failed to generate initial code using AI. Skipping this app.".

(** How an iteration of the loop over [defsToExecute] ends. *)
Inductive LoopControl :=
| Continue (results : list AssessmentResult)
| Break (results : list AssessmentResult).

(** The body of [for (const promptDef of defsToExecute)], statement by
    statement. *)
Definition loopBody (config : TaskConfig) (c : Collaborators)
  (rootPromptDef : RootPromptDefinition) (promptDef : PromptDefinition)
  (results : list AssessmentResult) : Task LoopControl :=
  prompts ← await (getPrompts c promptDef);
  contextFiles ← await (resolveContextFiles c promptDef);
  initialResponse ← await (generateInitialFiles c promptDef);
  (* const toolLogs = initialResponse.toolLogs ?? []; *)
  toolLogs ← match initialResponse with
             | Some response => ret (default [] (toolLogs response))
             | None => throw (typeErrorReadingNull "toolLogs")
             end;
  (* if (!initialResponse) { ... } *)
  match initialResponse with
  | None =>
      emit (ProgressLog (p_name promptDef) "error" generationFailedMessage None);;
      cleanup c;;
      ret (Break results)
  | Some initialResponse =>
      written ← tryCatch
        (await (writeResponseFiles c (root_name rootPromptDef)
                  (files initialResponse));;
         emit (WriteResponseFiles (root_name rootPromptDef));;
         match root_kind rootPromptDef with
         | multi_step =>
             await (writeResponseFiles c (p_name promptDef)
                      (files initialResponse));;
             emit (WriteResponseFiles (p_name promptDef));;
             ret true
         | single => ret true
         end)
        (λ e,
           let details :=
             "Error: " +:+ render e +:+
             match e with
             | ErrorObj {| err_stack := Some s |} =>
                 if truthy s then s else EmptyString
             | _ => EmptyString
             end in
           emit (ProgressLog (p_name promptDef) "error"
                   generationFailedMessage (Some details));;
           cleanup c;;
           ret false);
      if negb written then ret (Break results)
      else
        userJourneys ←
          (if enableUserJourneyTesting config then
             if cujGenerationLlm_available config then
               journeys ← await (generateUserJourneysForApp c
                                   (files initialResponse));
               ret (Some journeys)
             else throw (assertionError
                           "Expected a CUJ generation LLM to be available.")
           else ret None);
        built ← await (attemptBuildAndTest c promptDef initialResponse);
        let '(attempt, attemptDetails) := built in
        match attempt with
        | None => cleanup c;; ret (Break results)
        | Some attempt =>
            score ← await (rateGeneratedCode c promptDef attempt);
            ret (Continue (results ++ [
              {| promptDef := {| name := p_name promptDef;
                                 prompt := p_prompt promptDef |};
                 r_outputFiles := outputFiles attempt;
                 finalAttempt := attempt;
                 score := score;
                 r_repairAttempts := repairAttempts attempt;
                 attemptDetails := attemptDetails;
                 userJourneys := userJourneys;
                 r_axeRepairAttempts := axeRepairAttempts attempt;
                 r_toolLogs := toolLogs;
                 r_testResult := testResult attempt;
                 r_testRepairAttempts := testRepairAttempts attempt |}]))
        end
  end.

Fixpoint stepLoop (config : TaskConfig) (c : Collaborators)
  (rootPromptDef : RootPromptDefinition) (defs : list PromptDefinition)
  (results : list AssessmentResult) : Task (list AssessmentResult) :=
  match defs with
  | [] => ret results
  | promptDef :: rest =>
      control ← loopBody config c rootPromptDef promptDef results;
      match control with
      | Continue results' => stepLoop config c rootPromptDef rest results'
      | Break results' => ret results'
      end
  end.

(** [startEvaluationTask]. *)
Definition startEvaluationTask (config : TaskConfig) (c : Collaborators)
  (rootPromptDef : RootPromptDefinition) : Task (list AssessmentResult) :=
  await (setupProjectStructure c);;
  emit SetupProjectStructure;;
  results ← stepLoop config c rootPromptDef (defsToExecute rootPromptDef) [];
  cleanup c;;
  ret results.

End EvalTask.

(** ** Reading the trace of a job *)

Module EvalTaskTrace.
Import JS Shared EvalTask.

(** What a result keeps of the prompt it belongs to, and the same two
    fields of a step. *)
Definition resultRef (r : AssessmentResult) : string * string :=
  (name (promptDef r), prompt (promptDef r)).

Definition stepRef (d : PromptDefinition) : string * string :=
  (p_name d, p_prompt d).

End EvalTaskTrace.

(** ** The AI SDK runner: codegen/ai-sdk/ai-sdk-runner.ts *)

Module AiSdk.
Import JS Shared.

(** The token counts of the SDK's result: each may be missing. *)
Record SdkUsage := {
  sdk_inputTokens : option Z;
  sdk_outputTokens : option Z;
  sdk_reasoningTokens : option Z;
  sdk_totalTokens : option Z;
}.

(** The object validated against the schema of [generateFiles],
    [z.object({outputFiles: z.array(...)})]: the array is required. *)
Record FilesOutput := {
  output_outputFiles : list LlmResponseFile;
}.

(** The result of the SDK's [generateText] called with
    [Output.object({schema})]. [output] is a getter of the SDK's result:
    it returns the object parsed from the answer and validated against
    the schema, and throws the SDK's NoOutputGeneratedError when the
    answer holds no structured output; it never returns null or
    undefined. [sdk_output] is the outcome of reading it. *)
Record SdkResponse := {
  sdk_reasoning : list string;
  sdk_output : Result FilesOutput;
  sdk_usage : SdkUsage;
}.

(** [LocalLlmConstrainedOutputGenerateResponse]: its type lets [output]
    be null. *)
Record ConstrainedResponse := {
  c_reasoning : string;
  c_output : option FilesOutput;
  c_usage : Usage;
}.

(** [LocalLlmGenerateFilesResponse] as a JavaScript value: the field
    [files] could in principle hold nothing. *)
Record GenerateFilesResponse := {
  g_files : option (list LlmResponseFile);
  g_reasoning : string;
  g_usage : Usage;
}.

Record GenerateFilesContext := {
  executablePrompt : string;
  systemInstructions : string;
}.

Record GenerateFilesRequest := {
  context : GenerateFilesContext;
  model : string;
}.

Record ConstrainedRequest := {
  cr_prompt : string;
  cr_systemPrompt : option string;
  cr_model : string;
}.

Section runner.
(** The SDK call behind [_wrapRequestWithTimeoutAndRateLimiting]: it
    rejects for an unsupported model, on a timeout or on a provider
    error. *)
Variable sdkGenerateText : ConstrainedRequest → Result SdkResponse.

(** The returned object literal is evaluated field by field:
    [reasoning], then [output: response.output], a read of the getter
    that may throw, then [usage]. *)
Definition generateConstrained (options : ConstrainedRequest)
  : Result ConstrainedResponse :=
  bind (sdkGenerateText options) (λ response,
  let reasoning := join LF (sdk_reasoning response) in
  bind (sdk_output response) (λ output,
  Ok {| c_reasoning := reasoning;
        c_output := Some output;
        c_usage :=
          {| inputTokens := default 0 (sdk_inputTokens (sdk_usage response));
             outputTokens := default 0 (sdk_outputTokens (sdk_usage response));
             thinkingTokens := default 0 (sdk_reasoningTokens (sdk_usage response));
             totalTokens := default 0 (sdk_totalTokens (sdk_usage response)) |} |})).

(** The options that [generateFiles] hands to [generateConstrained]. *)
Definition constrainedRequest (options : GenerateFilesRequest) : ConstrainedRequest :=
  {| cr_prompt := executablePrompt (context options);
     cr_systemPrompt := Some (systemInstructions (context options));
     cr_model := model options |}.

(** [files: response.output?.outputFiles ?? []]. *)
Definition generateFiles (options : GenerateFilesRequest)
  : Result GenerateFilesResponse :=
  bind (generateConstrained (constrainedRequest options)) (λ response,
  Ok {| g_files :=
          Some (default [] (output_outputFiles <$> c_output response));
        g_reasoning := c_reasoning response;
        g_usage := c_usage response |}).

End runner.

End AiSdk.

(** ** Edge cases of a run *)

Module RunEdges.
Import JS Shared Generate.

(** The error that the task of a prompt throws when its loop ends without
    having set [promptResults]. *)
Definition unexpectedCodePath (options : AssessmentConfig) (job : Job) : Thrown :=
  ErrorObj {|
    err_class := PlainError; err_name := "Error";
    err_message :=
      "Unexpected code path. There were " +:+
      numberToString (default 0 (promptTimeoutRetries options) + 1) +:+
      " attempts for evaluating: " +:+ rootPromptDef_name job;
    err_stack := None |}.

(** Options that differ only in the number of retries. *)
Definition withRetries (retries : Z) : AssessmentConfig :=
  {| concurrency := auto; promptTimeoutRetries := Some retries;
     labels := None; promptFilter := None |}.

End RunEdges.

(** ** More of the environment *)

Module EnvironmentEdges.
Import JS Environment.

(** The same configuration with another expected hash. *)
Definition withExpected (config : EnvironmentConfig) (expected : option string)
  : EnvironmentConfig :=
  {| configuredId := configuredId config;
     displayName := displayName config;
     ratings := ratings config;
     ratingOverrides := ratingOverrides config;
     categoryOverrides := categoryOverrides config;
     expectedRatingHash := expected;
     analysisPrompts := analysisPrompts config |}.

(** The fields of a rating that enter its canonical string. *)
Definition hashedFields (rating : Rating)
  : RatingCategory * string * string * option (list string) :=
  (category rating, id rating, scoreReduction rating, groupingLabels rating).


(** *** [getPrompt] *)

Record SystemPrompts := {
  generationSystemPrompt : string;
  editingSystemPrompt : option string;
}.

(** What [fetch] resolves to, as far as [getPrompt] reads it. *)
Record FetchResponse := {
  ok : bool;
  statusText : string;
  text : Result string;
}.

(** [s.replace(pattern, replacement)] for a string pattern: the first
    occurrence is replaced. The replacement is inserted as it is, which
    is what happens for a replacement without a dollar sign, such as an
    encoded URI component. *)
Fixpoint replaceFirst (s pattern replacement : string) : string :=
  match stripPrefix pattern s with
  | Some rest => replacement +:+ rest
  | None =>
      match s with
      | EmptyString => EmptyString
      | String c s' => String c (replaceFirst s' pattern replacement)
      end
  end.

Section getPrompt.
(** [renderSystemPrompt] reads and renders the file of a system prompt;
    [fetch] and [encodeURIComponent] are those of the platform. *)
Variable renderSystemPrompt : string → Result string.
Variable encodeURIComponent : string → string.
Variable fetch : string → Result FetchResponse.
Variable config : SystemPrompts.

Definition systemPromptGeneration : Result string :=
  renderSystemPrompt (generationSystemPrompt config).

Definition systemPromptEditing : Result string :=
  match editingSystemPrompt config with
  | Some path =>
      if truthy path then renderSystemPrompt path else systemPromptGeneration
  | None => systemPromptGeneration
  end.

Definition getPrompt (type : SystemPromptType) (userPrompt : string)
  (ragEndpoint : option string) : Result string :=
  bind (match type with
        | generation => systemPromptGeneration
        | editing => systemPromptEditing
        end) (λ systemPrompt,
  let plain := Ok (join (LF +:+ LF) [systemPrompt; userPrompt]) in
  match ragEndpoint with
  | None => plain
  | Some endpoint =>
      if negb (truthy endpoint) then plain
      else if negb (Strings.includes endpoint "PROMPT") then
        Throw (newUserFacingError
          ("The ragEndpoint must include the " +:+ DQ +:+ "PROMPT" +:+ DQ +:+
           " substring."))
      else
        let url := replaceFirst endpoint "PROMPT" (encodeURIComponent userPrompt) in
        bind (fetch url) (λ response,
        if negb (ok response) then
          Throw (newUserFacingError
            ("Failed to fetch from " +:+ url +:+ ": " +:+ statusText response))
        else
          bind (text response) (λ ragContent,
          Ok (systemPrompt +:+ LF +:+ LF +:+ ragContent)))
  end).

End getPrompt.

End EnvironmentEdges.

(** ** The models of the AI SDK runner: codegen/ai-sdk *)

Module AiSdkModels.
Import JS.

Definition GOOGLE_MODELS : list string :=
  [ "gemini-2.5-flash-lite";
    "gemini-2.5-flash";
    "gemini-2.5-flash-no-thinking";
    "gemini-2.5-flash-with-thinking-16k";
    "gemini-2.5-flash-with-thinking-24k";
    "gemini-2.5-pro";
    "gemini-3-pro-preview" ].

Definition ANTHROPIC_MODELS : list string :=
  [ "claude-opus-4.1-no-thinking";
    "claude-opus-4.1-with-thinking-16k";
    "claude-opus-4.1-with-thinking-32k";
    "claude-opus-4.5-no-thinking";
    "claude-opus-4.5-with-thinking-16k";
    "claude-opus-4.5-with-thinking-32k";
    "claude-sonnet-4.5-no-thinking";
    "claude-sonnet-4.5-with-thinking-16k";
    "claude-sonnet-4.5-with-thinking-32k" ].

Definition OPENAI_MODELS : list string :=
  [ "gpt-5.1-no-thinking";
    "gpt-5.1-thinking-low";
    "gpt-5.1-thinking-high";
    "gpt-5.1-thinking-medium" ].

Definition GROQ_MODELS : list string := [ "groq-4"; "grok-code-fast-1" ].

Definition SUPPORTED_MODELS : list string :=
  GOOGLE_MODELS ++ ANTHROPIC_MODELS ++ OPENAI_MODELS ++ GROQ_MODELS.

Definition getSupportedModels : list string := SUPPORTED_MODELS.

(** The provider options, field by field; a field that the source leaves
    out of the object is absent. *)
Record GoogleThinkingConfig := {
  thinkingBudget : option Z;
  includeThoughts : option bool;
}.

Inductive ThinkingType := enabled | disabled.

Record AnthropicOptions := {
  sendReasoning : bool;
  thinking_type : ThinkingType;
  budgetTokens : option Z;
}.

Record OpenAIOptions := {
  openai_reasoningEffort : string;
  reasoningSummary : string;
}.

Record GroqOptions := {
  groq_reasoningEffort : string;
}.

Inductive ProviderOptions :=
| google (thinkingConfig : GoogleThinkingConfig)
| anthropic (options : AnthropicOptions)
| openai (options : OpenAIOptions)
| groq (options : GroqOptions).

(** The language model is the name handed to the provider, and whether
    the model was wrapped in the thinking middleware. *)
Record ModelOptions := {
  apiModel : string;
  wrapped : bool;
  providerOptions : ProviderOptions;
}.

(** A [case] label list of a [switch] over strings. *)
Definition isCase (modelName : string) (labels : list string) : bool :=
  bool_decide (modelName ∈ labels).

Definition newError (message : string) : Thrown :=
  ErrorObj {| err_class := PlainError; err_name := "Error";
              err_message := message; err_stack := None |}.

Definition getAiSdkModelOptionsForGoogle (rawModelName : string)
  : Result (option ModelOptions) :=
  let modelName := rawModelName in
  if isCase modelName
       [ "gemini-2.5-flash-lite"; "gemini-2.5-flash"; "gemini-2.5-pro";
         "gemini-3-pro-preview" ]
  then
    Ok (Some {| apiModel := modelName; wrapped := false;
                providerOptions :=
                  google {| thinkingBudget := None;
                            includeThoughts := Some true |} |})
  else if isCase modelName [ "gemini-2.5-flash-no-thinking" ] then
    Ok (Some {| apiModel := "gemini-2.5-flash"; wrapped := false;
                providerOptions :=
                  google {| thinkingBudget := Some 0;
                            includeThoughts := None |} |})
  else if isCase modelName
            [ "gemini-2.5-flash-with-thinking-16k";
              "gemini-2.5-flash-with-thinking-24k" ]
  then
    bind (if Strings.endsWith modelName "-16k" then Ok 16000
          else if Strings.endsWith modelName "-24k" then Ok 24000
          else Throw (newError ("Unexpected model: " +:+ modelName)))
      (λ thinkingBudget,
    Ok (Some {| apiModel := "gemini-2.5-flash"; wrapped := false;
                providerOptions :=
                  google {| thinkingBudget := Some thinkingBudget;
                            includeThoughts := Some true |} |}))
  else Ok None.

Definition getAiSdkModelOptionsForAnthropic (rawModelName : string)
  : Result (option ModelOptions) :=
  let modelName := rawModelName in
  if isCase modelName
       [ "claude-opus-4.1-no-thinking";
         "claude-opus-4.1-with-thinking-16k";
         "claude-opus-4.1-with-thinking-32k";
         "claude-opus-4.5-no-thinking";
         "claude-opus-4.5-with-thinking-16k";
         "claude-opus-4.5-with-thinking-32k";
         "claude-sonnet-4.5-no-thinking";
         "claude-sonnet-4.5-with-thinking-16k";
         "claude-sonnet-4.5-with-thinking-32k" ]
  then
    let thinkingEnabled := Strings.includes modelName "-with-thinking" in
    let thinkingBudget :=
      if negb thinkingEnabled then None
      else if Strings.endsWith modelName "-32k" then Some 32000
      else Some 16000 in
    let apiModelName :=
      if Strings.includes modelName "opus-4.1" then "claude-opus-4-1"
      else if Strings.includes modelName "opus-4.5" then "claude-opus-4-5"
      else "claude-sonnet-4-5" in
    Ok (Some {| apiModel := apiModelName; wrapped := thinkingEnabled;
                providerOptions :=
                  anthropic {| sendReasoning := thinkingEnabled;
                               thinking_type :=
                                 if thinkingEnabled then enabled else disabled;
                               budgetTokens := thinkingBudget |} |})
  else Ok None.

Definition getAiSdkModelOptionsForOpenAI (rawModelName : string)
  : Result (option ModelOptions) :=
  let modelName := rawModelName in
  if isCase modelName
       [ "gpt-5.1-no-thinking"; "gpt-5.1-thinking-low";
         "gpt-5.1-thinking-medium"; "gpt-5.1-thinking-high" ]
  then
    let reasoningEffort :=
      if String.eqb modelName "gpt-5.1-thinking-high" then "high"
      else if String.eqb modelName "gpt-5.1-thinking-medium" then "medium"
      else if String.eqb modelName "gpt-5.1-thinking-low" then "low"
      else "none" in
    Ok (Some {| apiModel := "gpt-5.1"; wrapped := false;
                providerOptions :=
                  openai {| openai_reasoningEffort := reasoningEffort;
                            reasoningSummary := "detailed" |} |})
  else Ok None.

Definition getAiSdkModelOptionsForGroq (rawModelName : string)
  : Result (option ModelOptions) :=
  let modelName := rawModelName in
  if isCase modelName [ "groq-4"; "grok-code-fast-1" ] then
    let reasoningEffort :=
      if String.eqb modelName "groq-4" then "high"
      else if String.eqb modelName "grok-code-fast-1" then "medium"
      else "none" in
    Ok (Some {| apiModel := modelName; wrapped := false;
                providerOptions :=
                  groq {| groq_reasoningEffort := reasoningEffort |} |})
  else Ok None.

(** [a ?? b] over awaited calls: [b] is only called when [a] resolved to
    [null]. *)
Definition orElse (first : Result (option ModelOptions))
  (next : Result (option ModelOptions)) : Result (option ModelOptions) :=
  bind first (λ result,
    match result with
    | Some options => Ok (Some options)
    | None => next
    end).

Definition _getAiSdkModelOptions (model : string) : Result ModelOptions :=
  bind (orElse (orElse (orElse (getAiSdkModelOptionsForGoogle model)
                               (getAiSdkModelOptionsForAnthropic model))
                       (getAiSdkModelOptionsForOpenAI model))
               (getAiSdkModelOptionsForGroq model)) (λ result,
    match result with
    | None => Throw (newError ("Unexpected unsupported model: " +:+ model))
    | Some options => Ok options
    end).

(** The thinking budget that the options ask the provider for. *)
Definition requestedBudget (options : ModelOptions) : option Z :=
  match providerOptions options with
  | google config => thinkingBudget config
  | anthropic o => budgetTokens o
  | openai _ | groq _ => None
  end.

End AiSdkModels.

(** ** The messages of a request: codegen/ai-sdk/ai-sdk-runner.ts *)

Module AiSdkMessages.
Import JS.

Record Media := {
  base64PngImage : string;
  url : string;
}.

(** A part of a [PromptDataMessage]: it has a [media] key or a text. *)
Inductive PromptPart :=
| mediaPart (media : Media)
| textPart (text : string).

Record PromptDataMessage := {
  role : string;
  content : list PromptPart;
}.

Inductive Part :=
| FilePart (data mediaType : string)
| TextPart (text : string).

Inductive ModelMessage :=
| systemMessage (content : string)
| assistantMessage (content : list Part)
| userMessage (content : list Part).

Record Request := {
  systemPrompt : option string;
  messages : option (list PromptDataMessage);
  prompt : string;
}.

Definition toPart (c : PromptPart) : Part :=
  match c with
  | mediaPart media => FilePart (url media) "image/png"
  | textPart text => TextPart text
  end.

(** The loop of [_toAiSDKMessage], pushing to [result]. *)
Definition _toAiSDKMessage (messages : list PromptDataMessage)
  : list ModelMessage :=
  foldl (λ result message,
    if String.eqb (role message) "model" then
      result ++ [assistantMessage (toPart <$> content message)]
    else if String.eqb (role message) "user" then
      result ++ [userMessage (toPart <$> content message)]
    else result) [] messages.

Definition _convertRequestToMessagesList (request : Request)
  : list ModelMessage :=
  match systemPrompt request with
  | Some systemPrompt => [systemMessage systemPrompt]
  | None => []
  end
  ++ _toAiSDKMessage (default [] (messages request))
  ++ [userMessage [TextPart (prompt request)]].

Definition isSystem (message : ModelMessage) : bool :=
  match message with
  | systemMessage _ => true
  | _ => false
  end.

End AiSdkMessages.

(** ** The settings of the Gemini CLI: codegen/gemini-cli-runner.ts *)

Module GeminiCli.
Import JS.

Definition shellCommand (command : string) : string :=
  "run_shell_command(" +:+ command +:+ ")".

(** The [excludeTools] array of [getGeminiSettingsFile], before it is
    serialised. *)
Definition excludeTools (packageManager : string)
  (possiblePackageManagers : list string) : list string :=
  [shellCommand "git"]
  ++ (shellCommand <$>
       filter (λ m, m ≠ packageManager) possiblePackageManagers)
  ++ [ shellCommand (packageManager +:+ " install");
       shellCommand (packageManager +:+ " add");
       shellCommand (packageManager +:+ " remove");
       shellCommand (packageManager +:+ " update");
       shellCommand (packageManager +:+ " list") ].

Section settings.
(** [JSON.stringify(value, null, 2)] of an object with one array of
    strings. *)
Variable stringify : list (string * list string) → string.

Definition getGeminiSettingsFile (packageManager : string)
  (possiblePackageManagers : list string) : string :=
  stringify [("excludeTools", excludeTools packageManager possiblePackageManagers)].

End settings.

End GeminiCli.

(** ** Report groups as the server returns them: report-app/report-server.ts *)

Module ReportServer.
Import JS.

Section server.
(** A check as it is stored: an assessment, which may carry an [id] of
    its own; [Assessment] stands for its other fields. [Migrated] is what
    [convertV2ReportToV3Report] returns. *)
Context {Assessment Migrated RunDetails : Type}.

Record StoredCheck := {
  own_id : option string;
  assessment : Assessment;
}.

Record RunInfo := {
  details : RunDetails;
  results : list StoredCheck;
}.

Record AssessmentResultFromReportServer := {
  id : string;
  check : Assessment;
}.

Record RunInfoFromReportServer := {
  migrated : Migrated;
  served_results : list AssessmentResultFromReportServer;
}.

Variable convertV2ReportToV3Report : RunInfo → Migrated.

(** The identifier made up for the check number [checkID] of a group. *)
Definition checkLabel (groupId : string) (checkID : Z) : string :=
  groupId +:+ "-" +:+ numberToString checkID.

(** [{id: `${id}-${checkID++}`, ...check}]: the counter moves on for
    every check, and a check with an [id] of its own keeps it. *)
Definition augment (groupId : string) (checkID : Z) (stored : StoredCheck)
  : AssessmentResultFromReportServer :=
  {| id := default (checkLabel groupId checkID) (own_id stored);
     check := assessment stored |}.

Fixpoint augmentChecks (groupId : string) (checkID : Z)
  (checks : list StoredCheck) : list AssessmentResultFromReportServer * Z :=
  match checks with
  | [] => ([], checkID)
  | stored :: checks' =>
      let first := augment groupId checkID stored in
      let '(others, checkID') := augmentChecks groupId (checkID + 1) checks' in
      (first :: others, checkID')
  end.

(** [result.map(run => ...)], with the counter shared by the runs. *)
Fixpoint migrateRuns (groupId : string) (checkID : Z) (runs : list RunInfo)
  : list RunInfoFromReportServer :=
  match runs with
  | [] => []
  | run :: runs' =>
      let '(served, checkID') := augmentChecks groupId checkID (results run) in
      {| migrated := convertV2ReportToV3Report run; served_results := served |}
      :: migrateRuns groupId checkID' runs'
  end.

(** The reports on disk, keyed by group (of an entry only its [run] is
    read here), and the configured loader. *)
Variable localData : gmap string RunInfo.
Variable getGroupedReports : string → Result (option (list RunInfo)).

(** What is read for a group: the local report if there is one, the
    reports of the loader otherwise. *)
Definition storedRuns (groupId : string) : Result (option (list RunInfo)) :=
  match localData !! groupId with
  | Some run => Ok (Some [run])
  | None => getGroupedReports groupId
  end.

Definition fetchAndMigrateReports (groupId : string)
  : Result (option (list RunInfoFromReportServer)) :=
  bind (storedRuns groupId) (λ result,
    match result with
    | None => Ok None
    | Some runs => Ok (Some (migrateRuns groupId 0 runs))
    end).

(** [reports.flatMap(run => run.results)], as the chat endpoint reads
    the assessments. *)
Definition allAssessments (reports : list RunInfoFromReportServer)
  : list AssessmentResultFromReportServer :=
  reports ≫= served_results.

End server.

End ReportServer.

(** ** Logos of the report application: shared/provider-label.ts *)

Module ProviderLabel.
Import JS.

Definition exactMatches : gmap string string :=
  list_to_map
    [ ("angular", "frameworks/angular.png");
      ("react", "frameworks/react.webp");
      ("next", "frameworks/nextjs.svg");
      ("vue", "frameworks/vue.svg");
      ("solid", "frameworks/solid.svg");
      ("gemini-cli", "gemini.webp");
      ("genkit", "genkit.png");
      ("codex", "open-ai.png");
      ("ai-sdk", "ai-sdk.png") ].

Definition getModelLogoURL (id : string) : option string :=
  if Strings.startsWith id "gemini" then Some "gemini.webp"
  else if Strings.startsWith id "openai" then Some "open-ai.png"
  else if Strings.startsWith id "claude" then Some "claude.png"
  else None.

(** The computed [logo]; the input [id] may be undefined. *)
Definition logo (id : option string) : option string :=
  match id with
  | None => None
  | Some id =>
      if negb (truthy id) then None
      else
        match exactMatches !! id with
        | Some url => Some url
        | None => getModelLogoURL id
        end
  end.

End ProviderLabel.

(** ** The context of a chat about a report: reporting/report-ai-chat.ts *)

Module ReportChat.
Import JS.
Export Filters.

Section chat.
(** An assessment comes from a run or from the report server; only the
    latter has an [id]. *)
Context {Assessment : Type}.
Variable idOf : Assessment → option string.
Variable totalPoints maxOverallPoints : Assessment → Q.

Definition isAssessmentResultWithID (value : Assessment) : bool :=
  bool_decide (idOf value ≠ None).

(** [isAssessmentResultWithID(a) && activeReportIDs?.includes(a.id)] *)
Definition isActive (activeReportIDs : option (list string)) (a : Assessment)
  : bool :=
  isAssessmentResultWithID a &&
  match activeReportIDs with
  | None => false
  | Some ids => bool_decide (idOf a ∈ Some <$> ids)
  end.

Definition isNonPerfect (a : Assessment) : bool :=
  negb (Qle_bool (maxOverallPoints a) (totalPoints a)).

(** The assessments that [chatWithReportAI] puts into the prompt. *)
Definition assessmentsToProcess (reportContextFilter : ReportContextFilter)
  (activeReportIDs : option (list string)) (allAssessments : list Assessment)
  : list Assessment :=
  match reportContextFilter with
  | ActiveReports =>
      filter (λ a, isActive activeReportIDs a = true) allAssessments
  | NonPerfectReports => filter (λ a, isNonPerfect a = true) allAssessments
  | AllReports => allAssessments
  end.

End chat.

End ReportChat.

(** ** Concrete configurations and runs *)

Module Scenarios.
Import JS Shared.

(** A stand-in for the digest: it tells any two inputs apart and never
    returns the empty string, as a SHA-256 digest in hexadecimal does. *)
Definition tagDigest (input : string) : string := "sha256:" +:+ input.

Definition rating (id : string) (labels : option (list string))
  : Environment.Rating :=
  {| Environment.kind := Environment.PER_BUILD;
     Environment.category := Environment.HIGH_IMPACT;
     Environment.scoreReduction := "30%";
     Environment.name := id;
     Environment.description := "example";
     Environment.id := id;
     Environment.groupingLabels := labels |}.

Definition config (ratings : list Environment.Rating)
  (expectedRatingHash : option string) : Environment.EnvironmentConfig :=
  {| Environment.configuredId := None;
     Environment.displayName := "demo";
     Environment.ratings := ratings;
     Environment.ratingOverrides := None;
     Environment.categoryOverrides := None;
     Environment.expectedRatingHash := expectedRatingHash;
     Environment.analysisPrompts :=
       Some [{| Environment.ap_name := "failures";
                Environment.ap_path := "prompts/failures.md";
                Environment.ap_model := None;
                Environment.ap_reportsFilter := None;
                Environment.ap_ratingsFilter := None |}] |}.

(** Stand-ins for the generator of identifiers, which here accepts every
    name as it is, for the renderer of an analysis prompt, which answers
    with the path it is given, and for the default model of a summary. *)
Definition nameAsId (displayName : string) : option string := Some displayName.

Definition echoAnalysisPrompt (path : string) : Result string := Ok path.

Definition summaryModel : string := "gemini-2.5-flash".

Definition defaultCategories : Environment.RatingCategory → Environment.CategoryConfig :=
  Environment.getRatingCategories (config [] None).

(** A directory of three steps, listed out of order. *)
Definition entry (name : string) : Environment.Dirent :=
  {| Environment.d_name := name; Environment.d_isFile := true |}.

Definition shop : Environment.MultiStepPrompt :=
  {| Environment.directoryPath := "prompts/shop";
     Environment.stepRatings := ∅;
     Environment.stepMetadata := ∅ |}.

Definition slashJoin (a b : string) : string := a +:+ "/" +:+ b.

Definition shopBasename (path : string) : string := "shop".

(** A renderer for files that hold their own path and embed nothing. *)
Definition echoRenderer (path : string) : string * list string := (path, []).

(** Runs. *)
Definition result (promptName : string) : AssessmentResult :=
  {| promptDef := {| name := promptName; prompt := "Build it." |};
     r_outputFiles := [];
     finalAttempt :=
       {| outputFiles := []; buildResult := "success";
          serveTestingResult := None; repairAttempts := 0;
          axeRepairAttempts := 0; testResult := None;
          testRepairAttempts := 0 |};
     score := "100";
     r_repairAttempts := 0;
     attemptDetails := [];
     userJourneys := None;
     r_axeRepairAttempts := 0;
     r_toolLogs := [];
     r_testResult := None;
     r_testRepairAttempts := 0 |}.

Definition timeoutError : Thrown :=
  ErrorObj {| err_class := TimeoutError; err_name := "TimeoutError";
              err_message := "Evaluation timed out";
              err_stack := Some "at callWithTimeout" |}.

Definition attemptWith (outcome : Result (list AssessmentResult))
  : Generate.EvalAttempt :=
  {| Generate.initializeEval := Ok "eval";
     Generate.evaluationTask := outcome;
     Generate.finalizeEval := Ok () |}.

(** A prompt that returns at once, and one that times out every time. *)
Definition steadyJob (promptName : string) : Generate.Job :=
  {| Generate.rootPromptDef_name := promptName;
     Generate.usesLlmBasedRatings := false;
     Generate.attempts := λ _, attemptWith (Ok [result promptName]) |}.

Definition stuckJob (promptName : string) : Generate.Job :=
  {| Generate.rootPromptDef_name := promptName;
     Generate.usesLlmBasedRatings := false;
     Generate.attempts := λ _, attemptWith (Throw timeoutError) |}.

Definition twoPrompts : list Generate.Job := [stuckJob "b"; steadyJob "a"].

(** Two prompts that return at once, listed against the order of their
    names. *)
Definition twoSteady : list Generate.Job := [steadyJob "b"; steadyJob "a"].

(** The surroundings of a run: an environment with the given prompts, a
    machine of eight cores, no AI summary and no MCP server. *)
Definition demoEnvironment : Summary.EnvironmentInfo :=
  {| Summary.env_id := "demo";
     Summary.env_displayName := "Demo";
     Summary.fullStackFramework :=
       {| Summary.framework_id := "next";
          Summary.framework_displayName := "Next.js" |};
     Summary.clientSideFramework :=
       {| Summary.framework_id := "react";
          Summary.framework_displayName := "React" |};
     Summary.env_ratingHash := "sha256:demo" |}.

Definition localExecutor : Summary.ExecutorInfo :=
  {| Summary.executor_id := "ai-sdk"; Summary.executor_displayName := "AI SDK" |}.

Definition answer : Summary.ChatResponse :=
  {| Summary.responseHtml := "<p>Nothing.</p>";
     Summary.usage := {| inputTokens := 10; outputTokens := 2;
                         thinkingTokens := 0; totalTokens := 12 |} |}.

Definition setup (prompts : list Generate.Job) : Generate.RunSetup :=
  {| Generate.opt_model := "gemini-2.5-pro";
     Generate.localMode := false;
     Generate.limit := 5;
     Generate.enableUserJourneyTesting := false;
     Generate.skipAiSummary := true;
     Generate.startMcp := false;
     Generate.getEnvironment := Ok demoEnvironment;
     Generate.assertValidModelName := Ok ();
     Generate.executablePrompts := Ok prompts;
     Generate.envDir := None;
     Generate.getRunnerByName := Ok ();
     Generate.localExecutor := true;
     Generate.hasStartMcpServerHost := true;
     Generate.startMcpServerHost := Ok ();
     Generate.availableParallelism := 8;
     Generate.collectMcpServerLogs := Ok ();
     Generate.classifyPrompts := false;
     Generate.systemPromptGeneration := Ok "You write apps.";
     Generate.systemPromptRepair := Ok "You repair apps.";
     Generate.summarizeReportWithAI := λ _, Ok answer;
     Generate.analyses := λ _, [];
     Generate.getExecutorInfo := Some (Ok localExecutor);
     Generate.getRunGroupId := Ok "group-1" |}.

Definition ownBasename (path : string) : string := path.

(** A random number generator that always answers one half. *)
Definition half : Candidates.UnitInterval :=
  {| Candidates.u_value := 1 # 2;
     Candidates.u_range :=
       conj (Qle_bool_imp_le 0 (1 # 2) eq_refl) (eq_refl : (1 # 2 < 1)%Q) |}.

Definition alwaysHalf (call : nat) : Candidates.UnitInterval := half.

(** Assessments that recorded no token usage. *)
Definition noRecordedUsage (assessment : AssessmentResult)
  : Summary.ScoredAssessment :=
  {| Summary.tokenUsage := None; Summary.attemptUsages := [] |}.

Definition demoSummary (stats : Generate.CompletionStats)
  : Summary.RunSummary Generate.CompletionStats :=
  {| Summary.summary_model := "gemini-2.5-pro";
     Summary.environmentId := "demo";
     Summary.summary_displayName := "Demo";
     Summary.framework :=
       ({| Summary.framework_id := "next";
           Summary.framework_displayName := "Next.js" |},
        {| Summary.framework_id := "react";
           Summary.framework_displayName := "React" |});
     Summary.aiSummary := None;
     Summary.additionalAiAnalysis := [];
     Summary.completionStats := stats;
     Summary.summary_usage := Summary.noUsage;
     Summary.runner := localExecutor;
     Summary.ratingHash := "sha256:demo" |}.

Definition infoOf (results : list AssessmentResult)
  (stats : Generate.CompletionStats) (labels : list string) : Generate.RunInfo :=
  {| Generate.group := "group-1";
     Generate.results := results;
     Generate.details_summary := demoSummary stats;
     Generate.details_systemPromptGeneration := "You write apps.";
     Generate.details_systemPromptRepair := "You repair apps.";
     Generate.details_labels := labels |}.

Definition twoPromptsInfo : Generate.RunInfo :=
  infoOf [result "a"]
    {| Generate.cs_allPromptsCount := 2;
       Generate.cs_failedPrompts :=
         [{| promptName := "b"; error := "TimeoutError: Evaluation timed out";
             stack := Some "at callWithTimeout" |}] |}
    ["nightly"; "ci"].

Definition twoSteadyInfo : Generate.RunInfo :=
  infoOf [result "a"; result "b"]
    {| Generate.cs_allPromptsCount := 2; Generate.cs_failedPrompts := [] |}
    ["nightly"; "ci"].

(** One job of a single prompt, parameterised by what the generation and
    the writing of the files do. *)
Definition todoApp : EvalTask.RootPromptDefinition :=
  {| EvalTask.root_name := "todo-app";
     EvalTask.root_kind := EvalTask.single;
     EvalTask.defsToExecute :=
       [{| EvalTask.p_name := "todo-app"; EvalTask.p_prompt := "Build it." |}] |}.

Definition generated : LlmGenerateFilesResponse :=
  {| files := [{| filePath := "app.ts"; code := "export {}" |}];
     reasoning := "none"; usage := None; toolLogs := None |}.

Definition job (generation : Result (option LlmGenerateFilesResponse))
  (writing : Result unit) : EvalTask.Collaborators :=
  {| EvalTask.setupProjectStructure := Ok ();
     EvalTask.getPrompts := λ _, Ok ("full", "system");
     EvalTask.resolveContextFiles := λ _, Ok [];
     EvalTask.generateInitialFiles := λ _, generation;
     EvalTask.writeResponseFiles := λ _ _, writing;
     EvalTask.generateUserJourneysForApp := λ _, Ok "journeys";
     EvalTask.attemptBuildAndTest := λ _ response,
       Ok (Some {| outputFiles := files response; buildResult := "success";
                   serveTestingResult := None; repairAttempts := 0;
                   axeRepairAttempts := 0; testResult := None;
                   testRepairAttempts := 0 |}, ["attempt"]);
     EvalTask.rateGeneratedCode := λ _ _, Ok "100";
     EvalTask.cleanupOutcome := λ _, Ok () |}.

Definition plainConfig : EvalTask.TaskConfig :=
  {| EvalTask.enableUserJourneyTesting := false;
     EvalTask.cujGenerationLlm_available := false |}.

Definition diskError : Thrown :=
  ErrorObj {| err_class := PlainError; err_name := "Error";
              err_message := "ENAMETOOLONG"; err_stack := None |}.

Definition providerError : Thrown :=
  ErrorObj {| err_class := PlainError; err_name := "Error";
              err_message := "503"; err_stack := None |}.

(** The error of the SDK for an answer without structured output. *)
Definition noOutputGenerated : Thrown :=
  ErrorObj {| err_class := PlainError; err_name := "AI_NoOutputGeneratedError";
              err_message := "No output generated."; err_stack := None |}.

Definition someUsage : AiSdk.SdkUsage :=
  {| AiSdk.sdk_inputTokens := Some 12; AiSdk.sdk_outputTokens := None;
     AiSdk.sdk_reasoningTokens := None; AiSdk.sdk_totalTokens := Some 12 |}.

(** An SDK whose answer holds no structured output, and one that answers
    with one file. *)
Definition silentSdk (request : AiSdk.ConstrainedRequest) : Result AiSdk.SdkResponse :=
  Ok {| AiSdk.sdk_reasoning := [];
        AiSdk.sdk_output := Throw noOutputGenerated;
        AiSdk.sdk_usage := someUsage |}.

Definition oneFileSdk (request : AiSdk.ConstrainedRequest) : Result AiSdk.SdkResponse :=
  Ok {| AiSdk.sdk_reasoning := ["Plan."; "Write."];
        AiSdk.sdk_output :=
          Ok {| AiSdk.output_outputFiles :=
                  [{| filePath := "app.ts"; code := "export {}" |}] |};
        AiSdk.sdk_usage := someUsage |}.

Definition filesRequest : AiSdk.GenerateFilesRequest :=
  {| AiSdk.context := {| AiSdk.executablePrompt := "Build it.";
                         AiSdk.systemInstructions := "You write apps." |};
     AiSdk.model := "gemini-2.5-pro" |}.

Definition oneRetry : Generate.AssessmentConfig :=
  {| Generate.concurrency := Generate.auto;
     Generate.promptTimeoutRetries := Some 1;
     Generate.labels := Some ["nightly"; "ci"; "nightly"];
     Generate.promptFilter := None |}.

End Scenarios.

(** ** More concrete inputs *)

Module MoreScenarios.
Import JS Shared Scenarios.

(** A catalog of prompts that are their own names. *)
Definition catalog : list string := ["todo-app"; "shop"; "todo-list"].

Definition ownName (prompt : string) : string := prompt.

(** The rating [a] under another name and kind. *)
Definition renamed : Environment.Rating :=
  {| Environment.kind := Environment.PER_FILE;
     Environment.category := Environment.HIGH_IMPACT;
     Environment.scoreReduction := "30%";
     Environment.name := "renamed";
     Environment.description := "another description";
     Environment.id := "a";
     Environment.groupingLabels := None |}.

(** Two ratings, the second of which is overridden. *)
Definition overridden : Environment.EnvironmentConfig :=
  {| Environment.configuredId := Some "demo";
     Environment.displayName := "demo";
     Environment.ratings := [rating "a" None; rating "b" None];
     Environment.ratingOverrides :=
       Some [("b", {| Environment.o_category := Some Environment.LOW_IMPACT;
                      Environment.o_scoreReduction := Some "10%";
                      Environment.o_groupingLabels := None |})];
     Environment.categoryOverrides := None;
     Environment.expectedRatingHash := None;
     Environment.analysisPrompts := None |}.

(** An environment with a generation prompt only, read from files that
    hold their own path, and an endpoint that is never reached. *)
Definition generationOnly : EnvironmentEdges.SystemPrompts :=
  {| EnvironmentEdges.generationSystemPrompt := "system.md";
     EnvironmentEdges.editingSystemPrompt := None |}.

Definition echoSystemPrompt (path : string) : Result string := Ok path.

Definition asIs (component : string) : string := component.

Definition offline (url : string) : Result EnvironmentEdges.FetchResponse :=
  Throw providerError.

(** A group with one local report of two checks. *)
Definition nightlyRun : @ReportServer.RunInfo string unit :=
  {| ReportServer.details := ();
     ReportServer.results :=
       [ {| ReportServer.own_id := None; ReportServer.assessment := "todo-app" |};
         {| ReportServer.own_id := None; ReportServer.assessment := "shop" |} ] |}.

Definition localReports : gmap string (@ReportServer.RunInfo string unit) :=
  {[ "nightly" := nightlyRun ]}.

Definition noLoader (groupId : string)
  : Result (option (list (@ReportServer.RunInfo string unit))) :=
  Ok (Some []).

Definition noMigration (run : @ReportServer.RunInfo string unit) : unit := ().

Definition fullScore (a : @ReportServer.AssessmentResultFromReportServer string)
  : Q := 100 # 1.

(** Two analysis prompts, one answered and one not. *)
Definition analysis (name : string) : Summary.AnalysisPrompt :=
  {| Summary.analysis_name := name;
     Summary.analysis_prompt := "What failed?";
     Summary.analysis_model := "gemini-2.5-flash" |}.

End MoreScenarios.


(** * Properties *)

(** ** Sorting, joining and sets *)

Module JSFacts.
Import JS.

Section sort_facts.
Context {A : Type} (comparefn : A → A → Z).

Local Abbreviation before := (λ a b : A, comparefn a b <= 0).

Lemma insert_Permutation x l : insert comparefn x l ≡ₚ x :: l.
Proof.
  induction l as [|y l IH]; simpl; [done|].
  destruct (comparefn x y <=? 0); [done|].
  rewrite IH. apply Permutation_swap.
Qed.

Lemma sort_Permutation l : sort comparefn l ≡ₚ l.
Proof.
  induction l as [|x l IH]; simpl; [done|].
  rewrite insert_Permutation. by f_equiv.
Qed.

Lemma elem_of_sort x l : x ∈ sort comparefn l ↔ x ∈ l.
Proof. by rewrite sort_Permutation. Qed.

(** Inserting leaves the elements of a class in place when the new element
    does not come after any member of its own class. *)
Lemma insert_filter (P : A → Prop) `{!∀ a, Decision (P a)} x l :
  (∀ y, P x → P y → comparefn x y <= 0) →
  filter P (insert comparefn x l) = filter P (x :: l).
Proof.
  intros Hclass. induction l as [|y l IH]; simpl; [done|].
  destruct (comparefn x y <=? 0) eqn:Hxy; [done|].
  apply Z.leb_gt in Hxy.
  rewrite filter_cons, IH, !filter_cons.
  destruct (decide (P y)) as [Hy|Hy]; [|done].
  destruct (decide (P x)) as [Hx|Hx]; [|done].
  specialize (Hclass y Hx Hy). lia.
Qed.

(** Stability: the elements of a class whose members never compare as
    greater than one another keep their relative order. *)
Lemma sort_filter (P : A → Prop) `{!∀ a, Decision (P a)} l :
  (∀ x y, P x → P y → comparefn x y <= 0) →
  filter P (sort comparefn l) = filter P l.
Proof.
  intros Hclass. induction l as [|x l IH]; simpl; [done|].
  rewrite insert_filter by eauto.
  by rewrite !filter_cons, IH.
Qed.

Context `{!Consistent comparefn}.

Lemma insert_StronglySorted x l :
  StronglySorted before l → StronglySorted before (insert comparefn x l).
Proof.
  induction 1 as [|y l Hl IH Hy]; simpl.
  - repeat constructor.
  - destruct (comparefn x y <=? 0) eqn:Hxy.
    + apply Z.leb_le in Hxy. constructor; [by constructor|].
      constructor; [done|].
      eapply Forall_impl; [exact Hy|]. intros z Hz. simpl in *.
      by eapply cmp_trans.
    + apply Z.leb_gt in Hxy. constructor; [done|].
      rewrite insert_Permutation. constructor; [|done].
      by apply cmp_total.
Qed.

Lemma sort_StronglySorted l : StronglySorted before (sort comparefn l).
Proof.
  induction l as [|x l IH]; simpl; [constructor|].
  by apply insert_StronglySorted.
Qed.

(** With a comparator that tells the elements at hand apart, the sorted
    array depends on the elements only, not on their order. *)
Lemma sort_Permutation_eq_strong l1 l2 :
  (∀ x y, x ∈ l1 → y ∈ l1 →
          comparefn x y <= 0 → comparefn y x <= 0 → x = y) →
  l1 ≡ₚ l2 → sort comparefn l1 = sort comparefn l2.
Proof.
  intros Hanti Hperm.
  apply (StronglySorted_unique_strong before).
  - intros x y Hx Hy Hxy Hyx.
    apply (proj1 (elem_of_sort _ _)) in Hx.
    apply (proj1 (elem_of_sort _ _)) in Hy.
    apply Hanti; [done| |done|done].
    eapply elem_of_Permutation_proper; [exact Hperm|exact Hy].
  - apply sort_StronglySorted.
  - apply sort_StronglySorted.
  - by rewrite !sort_Permutation.
Qed.

Lemma sort_Permutation_eq l1 l2 :
  (∀ x y, comparefn x y <= 0 → comparefn y x <= 0 → x = y) →
  l1 ≡ₚ l2 → sort comparefn l1 = sort comparefn l2.
Proof. intros Hanti. apply sort_Permutation_eq_strong. eauto. Qed.

End sort_facts.



(** *** The default comparator *)

Lemma compare_Lt_trans a b c :
  String.compare a b = Lt → String.compare b c = Lt → String.compare a c = Lt.
Proof.
  intros Hab Hbc. apply String_as_OT.cmp_lt.
  eapply String_as_OT.lt_trans; by apply String_as_OT.cmp_lt.
Qed.

Lemma compare_refl a : String.compare a a = Eq.
Proof. by apply String_as_OT.cmp_eq. Qed.

Lemma defaultCompare_le a b :
  defaultCompare a b <= 0 ↔ String.compare a b ≠ Gt.
Proof. unfold defaultCompare. destruct (String.compare a b); split; (done || lia). Qed.

#[export] Instance defaultCompare_consistent : Consistent defaultCompare.
Proof.
  split.
  - intros a. unfold defaultCompare. by rewrite compare_refl.
  - intros a b. unfold defaultCompare.
    rewrite (String.compare_antisym a b).
    destruct (String.compare b a); simpl; lia.
  - intros a b c. rewrite !defaultCompare_le. intros Hab Hbc Hac.
    destruct (String.compare a b) eqn:Eab; [| |done].
    + apply String.compare_eq_iff in Eab. by subst.
    + destruct (String.compare b c) eqn:Ebc; [| |done].
      * apply String.compare_eq_iff in Ebc. subst. congruence.
      * pose proof (compare_Lt_trans _ _ _ Eab Ebc). congruence.
Qed.

Lemma defaultCompare_antisym a b :
  defaultCompare a b <= 0 → defaultCompare b a <= 0 → a = b.
Proof.
  unfold defaultCompare. rewrite (String.compare_antisym a b).
  destruct (String.compare b a) eqn:E; simpl; try lia.
  intros _ _. symmetry. by apply String.compare_eq_iff.
Qed.

Lemma default_sort_Permutation_eq l1 l2 :
  l1 ≡ₚ l2 → sort defaultCompare l1 = sort defaultCompare l2.
Proof. apply sort_Permutation_eq; [apply _|apply defaultCompare_antisym]. Qed.

(** *** [Set] *)

Lemma Set_add_foldl_app s l :
  foldl Set_add s l = s ++ filter (λ y, y ∉ s) (keepFirstOccurrences l).
Proof.
  revert s. induction l as [|x l IH]; intros s; simpl.
  - by rewrite filter_nil, app_nil_r.
  - rewrite IH. unfold Set_add. rewrite filter_cons, list_filter_filter.
    destruct (decide (x ∈ s)) as [Hin|Hin].
    + destruct (decide (x ∉ s)); [done|]. f_equal.
      apply list_filter_iff. intros y. simpl.
      destruct (decide (y = x)) as [->|Hne]; tauto.
    + destruct (decide (x ∉ s)); [|done].
      rewrite <- app_assoc. simpl. do 2 f_equal.
      apply list_filter_iff. intros y.
      rewrite not_elem_of_app, list_elem_of_singleton. tauto.
Qed.

Lemma newSet_keepFirstOccurrences l :
  newSet (Some l) = keepFirstOccurrences l.
Proof.
  unfold newSet. simpl. rewrite Set_add_foldl_app. simpl.
  induction (keepFirstOccurrences l) as [|y k IH]; [done|].
  rewrite filter_cons_True by apply not_elem_of_nil. by rewrite IH.
Qed.

Lemma elem_of_keepFirstOccurrences x l :
  x ∈ keepFirstOccurrences l ↔ x ∈ l.
Proof.
  induction l as [|y l IH]; simpl; [done|].
  rewrite !elem_of_cons, list_elem_of_filter, IH.
  destruct (decide (x = y)); tauto.
Qed.

Lemma NoDup_keepFirstOccurrences l : NoDup (keepFirstOccurrences l).
Proof.
  induction l as [|y l IH]; simpl; [constructor|].
  constructor.
  - rewrite list_elem_of_filter. by intros [Hne _].
  - by apply NoDup_filter.
Qed.

End JSFacts.

(** ** The rating hash *)

Module HashFacts.
Import JS JSFacts Environment.

Lemma existsb_Permutation {A} (f : A → bool) l1 l2 :
  l1 ≡ₚ l2 → existsb f l1 = existsb f l2.
Proof.
  induction 1 as [|x l1 l2 _ IH|x y l|l1 l2 l3 _ IH1 _ IH2]; simpl.
  - done.
  - by rewrite IH.
  - by destruct (f x), (f y).
  - congruence.
Qed.

Lemma checkOverrideIds_Permutation keys rs1 rs2 :
  rs1 ≡ₚ rs2 → checkOverrideIds keys rs1 = checkOverrideIds keys rs2.
Proof.
  intros Hperm. induction keys as [|key keys IH]; simpl; [done|].
  rewrite (existsb_Permutation _ rs1 rs2 Hperm), IH. done.
Qed.

Lemma ratingHashInput_Permutation rs1 rs2 categories :
  rs1 ≡ₚ rs2 → ratingHashInput rs1 categories = ratingHashInput rs2 categories.
Proof.
  intros Hperm. unfold ratingHashInput. f_equal.
  apply default_sort_Permutation_eq. by apply fmap_Permutation.
Qed.

(** Reordering the configured ratings reorders the resolved ones, and
    does not change whether, or with what, the resolution fails. *)
Lemma resolveRatings_Permutation config ratings' :
  ratings' ≡ₚ ratings config →
  match resolveRatings config with
  | Ok resolved =>
      ∃ resolved', resolveRatings (withRatings config ratings') = Ok resolved'
                   ∧ resolved' ≡ₚ resolved
  | Throw e => resolveRatings (withRatings config ratings') = Throw e
  end.
Proof.
  intros Hperm. unfold resolveRatings. simpl.
  destruct (ratingOverrides config) as [overrides|]; [|by eexists].
  rewrite (checkOverrideIds_Permutation _ _ _ Hperm).
  destruct (checkOverrideIds _ (ratings config)); simpl; [|done].
  eexists. split; [done|]. by apply fmap_Permutation.
Qed.

(** C3. The rating hash does not depend on the order of the ratings: for
    any reordering of the [ratings] array, [getRatingHash] returns the same
    digest, and the construction of the environment either succeeds with
    the same [ratingHash] or fails with the same error. *)
Theorem ratingHash_order_independent
  (getSha256Hash : string → string) (generateId : string → option string)
  (renderAnalysisPrompt : string → Result string)
  (DEFAULT_SUMMARY_MODEL : string) (config : EnvironmentConfig)
  (ratings' : list Rating) :
  ratings' ≡ₚ ratings config →
  (∀ categories,
     getRatingHash getSha256Hash ratings' categories =
     getRatingHash getSha256Hash (ratings config) categories) ∧
  match newEnvironment getSha256Hash generateId renderAnalysisPrompt
          DEFAULT_SUMMARY_MODEL config,
        newEnvironment getSha256Hash generateId renderAnalysisPrompt
          DEFAULT_SUMMARY_MODEL (withRatings config ratings') with
  | Ok env, Ok env' => ratingHash env' = ratingHash env
  | Throw e, Throw e' => e' = e
  | _, _ => False
  end.
Proof.
  intros Hperm. split.
  - intros categories. unfold getRatingHash.
    by rewrite (ratingHashInput_Permutation _ _ _ Hperm).
  - pose proof (resolveRatings_Permutation config ratings' Hperm) as Hres.
    unfold newEnvironment.
    change (idOrGenerated generateId (withRatings config ratings'))
      with (idOrGenerated generateId config).
    change (getRatingCategories (withRatings config ratings'))
      with (getRatingCategories config).
    change (resolveAnalysisPrompts renderAnalysisPrompt DEFAULT_SUMMARY_MODEL
              (withRatings config ratings'))
      with (resolveAnalysisPrompts renderAnalysisPrompt DEFAULT_SUMMARY_MODEL
              config).
    destruct (idOrGenerated generateId config) as [this_id|e]; simpl; [|done].
    destruct (resolveRatings config) as [resolved|e]; simpl.
    + destruct Hres as (resolved' & -> & Hperm'). simpl.
      unfold getRatingHash.
      rewrite (ratingHashInput_Permutation _ _ _ Hperm').
      destruct (resolveAnalysisPrompts _ _ config) as [prompts|e]; simpl;
        [|done].
      unfold validateRatingHash. simpl.
      destruct (expectedRatingHash config) as [expected|]; simpl; [|done].
      by destruct (truthy expected && _).
    + by rewrite Hres.
Qed.

End HashFacts.

Module HashExamples.
Import JS JSFacts Environment Scenarios HashFacts.

Lemma ratingHash_order_independent_witness :
  [rating "b" None; rating "a" None] ≡ₚ
    ratings (config [rating "a" None; rating "b" None] None)
  ∧ getRatingHash tagDigest [rating "b" None; rating "a" None] defaultCategories
    = getRatingHash tagDigest [rating "a" None; rating "b" None] defaultCategories.
Proof.
  split.
  - apply perm_swap.
  - apply (ratingHash_order_independent tagDigest nameAsId echoAnalysisPrompt
             summaryModel
             (config [rating "a" None; rating "b" None] None)
             [rating "b" None; rating "a" None]).
    apply perm_swap.
Defined.

(** C4. The canonical string of a rating holds its grouping labels in
    the order in which the configuration lists them, not in sorted order:
    two configurations that differ only in the order of one rating's
    labels hash different inputs. *)
Theorem groupingLabels_keep_configured_order :
  ratingPart defaultCategories (rating "a11y" (Some ["b"; "a"]))
    = "high-impact;60;a11y;30%;b,a"
  ∧ ratingPart defaultCategories (rating "a11y" (Some ["a"; "b"]))
    = "high-impact;60;a11y;30%;a,b"
  ∧ (∀ getSha256Hash,
       getRatingHash getSha256Hash [rating "a11y" (Some ["b"; "a"])] defaultCategories
         = getSha256Hash "high-impact;60;a11y;30%;b,a"
       ∧ getRatingHash getSha256Hash [rating "a11y" (Some ["a"; "b"])] defaultCategories
         = getSha256Hash "high-impact;60;a11y;30%;a,b")
  ∧ getRatingHash tagDigest [rating "a11y" (Some ["b"; "a"])] defaultCategories
    ≠ getRatingHash tagDigest [rating "a11y" (Some ["a"; "b"])] defaultCategories.
Proof. repeat split; done. Qed.

End HashExamples.

(** ** Validation of the expected hash *)

Module ValidationFacts.
Import JS JSFacts Environment Scenarios.

Lemma truthy_true s : truthy s = true ↔ s ≠ EmptyString.
Proof. unfold truthy. by rewrite bool_decide_eq_true. Qed.

Lemma append_assoc (a b c : string) : (a +:+ b) +:+ c = a +:+ (b +:+ c).
Proof.
  induction a as [|x a IH]; [done|].
  change (String x ((a +:+ b) +:+ c) = String x (a +:+ (b +:+ c))).
  by rewrite IH.
Qed.

(** C5, as the specification states it, fails for an expected hash that
    is declared as the empty string: the guard tests the field for
    truthiness, so the comparison is skipped and the construction
    succeeds although the two hashes differ. *)
Lemma empty_expectedRatingHash_is_accepted :
  ¬ (∀ (getSha256Hash : string → string) (generateId : string → option string)
       (renderAnalysisPrompt : string → Result string)
       (DEFAULT_SUMMARY_MODEL : string) (config : EnvironmentConfig)
       (resolved : list Rating) (expected : string),
       resolveRatings config = Ok resolved →
       expectedRatingHash config = Some expected →
       expected ≠ getRatingHash getSha256Hash resolved (getRatingCategories config) →
       ∃ e, newEnvironment getSha256Hash generateId renderAnalysisPrompt
              DEFAULT_SUMMARY_MODEL config = Throw e).
Proof.
  intros Hclaim.
  destruct (Hclaim tagDigest nameAsId echoAnalysisPrompt summaryModel
              (config [rating "a" None] (Some EmptyString))
              [rating "a" None] EmptyString) as [e He]; done.
Qed.

(** C5, amended. When the configuration declares a non-empty expected
    hash that differs from the computed one, the construction fails.
    When moreover the identifier of the environment resolves and its
    analysis prompts render, which the constructor does before it
    validates the hash, the failure is a user-facing error whose message
    holds the line [Expected: <expected>] followed by the line
    [Actual: <computed>]. *)
Theorem mismatching_expectedRatingHash_is_rejected
  (getSha256Hash : string → string) (generateId : string → option string)
  (renderAnalysisPrompt : string → Result string)
  (DEFAULT_SUMMARY_MODEL : string) (config : EnvironmentConfig)
  (resolved : list Rating) (expected : string) :
  resolveRatings config = Ok resolved →
  expectedRatingHash config = Some expected →
  expected ≠ EmptyString →
  expected ≠ getRatingHash getSha256Hash resolved (getRatingCategories config) →
  (∃ e, newEnvironment getSha256Hash generateId renderAnalysisPrompt
          DEFAULT_SUMMARY_MODEL config = Throw e)
  ∧ ∀ id prompts,
      idOrGenerated generateId config = Ok id →
      resolveAnalysisPrompts renderAnalysisPrompt DEFAULT_SUMMARY_MODEL config
        = Ok prompts →
      ∃ message before after,
        newEnvironment getSha256Hash generateId renderAnalysisPrompt
          DEFAULT_SUMMARY_MODEL config = Throw (newUserFacingError message)
        ∧ message =
            before +:+ "Expected: " +:+ expected +:+ LF +:+
            "Actual: " +:+
            getRatingHash getSha256Hash resolved (getRatingCategories config) +:+
            after.
Proof.
  intros Hres Hexp Hne Hdiff.
  assert (validateRatingHash (displayName config)
            (getRatingHash getSha256Hash resolved (getRatingCategories config))
            (getRatingHash getSha256Hash resolved (getRatingCategories config))
            config
          = Throw (newUserFacingError
              (("Rating hash for environment " +:+ DQ +:+ displayName config +:+
                DQ +:+ " does not match the expectation." +:+ LF) +:+
               "Expected: " +:+ expected +:+ LF +:+ "Actual: " +:+
               getRatingHash getSha256Hash resolved (getRatingCategories config) +:+
               (LF +:+ "Either update the `expectedRatingHash` field in the config or revert the ratings back to their previous configuration"))))
    as Hvalidate.
  { unfold validateRatingHash. rewrite Hexp.
    replace (truthy expected) with true by (symmetry; by apply truthy_true).
    rewrite bool_decide_eq_true_2 by done. cbv iota. simpl andb. cbv iota.
    do 2 f_equal. unfold join. rewrite !append_assoc. reflexivity. }
  unfold newEnvironment. rewrite Hres. split.
  - destruct (idOrGenerated generateId config) as [id|e]; simpl;
      [|by eexists].
    destruct (resolveAnalysisPrompts _ _ config) as [prompts|e]; simpl;
      [|by eexists].
    rewrite Hvalidate. by eexists.
  - intros id prompts -> ->. simpl. rewrite Hvalidate. simpl.
    by eexists _, _, _.
Qed.

Lemma mismatching_expectedRatingHash_is_rejected_witness :
  expectedRatingHash (config [rating "a" None] (Some "sha256:stale"))
    = Some "sha256:stale"
  ∧ ∃ message,
      newEnvironment tagDigest nameAsId echoAnalysisPrompt summaryModel
        (config [rating "a" None] (Some "sha256:stale"))
        = Throw (newUserFacingError message).
Proof.
  split; [reflexivity|].
  destruct (mismatching_expectedRatingHash_is_rejected tagDigest nameAsId
              echoAnalysisPrompt summaryModel
              (config [rating "a" None] (Some "sha256:stale"))
              [rating "a" None] "sha256:stale")
    as [_ Hmessage]; [done..|].
  destruct (Hmessage "demo"
              [{| a_name := "failures"; a_prompt := "prompts/failures.md";
                  a_model := summaryModel;
                  reportsFilter := NonPerfectReports;
                  ratingsFilter := NonPerfectRatings |}])
    as (message & before & after & Hthrow & _); [done..|].
  by exists message.
Defined.

End ValidationFacts.

(** ** Multi-step prompts *)

Module StepFacts.
Import JS JSFacts Environment.

#[export] Instance byStepNumber_consistent : Consistent byStepNumber.
Proof.
  split; unfold byStepNumber.
  - intros a. destruct (stepNumber a); simpl; lia.
  - intros a b. destruct (stepNumber a), (stepNumber b); simpl; lia.
  - intros a b c.
    destruct (stepNumber a), (stepNumber b), (stepNumber c); simpl; lia.
Qed.




Lemma Number_eqb_eq x y : Number_eqb x y = true ↔ x = y.
Proof.
  destruct x as [a|], y as [b|]; simpl; try done.
  rewrite Z.eqb_eq. split; [by intros ->|by intros [= ->]].
Qed.

Lemma Number_eqb_neq x y : Number_eqb x y = false ↔ x ≠ y.
Proof.
  rewrite <- Number_eqb_eq. by destruct (Number_eqb x y).
Qed.

Section step_facts.
Variable resolve : string → string → string.
Variable basename : string → string.
Variable pathJoin : string → string → string.
Variable renderEnvironmentPrompt : string → string * list string.
Variable name : string.
Variable def : MultiStepPrompt.
Variable envRatings : list Rating.

Local Abbreviation stepOf :=
  (stepOfEntry pathJoin renderEnvironmentPrompt name def envRatings).
Local Abbreviation iteration :=
  (stepIteration pathJoin renderEnvironmentPrompt name def envRatings).
Local Abbreviation loop :=
  (stepsLoop pathJoin renderEnvironmentPrompt name def envRatings).

Local Abbreviation stepKey := (Environment.stepKey name).
Local Abbreviation record := (Environment.recordStep name).

Lemma p_name_getSinglePromptDefinition n path rs isEditing meta :
  p_name (getSinglePromptDefinition renderEnvironmentPrompt n path rs isEditing meta) = n.
Proof.
  unfold getSinglePromptDefinition.
  by destruct (renderEnvironmentPrompt path).
Qed.



(** One iteration succeeds exactly on an accepted entry, and then appends
    the step of that entry and records its number under its name. *)
Lemma iteration_accepted entry st :
  acceptedEntry entry →
  iteration entry st =
    Ok {| st_steps := st_steps st ++ [stepOf entry];
          st_stepValues := record (st_stepValues st) entry |}.
Proof.
  intros (Hfile & [digits Hmatch] & Hnonzero).
  unfold stepIteration, stepOfEntry, recordStep, Environment.stepKey, stepNumber in *.
  rewrite Hfile, Hmatch in *. simpl.
  destruct (Number_eqb (parseInt digits) (Integral 0)) eqn:Hzero;
    [apply Number_eqb_eq in Hzero; done|].
  by rewrite p_name_getSinglePromptDefinition.
Qed.

Lemma iteration_Ok_accepted entry st st' :
  iteration entry st = Ok st' → acceptedEntry entry.
Proof.
  unfold stepIteration, acceptedEntry, stepNumber.
  destruct (d_isFile entry); simpl; [|done].
  destruct (matchStep (d_name entry)) as [digits|]; [|done].
  destruct (Number_eqb (parseInt digits) (Integral 0)) eqn:Hzero; [done|].
  apply Number_eqb_neq in Hzero. eauto.
Qed.

Lemma loop_accepted entities st :
  Forall acceptedEntry entities →
  loop entities st =
    Ok {| st_steps := st_steps st ++ (stepOf <$> entities);
          st_stepValues := foldl record (st_stepValues st) entities |}.
Proof.
  intros Hall. revert st.
  induction Hall as [|entry entities Hentry _ IH]; intros st; simpl.
  - rewrite app_nil_r. by destruct st.
  - rewrite iteration_accepted by done. simpl.
    rewrite IH. simpl. by rewrite <- app_assoc.
Qed.

Lemma loop_Ok_accepted entities st st' :
  loop entities st = Ok st' → Forall acceptedEntry entities.
Proof.
  revert st. induction entities as [|entry entities IH]; intros st; simpl.
  - constructor.
  - destruct (iteration entry st) as [st1|e] eqn:Hiter; simpl; [|done].
    intros Hloop. constructor; [by eapply iteration_Ok_accepted|by eapply IH].
Qed.










End step_facts.


(** Only such directories resolve. *)
Lemma resolved_entries_accepted
  (resolve : string → string → string) (basename : string → string)
  (pathJoin : string → string → string)
  (renderEnvironmentPrompt : string → string * list string)
  (rootPath : string) (rootIsDirectory : bool) (entities : list Dirent)
  (def : MultiStepPrompt) (envRatings : list Rating)
  (resolved : MultiStepPromptDefinition) :
  getMultiStepPrompt resolve basename pathJoin renderEnvironmentPrompt
    rootPath rootIsDirectory entities def envRatings = Ok resolved →
  rootIsDirectory = true ∧ entities ≠ [] ∧ Forall acceptedEntry entities.
Proof.
  unfold getMultiStepPrompt.
  destruct rootIsDirectory; simpl; [|done].
  destruct entities as [|entry entities]; [done|]. simpl length. cbn [Nat.eqb].
  destruct (stepsLoop _ _ _ _ _ _ _) as [st|e] eqn:Hloop; simpl; [|done].
  intros _. split; [done|]. split; [done|].
  by eapply loop_Ok_accepted.
Qed.

End StepFacts.

(** ** Pool sizes *)

Module PoolFacts.
Import JS Generate.

Lemma floor_eight_tenths p : Qfloor (inject_Z p * 0.8) = 4 * p / 5.
Proof.
  rewrite Zdiv_Qdiv. apply Qfloor_comp.
  unfold Qeq, Qmult, Qdiv, Qinv, inject_Z. cbn -[Z.mul]. lia.
Qed.

Lemma floor_half p : Qfloor (inject_Z p * 0.5) = p / 2.
Proof.
  rewrite Zdiv_Qdiv. apply Qfloor_comp.
  unfold Qeq, Qmult, Qdiv, Qinv, inject_Z. cbn -[Z.mul]. lia.
Qed.

Lemma pqStep_concurrency q ev : pq_concurrency (pqStep q ev) = pq_concurrency q.
Proof.
  destruct ev; simpl.
  - by destruct (hasRoom q).
  - destruct (active q); [done|]. destruct (waiting q); [done|].
    by destruct (hasRoom _).
Qed.

Lemma pqStep_withinCapacity q ev : withinCapacity q → withinCapacity (pqStep q ev).
Proof.
  unfold withinCapacity. rewrite pqStep_concurrency.
  destruct (pq_concurrency q) as [n|] eqn:Hsize; [|done].
  intros Hcap. destruct ev; simpl.
  - unfold hasRoom. rewrite Hsize.
    destruct (Z.of_nat (active q) <? n) eqn:Hroom; simpl; [|done].
    apply Z.ltb_lt in Hroom. lia.
  - destruct (active q) as [|running] eqn:Hactive; [by rewrite Hactive|].
    destruct (waiting q) as [|others]; simpl; [lia|].
    unfold hasRoom. simpl. rewrite Hsize.
    destruct (Z.of_nat running <? n) eqn:Hroom; simpl; lia.
Qed.

Lemma pqRun_withinCapacity q events : withinCapacity q → withinCapacity (pqRun q events).
Proof.
  unfold pqRun. revert q.
  induction events as [|ev events IH]; intros q Hcap; simpl; [done|].
  by apply IH, pqStep_withinCapacity.
Qed.

Lemma pqRun_concurrency q events : pq_concurrency (pqRun q events) = pq_concurrency q.
Proof.
  unfold pqRun. revert q.
  induction events as [|ev events IH]; intros q; simpl; [done|].
  by rewrite IH, pqStep_concurrency.
Qed.

(** C8. With automatic concurrency the job pool holds
    floor(availableParallelism * 0.8) tasks and the pool of heavy
    operations floor(outer * 0.5); with an explicit number the job pool
    holds that number and the pool of heavy operations is unbounded. For
    an outer size of 4 the automatic inner size is 2, and a pool of that
    size never has more than two operations admitted, whatever is added
    to it and whenever its tasks end. *)
Theorem pool_sizes (retries : option Z) (labels : option (list string))
  (promptFilter : option string) (availableParallelism n : Z)
  (events : list PQueueEvent) :
  let automatic := {| concurrency := auto; promptTimeoutRetries := retries;
                      Generate.labels := labels;
                      Generate.promptFilter := promptFilter |} in
  let explicit := {| concurrency := fixed n; promptTimeoutRetries := retries;
                     Generate.labels := labels;
                     Generate.promptFilter := promptFilter |} in
  let outer := appConcurrency automatic availableParallelism in
  outer = Qfloor (inject_Z availableParallelism * 0.8)
  ∧ outer = 4 * availableParallelism / 5
  ∧ workerConcurrency automatic outer = finite (Qfloor (inject_Z outer * 0.5))
  ∧ workerConcurrency automatic outer = finite (outer / 2)
  ∧ appConcurrency explicit availableParallelism = n
  ∧ workerConcurrency explicit n = Infinity
  ∧ workerConcurrency automatic 4 = finite 2
  ∧ (active (pqRun (newPQueue (workerConcurrency automatic 4)) events) <= 2)%nat.
Proof.
  intros automatic explicit outer.
  split; [done|]. split; [apply floor_eight_tenths|].
  split; [done|]. split; [unfold workerConcurrency; cbn [concurrency automatic]; by rewrite floor_half|].
  split; [done|]. split; [done|]. split; [done|].
  assert (workerConcurrency automatic 4 = finite 2) as -> by done.
  pose proof (pqRun_withinCapacity (newPQueue (finite 2)) events) as Hcap.
  unfold withinCapacity in Hcap. rewrite pqRun_concurrency in Hcap.
  cbn [newPQueue pq_concurrency active] in Hcap.
  specialize (Hcap ltac:(lia)). lia.
Qed.

(** Four jobs that reach their build stage together: two builds are
    admitted and two wait; when one ends, one of the waiting is let in. *)
Example four_builds_two_running :
  let pool := pqRun (newPQueue (finite 2)) [Add; Add; Add; Add] in
  active pool = 2%nat ∧ waiting pool = 2%nat
  ∧ active (pqStep pool Settle) = 2%nat ∧ waiting (pqStep pool Settle) = 1%nat.
Proof. done. Qed.

End PoolFacts.

(** ** String methods *)

Module StringFacts.
Import JS Strings.

Lemma startsWith_spec s p :
  startsWith s p = true ↔ ∃ rest, s = p +:+ rest.
Proof.
  revert s. induction p as [|a p IH]; intros s; simpl.
  - split; [by exists s|done].
  - destruct s as [|b s]; simpl.
    + split; [done|]. by intros [rest ?].
    + rewrite andb_true_iff, bool_decide_eq_true, IH. split.
      * intros [-> [rest ->]]. by exists rest.
      * intros [rest [= -> ->]]. split; [done|]. by exists rest.
Qed.

Lemma includes_spec s sub :
  includes s sub = true ↔ ∃ before after, s = before +:+ sub +:+ after.
Proof.
  induction s as [|c s IH]; simpl.
  - rewrite orb_false_r, startsWith_spec. split.
    + intros [rest ->]. by exists EmptyString, rest.
    + intros ([|c before] & after & Heq); [by exists after|done].
  - rewrite orb_true_iff, startsWith_spec, IH. split.
    + intros [[rest ->]|(before & after & ->)].
      * by exists EmptyString, rest.
      * by exists (String c before), after.
    + intros ([|c' before] & after & Heq).
      * left. by exists after.
      * right. injection Heq as -> ->. by exists before, after.
Qed.

End StringFacts.

(** ** The candidate prompts *)

Module CandidateFacts.
Import JS Strings StringFacts Candidates.

Section prompts.
Context {Prompt : Type} (name : Prompt → string).

Lemma swap_Permutation (items : list Prompt) i j : swap items i j ≡ₚ items.
Proof.
  unfold swap.
  destruct (items !! i) as [a|] eqn:Hi; [|done].
  destruct (items !! j) as [b|] eqn:Hj; [|done].
  by apply Permutation_insert_swap.
Qed.

Lemma shuffleFrom_Permutation random call i (items : list Prompt) :
  shuffleFrom random call i items ≡ₚ items.
Proof.
  revert call items. induction i as [|i IH]; intros call items; simpl; [done|].
  rewrite IH. apply swap_Permutation.
Qed.

(** X1. The shuffle rearranges the prompts: it neither drops nor repeats
    one, whatever the random numbers are. *)
Theorem shuffleArray_Permutation random (items : list Prompt) :
  shuffleArray random items ≡ₚ items.
Proof. apply shuffleFrom_Permutation. Qed.

(** A random number below 1 picks an index that is at most [i], so the
    two indices of every exchange lie inside the array. *)
Lemma random_index_bound (u : UnitInterval) (i : nat) :
  (Z.to_nat (Qfloor (u_value u * inject_Z (Z.of_nat i + 1))) <= i)%nat.
Proof.
  destruct u as [v [Hlow Hhigh]]. cbn [u_value].
  assert (Qfloor (v * inject_Z (Z.of_nat i + 1)) < Z.of_nat i + 1) as Hlt.
  { rewrite Zlt_Qlt. eapply Qle_lt_trans; [apply Qfloor_le|].
    rewrite <- (Qmult_1_l (inject_Z (Z.of_nat i + 1))) at 2.
    apply Qmult_lt_compat_r; [|done].
    rewrite <- (Zlt_Qlt 0). lia. }
  lia.
Qed.

Lemma swap_in_range (items : list Prompt) i j :
  (i < length items)%nat → (j <= i)%nat →
  ∃ a b, items !! i = Some a ∧ items !! j = Some b
         ∧ swap items i j = <[j := a]> (<[i := b]> items).
Proof.
  intros Hi Hj. unfold swap.
  destruct (lookup_lt_is_Some_2 items i Hi) as [a ->].
  destruct (lookup_lt_is_Some_2 items j ltac:(lia)) as [b ->].
  by exists a, b.
Qed.

Lemma slice0_submseteq (items : list Prompt) end_ : slice0 items end_ ⊆+ items.
Proof. apply submseteq_take. Qed.

Lemma candidates_submseteq basename random (prompts : list Prompt) localMode
  envDir promptFilter :
  getCandidateExecutablePrompts name basename random prompts localMode envDir
    promptFilter ⊆+ prompts.
Proof.
  unfold getCandidateExecutablePrompts.
  set (result := match localMode, envDir with
                 | true, Some _ => _ | _, _ => _ end).
  assert (result ⊆+ prompts) as Hresult.
  { subst result. destruct localMode, envDir; try done.
    apply sublist_submseteq, sublist_filter. }
  destruct promptFilter as [f|]; [destruct (truthy f)|].
  - etrans; [apply sublist_submseteq, sublist_filter|done].
  - by rewrite shuffleArray_Permutation.
  - by rewrite shuffleArray_Permutation.
Qed.

(** X2. With a prompt filter the candidates are the prompts whose name
    contains the filter as a substring, in the order of the catalog; no
    random number is consulted. *)
Theorem filtered_candidates_keep_catalog_order basename random
  (prompts : list Prompt) (promptFilter : string) :
  promptFilter ≠ EmptyString →
  let candidates :=
    getCandidateExecutablePrompts name basename random prompts false None
      (Some promptFilter) in
  candidates `sublist_of` prompts
  ∧ (∀ p, p ∈ candidates ↔
          p ∈ prompts ∧
          ∃ before after, name p = before +:+ promptFilter +:+ after)
  ∧ (∀ random',
       getCandidateExecutablePrompts name basename random' prompts false None
         (Some promptFilter) = candidates).
Proof.
  intros Hfilter candidates. subst candidates.
  unfold getCandidateExecutablePrompts.
  assert (truthy promptFilter = true) as ->.
  { unfold truthy. by apply bool_decide_eq_true. }
  split; [apply sublist_filter|]. split; [|done].
  intros p. rewrite list_elem_of_filter, includes_spec. tauto.
Qed.

(** X3. Without a prompt filter, and with a limit that is not negative, the
    prompts to process are drawn from the catalog without repetition, and
    there are as many of them as the limit allows. *)
Theorem limited_prompts_drawn_from_catalog basename random
  (prompts : list Prompt) localMode envDir promptFilter (limit : Z) :
  0 <= limit →
  let chosen :=
    promptsToProcess name basename random prompts localMode envDir
      promptFilter limit in
  chosen ⊆+ prompts
  ∧ (length chosen <= Z.to_nat limit)%nat
  ∧ (promptFilter = None → localMode = false →
     length chosen = (Z.to_nat limit `min` length prompts)%nat).
Proof.
  intros Hlimit chosen. subst chosen. unfold promptsToProcess.
  split; [etrans; [apply slice0_submseteq|apply candidates_submseteq]|].
  unfold slice0.
  destruct (Z.ltb_spec limit 0); [lia|].
  split.
  - rewrite length_take. lia.
  - intros -> ->. rewrite length_take.
    unfold getCandidateExecutablePrompts.
    rewrite (Permutation_length (shuffleArray_Permutation _ _)). lia.
Qed.

End prompts.

End CandidateFacts.

(** ** The summary of a run *)

Module SummaryFacts.
Import JS Shared Summary.

Lemma addUsage_noUsage (u : Usage) : addUsage noUsage u = u.
Proof. by destruct u. Qed.

Lemma addUsage_noUsage_r (u : Usage) : addUsage u noUsage = u.
Proof. destruct u. unfold addUsage. simpl. by rewrite !Z.add_0_r. Qed.

Lemma addUsage_assoc (a b c : Usage) :
  addUsage (addUsage a b) c = addUsage a (addUsage b c).
Proof. unfold addUsage. simpl. f_equal; lia. Qed.

Lemma addUsage_swap (a b c : Usage) :
  addUsage (addUsage a b) c = addUsage (addUsage a c) b.
Proof. unfold addUsage. simpl. f_equal; lia. Qed.

Lemma foldl_addUsage (counters : Usage) (usages : list Usage) :
  foldl addUsage counters usages = addUsage counters (totalUsage usages).
Proof.
  unfold totalUsage. revert counters.
  induction usages as [|u usages IH]; intros counters.
  { simpl. by rewrite addUsage_noUsage_r. }
  simpl. rewrite (IH (addUsage counters u)), (IH (addUsage noUsage u)).
  by rewrite addUsage_noUsage, addUsage_assoc.
Qed.

Lemma totalUsage_Permutation (usages1 usages2 : list Usage) :
  usages1 ≡ₚ usages2 → totalUsage usages1 = totalUsage usages2.
Proof.
  unfold totalUsage. generalize noUsage.
  intros counters Hperm. revert counters.
  induction Hperm as [|u l1 l2 _ IH|u v l|l1 l2 l3 _ IH1 _ IH2];
    intros counters; simpl.
  - done.
  - apply IH.
  - by rewrite addUsage_swap.
  - by rewrite IH1.
Qed.

Lemma totalUsage_app (usages1 usages2 : list Usage) :
  totalUsage (usages1 ++ usages2)
  = addUsage (totalUsage usages1) (totalUsage usages2).
Proof. unfold totalUsage at 1. by rewrite foldl_app, !foldl_addUsage, addUsage_noUsage. Qed.

Lemma foldl_addIfPresent (counters : Usage) (usages : list (option Usage)) :
  foldl addIfPresent counters usages
  = foldl addUsage counters (omap (λ u, u) usages).
Proof.
  revert counters. induction usages as [|[u|] usages IH]; intros counters;
    simpl; [done|apply IH..].
Qed.

Lemma foldl_countAssessment (counters : Usage)
  (assessments : list ScoredAssessment) :
  foldl countAssessment counters assessments
  = foldl addUsage counters (assessments ≫= assessmentUsages).
Proof.
  revert counters.
  induction assessments as [|result assessments IH]; intros counters; [done|].
  rewrite bind_cons, foldl_app. simpl. rewrite IH. f_equal.
  unfold countAssessment, assessmentUsages.
  rewrite foldl_addIfPresent. by destruct (tokenUsage result).
Qed.

(** The analyses that are pushed, and what the counters gain, when the
    chats of the analysis prompts have settled. *)
Lemma foldl_settleAnalysis (state : list AiAnalysis * Usage)
  (analyses : list (AnalysisPrompt * Result ChatResponse)) :
  foldl settleAnalysis state analyses
  = (state.1 ++ (foldl settleAnalysis ([], noUsage) analyses).1,
     foldl addUsage state.2 (usage <$> responses (snd <$> analyses))).
Proof.
  revert state. induction analyses as [|[config outcome] analyses IH];
    intros [pushed counters]; simpl.
  { by rewrite app_nil_r. }
  rewrite IH. rewrite (IH (settleAnalysis _ _)).
  unfold settleAnalysis. simpl. destruct outcome as [result|e]; simpl; [|done].
  by rewrite <-app_assoc.
Qed.

Lemma settled_names_Permutation
  (analyses1 analyses2 : list (AnalysisPrompt * Result ChatResponse))
  (state : list AiAnalysis * Usage) :
  analyses1 ≡ₚ analyses2 →
  (foldl settleAnalysis state analyses1).1
  ≡ₚ (foldl settleAnalysis state analyses2).1.
Proof.
  intros Hperm. revert state.
  induction Hperm as [|x l1 l2 _ IH|x y l|l1 l2 l3 _ IH1 _ IH2];
    intros state; simpl.
  - done.
  - apply IH.
  - rewrite (foldl_settleAnalysis (settleAnalysis (settleAnalysis state y) x)).
    rewrite (foldl_settleAnalysis (settleAnalysis (settleAnalysis state x) y)).
    simpl. apply Permutation_app; [|done].
    unfold settleAnalysis. destruct x as [cx [rx|ex]], y as [cy [ry|ey]]; simpl;
      try done.
    rewrite <-!app_assoc. apply Permutation_app; [done|]. simpl. apply perm_swap.
  - by rewrite IH1.
Qed.

Lemma settled_length (analyses : list (AnalysisPrompt * Result ChatResponse))
  (pushed : list AiAnalysis) (counters : Usage) :
  length (foldl settleAnalysis (pushed, counters) analyses).1
  = (length pushed + length (responses (snd <$> analyses)))%nat.
Proof.
  revert pushed counters.
  induction analyses as [|[config outcome] analyses IH]; intros pushed counters.
  { simpl. lia. }
  rewrite fmap_cons.
  change (foldl settleAnalysis (pushed, counters) ((config, outcome) :: analyses))
    with (foldl settleAnalysis
            (settleAnalysis (pushed, counters) (config, outcome)) analyses).
  destruct outcome as [result|e].
  - change (settleAnalysis (pushed, counters) (config, Ok result))
      with (pushed ++ [{| ai_name := analysis_name config;
                          ai_summary := responseHtml result |}],
            addUsage counters (usage result)).
    change (responses ((config, Ok result).2 :: analyses.*2))
      with (result :: responses (analyses.*2)).
    rewrite IH, length_app. simpl. lia.
  - change (settleAnalysis (pushed, counters) (config, Throw e))
      with (pushed, counters).
    change (responses ((config, @Throw ChatResponse e).2 :: analyses.*2))
      with (responses (analyses.*2)).
    apply IH.
Qed.

(** The summary passes the completion statistics along, and is produced
    whenever the executor reports its info. *)
Lemma prepareSummary_completionStats {CompletionStats : Type}
  (generateAiSummaryLlm : bool) (evalRunModel : string)
  (env : EnvironmentInfo) (assessments : list ScoredAssessment)
  (stats : CompletionStats)
  (summarizeReportWithAI : Result ChatResponse)
  (analyses : list (AnalysisPrompt * Result ChatResponse))
  (getExecutorInfo : option (Result ExecutorInfo))
  (summary : RunSummary CompletionStats) :
  prepareSummary generateAiSummaryLlm evalRunModel env assessments stats
    summarizeReportWithAI analyses getExecutorInfo = Ok summary →
  completionStats summary = stats.
Proof.
  unfold prepareSummary.
  destruct (if generateAiSummaryLlm then _ else _) as [aiSummary counters].
  destruct (if generateAiSummaryLlm && _ then _ else _)
    as [additional counters'].
  destruct getExecutorInfo as [[executorInfo|e]|]; simpl; [|done..].
  by intros [= <-].
Qed.

Lemma prepareSummary_returns {CompletionStats : Type}
  (generateAiSummaryLlm : bool) (evalRunModel : string)
  (env : EnvironmentInfo) (assessments : list ScoredAssessment)
  (stats : CompletionStats)
  (summarizeReportWithAI : Result ChatResponse)
  (analyses : list (AnalysisPrompt * Result ChatResponse))
  (executorInfo : ExecutorInfo) :
  ∃ summary,
    prepareSummary generateAiSummaryLlm evalRunModel env assessments stats
      summarizeReportWithAI analyses (Some (Ok executorInfo)) = Ok summary.
Proof.
  unfold prepareSummary.
  destruct (if generateAiSummaryLlm then _ else _) as [aiSummary counters].
  destruct (if generateAiSummaryLlm && _ then _ else _)
    as [additional counters'].
  simpl. by eexists.
Qed.

(** X27. A failing AI request never fails the summary: when the executor
    reports its info, [prepareSummary] returns, and the usage it reports
    is the usage recorded in the assessments plus the usage of exactly
    the AI requests that were answered; without a runner for the summary
    there is no AI summary and no additional analysis. *)
Theorem ai_failures_do_not_fail_the_summary {CompletionStats : Type}
  (generateAiSummaryLlm : bool) (evalRunModel : string)
  (env : EnvironmentInfo) (assessments : list ScoredAssessment)
  (completionStats : CompletionStats)
  (summarizeReportWithAI : Result ChatResponse)
  (analyses : list (AnalysisPrompt * Result ChatResponse))
  (executorInfo : ExecutorInfo) :
  ∃ summary,
    prepareSummary generateAiSummaryLlm evalRunModel env assessments
      completionStats summarizeReportWithAI analyses (Some (Ok executorInfo))
    = Ok summary
    ∧ summary_usage summary
      = totalUsage
          ((assessments ≫= assessmentUsages)
           ++ (usage <$> responses
                 (if generateAiSummaryLlm
                  then summarizeReportWithAI :: (snd <$> analyses) else [])))
    ∧ (if generateAiSummaryLlm then
         length (additionalAiAnalysis summary)
         = length (responses (snd <$> analyses))
       else aiSummary summary = None ∧ additionalAiAnalysis summary = []).
Proof.
  unfold prepareSummary. rewrite foldl_countAssessment, foldl_addUsage.
  rewrite addUsage_noUsage, totalUsage_app.
  destruct generateAiSummaryLlm; simpl.
  2: { eexists. split; [done|]. simpl. split; [|done].
       unfold totalUsage at 3. simpl. by rewrite addUsage_noUsage_r. }
  assert (∀ counters,
    (if bool_decide (0 < length analyses)%nat
     then foldl settleAnalysis ([], counters) analyses
     else ([], counters))
    = foldl settleAnalysis ([], counters) analyses) as Hsettle.
  { intros counters. case_bool_decide; [done|]. by destruct analyses; [|simpl in *; lia]. }
  pose proof (settled_length analyses) as Hlength.
  destruct summarizeReportWithAI as [result|e]; simpl;
    rewrite Hsettle, foldl_settleAnalysis; simpl;
    (eexists; split; [done|]); simpl;
    (split; [|by rewrite (Hlength [] noUsage)]).
  - rewrite foldl_addUsage.
    rewrite addUsage_assoc. f_equal.
    unfold totalUsage at 2. simpl. by rewrite foldl_addUsage, addUsage_noUsage.
  - by rewrite foldl_addUsage.
Qed.

(** X28. The chats of the analysis prompts run concurrently; the order in
    which they settle changes neither whether the summary is produced,
    nor the usage it reports, nor which analyses it holds, only the order
    of the analyses. *)
Theorem settling_order_changes_only_the_order {CompletionStats : Type}
  (generateAiSummaryLlm : bool) (evalRunModel : string)
  (env : EnvironmentInfo) (assessments : list ScoredAssessment)
  (completionStats : CompletionStats)
  (summarizeReportWithAI : Result ChatResponse)
  (analyses1 analyses2 : list (AnalysisPrompt * Result ChatResponse))
  (getExecutorInfo : option (Result ExecutorInfo)) :
  analyses1 ≡ₚ analyses2 →
  match
    prepareSummary generateAiSummaryLlm evalRunModel env assessments
      completionStats summarizeReportWithAI analyses1 getExecutorInfo,
    prepareSummary generateAiSummaryLlm evalRunModel env assessments
      completionStats summarizeReportWithAI analyses2 getExecutorInfo
  with
  | Ok summary1, Ok summary2 =>
      summary_usage summary1 = summary_usage summary2
      ∧ aiSummary summary1 = aiSummary summary2
      ∧ additionalAiAnalysis summary1 ≡ₚ additionalAiAnalysis summary2
  | Throw e1, Throw e2 => e1 = e2
  | _, _ => False
  end.
Proof.
  intros Hperm. unfold prepareSummary.
  assert (length analyses1 = length analyses2) as Hlength
    by by apply Permutation_length.
  rewrite Hlength.
  set (counters := foldl countAssessment noUsage assessments).
  destruct (if generateAiSummaryLlm then _ else _) as [summary counters'].
  assert (∀ state,
    (foldl settleAnalysis state analyses1).2
    = (foldl settleAnalysis state analyses2).2) as Husage.
  { intros state. rewrite (foldl_settleAnalysis state analyses1),
      (foldl_settleAnalysis state analyses2). simpl.
    rewrite !foldl_addUsage. f_equal. apply totalUsage_Permutation.
    unfold responses. by rewrite Hperm. }
  pose proof (settled_names_Permutation analyses1 analyses2 ([], counters') Hperm)
    as Hnames.
  specialize (Husage ([], counters')).
  destruct (generateAiSummaryLlm && bool_decide (0 < length analyses2)%nat).
  - destruct (foldl settleAnalysis ([], counters') analyses1) as [pushed1 c1].
    destruct (foldl settleAnalysis ([], counters') analyses2) as [pushed2 c2].
    simpl in *. subst c2.
    destruct getExecutorInfo as [[info|e]|]; simpl; done.
  - destruct getExecutorInfo as [[info|e]|]; simpl; done.
Qed.

End SummaryFacts.

(** ** Retries and the aggregation of results *)

Module RunFacts.
Import JS JSFacts Shared Generate.

Lemma concat_Permutation {A} (l1 l2 : list (list A)) :
  l1 ≡ₚ l2 → concat l1 ≡ₚ concat l2.
Proof.
  induction 1 as [|x l1 l2 _ IH|x y l|l1 l2 l3 _ IH1 _ IH2]; simpl.
  - done.
  - by rewrite IH.
  - rewrite !app_assoc. f_equiv. apply Permutation_app_comm.
  - by etrans.
Qed.

(** *** The loop over the attempts *)

Section attempts.
Variable job : Job.
Variable maxAttempts : Z.

Lemma attemptLoop_frame fuel attemptIdx failed :
  attemptLoop job maxAttempts fuel attemptIdx failed =
    (fst (attemptLoop job maxAttempts fuel attemptIdx []),
     failed ++ snd (attemptLoop job maxAttempts fuel attemptIdx [])).
Proof.
  revert attemptIdx. induction fuel as [|fuel IH]; intros attemptIdx; simpl.
  - by rewrite app_nil_r.
  - destruct (attemptIdx <? maxAttempts); [|by rewrite app_nil_r].
    destruct (evaluate _) as [promptResults|e]; simpl; [by rewrite app_nil_r|].
    destruct (instanceofTimeoutError e && _); [apply IH|done].
Qed.

(** Timeouts before the last attempt are passed over. *)
Lemma attemptLoop_skip failed n i fuel :
  (∀ j, (i <= j < i + n)%nat → timedOut job j) →
  Z.of_nat (i + n) < maxAttempts →
  attemptLoop job maxAttempts (n + fuel) (Z.of_nat i) failed =
    attemptLoop job maxAttempts fuel (Z.of_nat (i + n)) failed.
Proof.
  revert i. induction n as [|n IH]; intros i Htimeouts Hbound.
  - by rewrite Nat.add_0_r.
  - cbn [Nat.add attemptLoop].
    destruct (Z.ltb_spec (Z.of_nat i) maxAttempts); [|lia].
    rewrite Nat2Z.id.
    destruct (Htimeouts i ltac:(lia)) as (e & -> & ->).
    destruct (Z.ltb_spec (Z.of_nat i) (maxAttempts - 1)); [|lia].
    cbn [andb].
    replace (Z.of_nat i + 1) with (Z.of_nat (S i)) by lia.
    rewrite IH.
    + f_equal. lia.
    + intros j Hj. apply Htimeouts. lia.
    + lia.
Qed.

(** The fuel handed to the loop by [runPrompt] is never what stops it:
    any larger amount gives the same result. *)
Lemma attemptLoop_fuel failed fuel attemptIdx :
  0 <= attemptIdx →
  (Z.to_nat (maxAttempts - attemptIdx) <= fuel)%nat →
  attemptLoop job maxAttempts fuel attemptIdx failed =
    attemptLoop job maxAttempts (Z.to_nat (maxAttempts - attemptIdx))
      attemptIdx failed.
Proof.
  revert attemptIdx. induction fuel as [|fuel IH]; intros attemptIdx Hidx Hfuel.
  - by replace (Z.to_nat (maxAttempts - attemptIdx)) with 0%nat by lia.
  - destruct (Z.ltb_spec attemptIdx maxAttempts) as [Hlt|Hge].
    + replace (Z.to_nat (maxAttempts - attemptIdx))
        with (S (Z.to_nat (maxAttempts - (attemptIdx + 1)))) by lia.
      cbn [attemptLoop].
      destruct (attemptIdx <? maxAttempts); [|done].
      destruct (evaluate _) as [promptResults|e]; [done|].
      destruct (instanceofTimeoutError e && _); [|done].
      apply IH; lia.
    + replace (Z.to_nat (maxAttempts - attemptIdx)) with 0%nat by lia.
      cbn [attemptLoop].
      by destruct (Z.ltb_spec attemptIdx maxAttempts); [lia|].
Qed.

End attempts.

(** A prompt adds its own entries to [failedPrompts], whatever the array
    holds when it runs. *)
Lemma runPrompt_frame options job failed :
  runPrompt options job failed =
    (jobOutcome options job, failed ++ jobFailures options job).
Proof.
  unfold jobOutcome, jobFailures, runPrompt.
  rewrite attemptLoop_frame.
  by destruct (attemptLoop _ _ _ _ []) as [[promptResults|] entries].
Qed.

Section one_prompt.
Variable options : AssessmentConfig.
Variable retries : Z.
Hypothesis retries_configured : default 0 (promptTimeoutRetries options) = retries.
Hypothesis retries_nonnegative : 0 <= retries.

Lemma runPrompt_failsAt job failed k e :
  failsAt retries job k e →
  runPrompt options job failed = (Ok [], failed ++ [failureEntry job e]).
Proof.
  intros (Hk & Htimeouts & Hthrow & Hfinal).
  unfold runPrompt. rewrite retries_configured.
  replace (Z.to_nat (retries + 1))
    with (k + S (Z.to_nat retries - k))%nat by lia.
  change 0 with (Z.of_nat 0).
  rewrite attemptLoop_skip by (intros; try apply Htimeouts; lia).
  cbn [Nat.add attemptLoop].
  destruct (Z.ltb_spec (Z.of_nat k) (retries + 1)); [|lia].
  rewrite Nat2Z.id, Hthrow.
  destruct Hfinal as [->|Hlast]; [done|].
  destruct (Z.ltb_spec (Z.of_nat k) (retries + 1 - 1)); [lia|].
  by rewrite andb_false_r.
Qed.

Lemma runPrompt_succeedsAt job failed k promptResults :
  succeedsAt retries job k promptResults →
  runPrompt options job failed = (Ok promptResults, failed).
Proof.
  intros (Hk & Htimeouts & Hreturn).
  unfold runPrompt. rewrite retries_configured.
  replace (Z.to_nat (retries + 1))
    with (k + S (Z.to_nat retries - k))%nat by lia.
  change 0 with (Z.of_nat 0).
  rewrite attemptLoop_skip by (intros; try apply Htimeouts; lia).
  cbn [Nat.add attemptLoop].
  destruct (Z.ltb_spec (Z.of_nat k) (retries + 1)); [|lia].
  by rewrite Nat2Z.id, Hreturn.
Qed.

(** Every prompt ends in one of the two ways. *)
Lemma job_settles_from job k :
  (∀ j, (j < k)%nat → timedOut job j) → Z.of_nat k <= retries →
  (∃ k' e, failsAt retries job k' e) ∨
  (∃ k' promptResults, succeedsAt retries job k' promptResults).
Proof.
  remember (Z.to_nat retries - k)%nat as rest eqn:Hrest.
  revert k Hrest. induction rest as [|rest IH]; intros k Hrest Htimeouts Hk.
  - destruct (evaluate (attempts job k)) as [promptResults|e] eqn:Heval.
    + right. by exists k, promptResults.
    + left. exists k, e. repeat split; [done..|]. right. lia.
  - destruct (evaluate (attempts job k)) as [promptResults|e] eqn:Heval.
    + right. by exists k, promptResults.
    + destruct (instanceofTimeoutError e) eqn:Htimeout.
      * apply (IH (S k)); [lia| |lia].
        intros j Hj. destruct (decide (j = k)) as [->|Hne].
        -- by exists e.
        -- apply Htimeouts. lia.
      * left. exists k, e. repeat split; [done..|]. by left.
Qed.

Lemma job_settles job :
  (∃ k e, failsAt retries job k e) ∨
  (∃ k promptResults, succeedsAt retries job k promptResults).
Proof. apply (job_settles_from job 0); [intros j Hj|]; lia. Qed.

Lemma jobOutcome_Ok job : jobOutcome options job = Ok (jobResults options job).
Proof.
  unfold jobResults.
  destruct (job_settles job) as [(k & e & Hfail)|(k & promptResults & Hok)].
  - unfold jobOutcome. by rewrite (runPrompt_failsAt _ [] _ _ Hfail).
  - unfold jobOutcome. by rewrite (runPrompt_succeedsAt _ [] _ _ Hok).
Qed.

End one_prompt.

(** *** The tasks of a run *)

Section tasks.
Variable options : AssessmentConfig.
Variable jobs : list Job.

Lemma runTasks_snoc completionOrder i :
  runTasks options jobs (completionOrder ++ [i]) =
    completeTask options jobs (runTasks options jobs completionOrder) i.
Proof. unfold runTasks. by rewrite foldl_app. Qed.

Lemma runTasks_failedPrompts completionOrder :
  failedPrompts (runTasks options jobs completionOrder) =
    concat (failuresOf options jobs <$> completionOrder).
Proof.
  induction completionOrder as [|i completionOrder IH] using rev_ind; [done|].
  rewrite runTasks_snoc, fmap_app, concat_app. simpl. rewrite app_nil_r.
  unfold completeTask, failuresOf.
  destruct (jobs !! i) as [job|]; simpl; [|by rewrite app_nil_r].
  rewrite runPrompt_frame, IH.
  by destruct (jobOutcome options job).
Qed.

Lemma slotValue_snoc_ne completionOrder i k :
  k ≠ i →
  slotValue options jobs (completionOrder ++ [i]) k =
    slotValue options jobs completionOrder k.
Proof.
  intros Hne. unfold slotValue.
  destruct (decide (k ∈ completionOrder)) as [Hin|Hout].
  - rewrite decide_True; [done|]. apply elem_of_app. by left.
  - rewrite decide_False; [done|].
    rewrite elem_of_app, list_elem_of_singleton. tauto.
Qed.

Lemma slotValue_snoc_eq completionOrder i job :
  jobs !! i = Some job →
  slotValue options jobs (completionOrder ++ [i]) i =
    match jobOutcome options job with
    | Ok promptResults => Some promptResults
    | Throw _ => None
    end.
Proof.
  intros Hjob. unfold slotValue. rewrite decide_True.
  - by rewrite Hjob.
  - apply elem_of_app. right. by apply list_elem_of_singleton.
Qed.

Lemma slotValue_rejected completionOrder i job e :
  jobs !! i = Some job → jobOutcome options job = Throw e →
  slotValue options jobs completionOrder i = None.
Proof.
  intros Hjob Hout. unfold slotValue.
  destruct (decide _); [|done]. by rewrite Hjob; simpl; rewrite Hout.
Qed.

Lemma slotValue_unknown completionOrder i :
  jobs !! i = None → slotValue options jobs completionOrder i = None.
Proof.
  intros Hjob. unfold slotValue. destruct (decide _); [|done]. by rewrite Hjob.
Qed.

Lemma runTasks_slots completionOrder :
  slots (runTasks options jobs completionOrder) =
    slotValue options jobs completionOrder <$> seq 0 (length jobs).
Proof.
  induction completionOrder as [|i completionOrder IH] using rev_ind.
  - simpl. apply list_eq. intros k.
    rewrite list_lookup_fmap.
    destruct (decide (k < length jobs)%nat) as [Hlt|Hge].
    + rewrite lookup_replicate_2, lookup_seq_lt by done. simpl.
      unfold slotValue. by rewrite decide_False by apply not_elem_of_nil.
    + rewrite lookup_ge_None_2 by (rewrite length_replicate; lia).
      by rewrite lookup_seq_ge by lia.
  - rewrite runTasks_snoc. unfold completeTask.
    destruct (jobs !! i) as [job|] eqn:Hjob.
    + assert (i < length jobs)%nat as Hi by by eapply lookup_lt_Some.
      rewrite runPrompt_frame.
      destruct (jobOutcome options job) as [promptResults|e] eqn:Hout; simpl.
      * rewrite IH. apply list_eq. intros k.
        destruct (decide (k = i)) as [->|Hne].
        -- rewrite list_lookup_insert_eq by by rewrite length_fmap, length_seq.
           rewrite list_lookup_fmap, lookup_seq_lt by done. simpl.
           by rewrite (slotValue_snoc_eq _ _ job), Hout.
        -- rewrite list_lookup_insert_ne by done.
           rewrite !list_lookup_fmap.
           destruct (seq 0 (length jobs) !! k) as [k'|] eqn:Hk; [|done].
           apply lookup_seq in Hk as [-> _]. simpl.
           by rewrite slotValue_snoc_ne.
      * rewrite IH. apply list_fmap_ext. intros _ k _.
        destruct (decide (k = i)) as [->|Hne].
        -- rewrite (slotValue_snoc_eq _ _ job), Hout by done.
           by eapply slotValue_rejected.
        -- by rewrite slotValue_snoc_ne.
    + rewrite IH. apply list_fmap_ext. intros _ k _.
      destruct (decide (k = i)) as [->|Hne].
      * by rewrite !slotValue_unknown.
      * by rewrite slotValue_snoc_ne.
Qed.

(** When [Promise.all] fulfils, its value lists the results of the
    prompts in the order in which the prompts were submitted. *)
Lemma promiseAll_Ok completionOrder all :
  promiseAll (runTasks options jobs completionOrder) = Some (Ok all) →
  all = jobResults options <$> jobs.
Proof.
  unfold promiseAll.
  destruct (firstRejection _); [done|].
  destruct (mapM id _) as [all'|] eqn:Hall; [|done].
  intros [= <-]. apply mapM_Some in Hall. rewrite runTasks_slots in Hall.
  apply list_eq. intros k. rewrite list_lookup_fmap.
  destruct (jobs !! k) as [job|] eqn:Hjob; simpl.
  - assert (k < length jobs)%nat as Hk by by eapply lookup_lt_Some.
    destruct (Forall2_lookup_l _ _ _ k (slotValue options jobs completionOrder k) Hall)
      as (promptResults & -> & Hslot).
    { by rewrite list_lookup_fmap, lookup_seq_lt. }
    simpl in Hslot. f_equal. unfold slotValue in Hslot.
    destruct (decide _); [|done]. rewrite Hjob in Hslot. simpl in Hslot.
    unfold jobResults. by destruct (jobOutcome options job); simplify_eq.
  - apply lookup_ge_None. apply lookup_ge_None in Hjob.
    apply Forall2_length in Hall.
    rewrite length_fmap, length_seq in Hall. lia.
Qed.

Lemma runTasks_no_rejection completionOrder :
  (∀ job, jobOutcome options job = Ok (jobResults options job)) →
  firstRejection (runTasks options jobs completionOrder) = None.
Proof.
  intros Hok.
  induction completionOrder as [|i completionOrder IH] using rev_ind; [done|].
  rewrite runTasks_snoc. unfold completeTask.
  destruct (jobs !! i) as [job|]; [|done].
  by rewrite runPrompt_frame, Hok.
Qed.

Lemma promiseAll_fulfils completionOrder :
  (∀ job, jobOutcome options job = Ok (jobResults options job)) →
  completionOrder ≡ₚ seq 0 (length jobs) →
  promiseAll (runTasks options jobs completionOrder)
    = Some (Ok (jobResults options <$> jobs)).
Proof.
  intros Hok Hperm. unfold promiseAll.
  rewrite runTasks_no_rejection by done.
  rewrite (mapM_Some_2 id _ (jobResults options <$> jobs)); [done|].
  rewrite runTasks_slots. apply Forall2_same_length_lookup_2.
  { by rewrite !length_fmap, length_seq. }
  intros k slot promptResults.
  rewrite !list_lookup_fmap.
  destruct (seq 0 (length jobs) !! k) as [k'|] eqn:Hk; [|done].
  apply lookup_seq in Hk as [-> Hk]. simpl.
  destruct (jobs !! k) as [job|] eqn:Hjob; [|done]. simpl.
  intros [= <-] [= <-]. unfold slotValue.
  rewrite decide_True.
  - by rewrite Hjob; simpl; rewrite Hok.
  - rewrite Hperm. apply elem_of_seq. lia.
Qed.

Lemma failuresOf_seq :
  failuresOf options jobs <$> seq 0 (length jobs) = jobFailures options <$> jobs.
Proof.
  apply list_eq. intros k. rewrite !list_lookup_fmap.
  destruct (jobs !! k) as [job|] eqn:Hjob; simpl.
  - rewrite lookup_seq_lt by by eapply lookup_lt_Some. simpl.
    unfold failuresOf. by rewrite Hjob.
  - rewrite lookup_seq_ge; [done|]. by apply lookup_ge_None.
Qed.

End tasks.

(** *** The run as a whole *)

(** What a run that returns has gone through. *)
Lemma generateCodeAndAssess_Ok localeCompare basename random usageOf options c
  completionOrder info :
  generateCodeAndAssess localeCompare basename random usageOf options c
    completionOrder = Some (Ok info) →
  ∃ jobs all,
    promptsToProcess basename random options c = Ok jobs
    ∧ jobs ≠ []
    ∧ promiseAll (runTasks options jobs completionOrder) = Some (Ok all)
    ∧ results info = sort (byPromptName localeCompare) (concat all)
    ∧ allPromptsCount info = length jobs
    ∧ summary_failedPrompts info
      = failedPrompts (runTasks options jobs completionOrder)
    ∧ details_labels info = Array_from (newSet (labels options)).
Proof.
  unfold generateCodeAndAssess, awaiting.
  destruct (getEnvironment c) as [env|?]; [|done].
  destruct (assertValidModelName c) as [?|?]; [|done].
  destruct (promptsToProcess basename random options c) as [jobs|?]; [|done].
  destruct (if (_ : bool) then getRunnerByName c else _) as [?|?]; [|done].
  destruct (length jobs =? 0)%nat eqn:Hlen; [done|].
  destruct (if (_ : bool) then startMcpServerHost c else _) as [?|?]; [|done].
  destruct (PQueue_constructor (finite _)) as [?|?]; [|done].
  destruct (PQueue_constructor (workerConcurrency _ _)) as [?|?]; [|done].
  destruct (promiseAll _) as [[all|e]|] eqn:Hall; simpl; [|done..].
  destruct (if (_ : bool) then collectMcpServerLogs c else _) as [?|?]; [|done].
  destruct (Summary.prepareSummary _ _ _ _ _ _ _ _) as [summary|?] eqn:Hsummary;
    [|done].
  apply SummaryFacts.prepareSummary_completionStats in Hsummary.
  destruct (if classifyPrompts c then _ else systemPromptGeneration c)
    as [?|?]; [|done].
  destruct (if classifyPrompts c then _ else systemPromptRepair c)
    as [?|?]; [|done].
  destruct (getRunGroupId c) as [?|?]; [|done].
  intros [= <-]. exists jobs, all.
  unfold allPromptsCount, summary_failedPrompts. simpl. rewrite Hsummary.
  repeat split; try done.
  intros ->. done.
Qed.

(** Both pools can be constructed when the outer one holds a task, and
    two with automatic concurrency. *)
Lemma pools_constructed options outer :
  1 <= outer →
  (concurrency options = auto → 2 <= outer) →
  PQueue_constructor (finite outer) = Ok (newPQueue (finite outer))
  ∧ PQueue_constructor (workerConcurrency options outer)
    = Ok (newPQueue (workerConcurrency options outer)).
Proof.
  intros Houter Hinner. unfold PQueue_constructor, workerConcurrency.
  rewrite (proj2 (Z.leb_le 1 outer) Houter). split; [done|].
  destruct (concurrency options); [|done].
  rewrite PoolFacts.floor_half.
  specialize (Hinner eq_refl).
  assert (1 <= outer / 2) as Hhalf by (Z.div_mod_to_equations; lia).
  by rewrite (proj2 (Z.leb_le 1 _) Hhalf).
Qed.

(** When the surroundings return and there are prompts to process, the
    run returns as soon as [Promise.all] fulfils. *)
Lemma generateCodeAndAssess_returns localeCompare basename random usageOf
  options c completionOrder jobs all :
  surroundingsReturn options c →
  promptsToProcess basename random options c = Ok jobs →
  jobs ≠ [] →
  promiseAll (runTasks options jobs completionOrder) = Some (Ok all) →
  ∃ info,
    generateCodeAndAssess localeCompare basename random usageOf options c
      completionOrder = Some (Ok info).
Proof.
  intros ((Henv & Hmodel & Hrunner & Hstart & Hpool & Hworker) & Hcollect
          & Hexecutor & Hgeneration & Hrepair & Hgroup) Hjobs Hnonempty Hall.
  destruct Hgroup as [group Hgroup].
  destruct Henv as [env Henv]. destruct Hexecutor as [executorInfo Hexecutor].
  destruct Hgeneration as [generationPrompt Hgeneration].
  destruct Hrepair as [repairPrompt Hrepair].
  destruct (pools_constructed options _ Hpool Hworker) as [Houter Hinner].
  unfold generateCodeAndAssess, awaiting.
  rewrite Henv, Hmodel, Hjobs, Hrunner, Hstart, Hcollect, Hexecutor,
    Hgeneration, Hrepair, Hgroup, Houter, Hinner, Hall.
  assert ((length jobs =? 0)%nat = false) as ->.
  { apply Nat.eqb_neq. by destruct jobs. }
  simpl.
  destruct (SummaryFacts.prepareSummary_returns (negb (skipAiSummary c))
              (opt_model c) env
              (usageOf <$> sort (byPromptName localeCompare) (concat all))
              {| cs_allPromptsCount := length jobs;
                 cs_failedPrompts :=
                   failedPrompts (runTasks options jobs completionOrder) |}
              (summarizeReportWithAI c
                 (sort (byPromptName localeCompare) (concat all)))
              (analyses c (sort (byPromptName localeCompare) (concat all)))
              executorInfo) as [summary ->].
  destruct (_ || _ || _), (localExecutor c && startMcp c && hasStartMcpServerHost c),
    (localExecutor c && startMcp c), (classifyPrompts c); by eexists.
Qed.

(** Whatever the completion order, a run that returns holds the same
    array of results. *)
Lemma results_canonical localeCompare basename random usageOf options c
  completionOrder info jobs :
  generateCodeAndAssess localeCompare basename random usageOf options c
    completionOrder = Some (Ok info) →
  promptsToProcess basename random options c = Ok jobs →
  results info =
    sort (byPromptName localeCompare) (concat (jobResults options <$> jobs)).
Proof.
  intros (jobs' & all & Hjobs' & _ & Hall & -> & _)%generateCodeAndAssess_Ok
    Hjobs.
  assert (jobs' = jobs) as -> by congruence.
  by apply promiseAll_Ok in Hall as ->.
Qed.

Lemma byPromptName_consistent localeCompare :
  Consistent localeCompare → Consistent (byPromptName localeCompare).
Proof.
  intros Hconsistent. unfold byPromptName. split; intros.
  - apply cmp_refl.
  - by apply cmp_total.
  - by eapply cmp_trans.
Qed.

(** C7. The results of the run are the results of all prompts, sorted by
    prompt name with the comparator of [localeCompare]; results with the
    same name keep the order they have in the flattened array, that is the
    order in which their prompts were submitted. The order in which the
    tasks complete plays no part in it: any other completion order gives
    the same array. *)
Theorem results_sorted_by_prompt_name (localeCompare : string → string → Z)
  (basename : string → string) (random : nat → Candidates.UnitInterval)
  (usageOf : AssessmentResult → Summary.ScoredAssessment)
  (options : AssessmentConfig) (c : RunSetup) (jobs : list Job)
  (completionOrder : list nat) (info : RunInfo) :
  Consistent localeCompare →
  promptsToProcess basename random options c = Ok jobs →
  generateCodeAndAssess localeCompare basename random usageOf options c
    completionOrder = Some (Ok info) →
  StronglySorted
    (λ a b, localeCompare (name (promptDef a)) (name (promptDef b)) <= 0)
    (results info)
  ∧ results info ≡ₚ concat (jobResults options <$> jobs)
  ∧ (∀ promptName,
       filter (λ r, name (promptDef r) = promptName) (results info) =
       filter (λ r, name (promptDef r) = promptName)
              (concat (jobResults options <$> jobs)))
  ∧ (∀ completionOrder' info',
       generateCodeAndAssess localeCompare basename random usageOf options c
         completionOrder' = Some (Ok info') →
       results info' = results info).
Proof.
  intros Hconsistent Hjobs Hrun.
  pose proof (byPromptName_consistent _ Hconsistent) as Hby.
  rewrite (results_canonical _ _ _ _ _ _ _ _ _ Hrun Hjobs).
  split; [apply (sort_StronglySorted _ _)|].
  split; [apply sort_Permutation|].
  split.
  - intros promptName. apply sort_filter.
    intros x y Hx Hy. unfold byPromptName. rewrite Hx, Hy.
    by rewrite cmp_refl.
  - intros completionOrder' info' Hrun'.
    by rewrite (results_canonical _ _ _ _ _ _ _ _ _ Hrun' Hjobs).
Qed.

(** C1. A prompt whose evaluation times out is evaluated again, up to
    [promptTimeoutRetries] more times. When the last attempt allowed times
    out as well, or when an attempt fails with any other error, the prompt
    yields no results and adds exactly one entry to the failed prompts:
    the name of the prompt, the error as a string, and the stack of the
    error when it is an error object. Every prompt ends in one of these
    ways or returns. So, when there are prompts to process and everything
    that the run awaits around their evaluation returns, the pools
    included, the run returns: its results are those of all prompts, and
    its failed prompts hold the entries of the prompts that failed, one
    each. The number of retries is a natural number below 2^53, where
    the counting of the attempts is exact. *)
Theorem timeouts_retried_then_failure_recorded
  (localeCompare : string → string → Z)
  (basename : string → string) (random : nat → Candidates.UnitInterval)
  (usageOf : AssessmentResult → Summary.ScoredAssessment)
  (options : AssessmentConfig) (c : RunSetup) (jobs : list Job)
  (completionOrder : list nat) (retries : Z) :
  default 0 (promptTimeoutRetries options) = retries →
  0 <= retries < 2 ^ 53 →
  surroundingsReturn options c →
  promptsToProcess basename random options c = Ok jobs →
  jobs ≠ [] →
  completionOrder ≡ₚ seq 0 (length jobs) →
  (∀ job failed k promptResults,
     succeedsAt retries job k promptResults →
     runPrompt options job failed = (Ok promptResults, failed))
  ∧ (∀ job failed k e,
       failsAt retries job k e →
       runPrompt options job failed =
         (Ok [],
          failed ++ [{| promptName := rootPromptDef_name job;
                        error := render e;
                        stack := match e with
                                 | ErrorObj o => err_stack o
                                 | NonError _ => None
                                 end |}]))
  ∧ (∀ job,
       (∃ k e, failsAt retries job k e) ∨
       (∃ k promptResults, succeedsAt retries job k promptResults))
  ∧ ∃ info,
      generateCodeAndAssess localeCompare basename random usageOf options c
        completionOrder = Some (Ok info)
      ∧ results info ≡ₚ concat (jobResults options <$> jobs)
      ∧ summary_failedPrompts info ≡ₚ concat (jobFailures options <$> jobs)
      ∧ allPromptsCount info = length jobs
      ∧ (∀ job k e,
           failsAt retries job k e →
           jobResults options job = [] ∧
           jobFailures options job =
             [{| promptName := rootPromptDef_name job;
                 error := render e;
                 stack := match e with
                          | ErrorObj o => err_stack o
                          | NonError _ => None
                          end |}])
      ∧ (∀ job k promptResults,
           succeedsAt retries job k promptResults →
           jobResults options job = promptResults ∧
           jobFailures options job = []).
Proof.
  intros Hretries [Hnonneg _] Hsurroundings Hjobs Hnonempty Hperm.
  split; [intros; by eapply runPrompt_succeedsAt|].
  split; [intros; by eapply runPrompt_failsAt|].
  split; [intros; by eapply job_settles|].
  assert (promiseAll (runTasks options jobs completionOrder)
          = Some (Ok (jobResults options <$> jobs))) as Hall.
  { apply promiseAll_fulfils; [intros; by eapply jobOutcome_Ok|done]. }
  destruct (generateCodeAndAssess_returns localeCompare basename random usageOf
              options c completionOrder jobs _ Hsurroundings Hjobs Hnonempty
              Hall) as [info Hrun].
  exists info. split; [done|].
  destruct (generateCodeAndAssess_Ok _ _ _ _ _ _ _ _ Hrun)
    as (jobs' & all & Hjobs' & _ & Hall' & Hresults & Hcount & Hfailed & _).
  assert (jobs' = jobs) as -> by congruence.
  assert (all = jobResults options <$> jobs) as -> by congruence.
  rewrite Hresults, Hfailed, Hcount.
  split; [apply sort_Permutation|].
  split.
  { rewrite runTasks_failedPrompts, <- failuresOf_seq.
    by apply concat_Permutation, fmap_Permutation. }
  split; [done|].
  split.
  - intros job k e Hfail. unfold jobResults, jobOutcome, jobFailures.
    by rewrite (runPrompt_failsAt _ _ Hretries Hnonneg _ [] _ _ Hfail).
  - intros job k promptResults Hok. unfold jobResults, jobOutcome, jobFailures.
    by rewrite (runPrompt_succeedsAt _ _ Hretries Hnonneg _ [] _ _ Hok).
Qed.

End RunFacts.

(** ** Labels *)

Module LabelFacts.
Import JS JSFacts Shared Generate.

(** C9. The labels of the run are the configured labels with every label
    kept where it first occurs and dropped where it occurs again: no label
    appears twice, and the labels that appear are the configured ones. *)
Theorem labels_deduplicated (localeCompare : string → string → Z)
  (basename : string → string) (random : nat → Candidates.UnitInterval)
  (usageOf : AssessmentResult → Summary.ScoredAssessment)
  (options : AssessmentConfig) (c : RunSetup)
  (completionOrder : list nat) (info : RunInfo) (configured : list string) :
  generateCodeAndAssess localeCompare basename random usageOf options c
    completionOrder = Some (Ok info) →
  labels options = Some configured →
  details_labels info = keepFirstOccurrences configured
  ∧ NoDup (details_labels info)
  ∧ (∀ label, label ∈ details_labels info ↔ label ∈ configured).
Proof.
  intros Hrun Hlabels.
  destruct (RunFacts.generateCodeAndAssess_Ok _ _ _ _ _ _ _ _ Hrun)
    as (jobs & all & _ & _ & _ & _ & _ & _ & ->).
  rewrite Hlabels.
  unfold Array_from. rewrite newSet_keepFirstOccurrences.
  split; [done|]. split; [apply NoDup_keepFirstOccurrences|].
  intros label. apply elem_of_keepFirstOccurrences.
Qed.

End LabelFacts.

(** ** One job *)

Module EvalTaskFacts.
Import JS Shared EvalTask Scenarios.

(** C2. When the generation resolves to nothing, the job does not reach
    the branch that logs the failure, cleans up and leaves the loop: the
    read of [toolLogs] on the missing response raises first, and the
    exception leaves [startEvaluationTask] with nothing logged and the
    workspace not cleaned up. A rejected generation leaves it the same
    way. The path next to it, a failure to write the files, does what the
    specification describes: it logs, cleans up and returns the results
    gathered so far. *)
Theorem missing_generation_escapes_the_job :
  startEvaluationTask plainConfig (job (Ok None) (Ok ())) todoApp []
    = (Throw (typeErrorReadingNull "toolLogs"), [SetupProjectStructure])
  ∧ startEvaluationTask plainConfig (job (Throw providerError) (Ok ())) todoApp []
    = (Throw providerError, [SetupProjectStructure])
  ∧ startEvaluationTask plainConfig (job (Ok (Some generated)) (Throw diskError))
      todoApp []
    = (Ok [],
       [SetupProjectStructure;
        ProgressLog "todo-app" "error" generationFailedMessage
          (Some "Error: Error: ENAMETOOLONG");
        Cleanup; Cleanup]).
Proof. repeat split. Qed.

(** A job that meets no failure returns one result per step and cleans up
    once, at its end. *)
Example undisturbed_job :
  ∃ r, startEvaluationTask plainConfig (job (Ok (Some generated)) (Ok ())) todoApp []
       = (Ok [r], [SetupProjectStructure; WriteResponseFiles "todo-app"; Cleanup])
       ∧ name (promptDef r) = "todo-app".
Proof. eexists. split; reflexivity. Qed.

(** Whatever the collaborators do, a step whose generation resolves to
    nothing ends the loop with an exception and leaves the trace as it
    found it. *)
Lemma loopBody_missing_generation config c rootPromptDef promptDef results trace
  prompts contextFiles :
  getPrompts c promptDef = Ok prompts →
  resolveContextFiles c promptDef = Ok contextFiles →
  generateInitialFiles c promptDef = Ok None →
  loopBody config c rootPromptDef promptDef results trace
    = (Throw (typeErrorReadingNull "toolLogs"), trace).
Proof.
  intros Hprompts Hcontext Hgeneration. unfold loopBody.
  unfold mbind, task_bind, andThen, await.
  by rewrite Hprompts, Hcontext, Hgeneration.
Qed.

End EvalTaskFacts.

(** ** The AI SDK runner *)

Module AiSdkFacts.
Import JS Shared AiSdk Scenarios.

(** What [generateFiles] does with the answer of the SDK. *)
Lemma generateFiles_outcome
  (sdkGenerateText : ConstrainedRequest → Result SdkResponse)
  (options : GenerateFilesRequest) :
  generateFiles sdkGenerateText options =
    bind (sdkGenerateText (constrainedRequest options)) (λ sdkResponse,
    bind (sdk_output sdkResponse) (λ output,
    Ok {| g_files := Some (output_outputFiles output);
          g_reasoning := join LF (sdk_reasoning sdkResponse);
          g_usage :=
            {| inputTokens :=
                 default 0 (sdk_inputTokens (sdk_usage sdkResponse));
               outputTokens :=
                 default 0 (sdk_outputTokens (sdk_usage sdkResponse));
               thinkingTokens :=
                 default 0 (sdk_reasoningTokens (sdk_usage sdkResponse));
               totalTokens :=
                 default 0 (sdk_totalTokens (sdk_usage sdkResponse)) |} |})).
Proof.
  unfold generateFiles, generateConstrained.
  destruct (sdkGenerateText (constrainedRequest options)) as [sdkResponse|e];
    simpl; [|done].
  by destruct (sdk_output sdkResponse) as [output|e].
Qed.

(** C10. [generateFiles] does not resolve with an empty array of files
    when the constrained generation yields no structured output: it
    rejects. [generateConstrained] reads [response.output], which throws
    for an answer without structured output, before [generateFiles] gets
    to its fallback [?? []]; so the fallback is never taken, and a call
    that returns holds the array of files of the structured output. *)
Theorem missing_output_rejects_generateFiles :
  generateFiles silentSdk filesRequest = Throw noOutputGenerated
  ∧ (∀ (sdkGenerateText : ConstrainedRequest → Result SdkResponse)
       (options : GenerateFilesRequest) (sdkResponse : SdkResponse)
       (e : Thrown),
       sdkGenerateText (constrainedRequest options) = Ok sdkResponse →
       sdk_output sdkResponse = Throw e →
       generateFiles sdkGenerateText options = Throw e)
  ∧ (∀ (sdkGenerateText : ConstrainedRequest → Result SdkResponse)
       (options : GenerateFilesRequest) (response : GenerateFilesResponse),
       generateFiles sdkGenerateText options = Ok response →
       ∃ sdkResponse output,
         sdkGenerateText (constrainedRequest options) = Ok sdkResponse
         ∧ sdk_output sdkResponse = Ok output
         ∧ g_files response = Some (output_outputFiles output)).
Proof.
  split; [reflexivity|]. split.
  - intros sdkGenerateText options sdkResponse e Hsdk Houtput.
    by rewrite generateFiles_outcome, Hsdk; simpl; rewrite Houtput.
  - intros sdkGenerateText options response.
    rewrite generateFiles_outcome.
    destruct (sdkGenerateText (constrainedRequest options)) as [sdkResponse|e];
      simpl; [|done].
    destruct (sdk_output sdkResponse) as [output|e] eqn:Houtput; simpl;
      [|done].
    intros [= <-]. by exists sdkResponse, output.
Qed.

(** An answer with structured output is passed on. *)
Example generateFiles_passes_the_files_on :
  g_files <$> (match generateFiles oneFileSdk filesRequest with
               | Ok response => Some response
               | Throw _ => None
               end)
  = Some (Some [{| filePath := "app.ts"; code := "export {}" |}]).
Proof. reflexivity. Qed.

End AiSdkFacts.

(** ** The theorems at work on concrete inputs *)

Module Examples.
Import JS JSFacts Shared Scenarios.


(** The names of the steps in that example. *)
Example shop_steps_in_order :
  ∃ resolved,
    Environment.getMultiStepPrompt slashJoin shopBasename slashJoin echoRenderer
      "/env" true [entry "step-2"; entry "step-1"; entry "step-3"] shop []
      = Ok resolved
    ∧ Environment.p_name <$> Environment.steps resolved
      = ["shop-step-1"; "shop-step-2"; "shop-step-3"].
Proof. eexists. split; vm_compute; reflexivity. Qed.

(** Two entries with the same number stay in the order of the listing, so
    the two listings of such a directory resolve differently. *)
Example equal_numbers_keep_listing_order :
  Environment.getMultiStepPrompt slashJoin shopBasename slashJoin echoRenderer
    "/env" true [entry "step-1"; entry "step-01"] shop []
  ≠ Environment.getMultiStepPrompt slashJoin shopBasename slashJoin echoRenderer
      "/env" true [entry "step-01"; entry "step-1"] shop [].
Proof. vm_compute. discriminate. Qed.

(** Two prompts that return, submitted as b, a, the second completing
    first: the results come out as a, b. *)
Lemma results_sorted_by_prompt_name_witness :
  Generate.promptsToProcess ownBasename alwaysHalf oneRetry (setup twoSteady)
    = Ok twoSteady
  ∧ Generate.generateCodeAndAssess defaultCompare ownBasename alwaysHalf
      noRecordedUsage oneRetry (setup twoSteady) [1; 0]%nat
    = Some (Ok twoSteadyInfo)
  ∧ concat (Generate.jobResults oneRetry <$> twoSteady)
    = [result "b"; result "a"]
  ∧ Generate.results twoSteadyInfo = [result "a"; result "b"]
  ∧ StronglySorted
      (λ a b, defaultCompare (name (promptDef a)) (name (promptDef b)) <= 0)
      (Generate.results twoSteadyInfo)
  ∧ Generate.results twoSteadyInfo ≡ₚ
      concat (Generate.jobResults oneRetry <$> twoSteady)
  ∧ (∀ info',
       Generate.generateCodeAndAssess defaultCompare ownBasename alwaysHalf
         noRecordedUsage oneRetry (setup twoSteady) [0; 1]%nat
       = Some (Ok info') →
       Generate.results info' = Generate.results twoSteadyInfo).
Proof.
  assert (Generate.promptsToProcess ownBasename alwaysHalf oneRetry
            (setup twoSteady) = Ok twoSteady) as Hjobs
    by (vm_compute; reflexivity).
  assert (Generate.generateCodeAndAssess defaultCompare ownBasename alwaysHalf
            noRecordedUsage oneRetry (setup twoSteady) [1; 0]%nat
          = Some (Ok twoSteadyInfo)) as Hrun
    by (vm_compute; reflexivity).
  split; [exact Hjobs|]. split; [exact Hrun|].
  split; [reflexivity|]. split; [reflexivity|].
  destruct (RunFacts.results_sorted_by_prompt_name defaultCompare ownBasename
              alwaysHalf noRecordedUsage oneRetry (setup twoSteady) twoSteady
              [1; 0]%nat twoSteadyInfo defaultCompare_consistent Hjobs Hrun)
    as (Hsorted & Hperm & _ & Hsame).
  split; [exact Hsorted|]. split; [exact Hperm|].
  intros info'. apply Hsame.
Defined.

(** Two prompts, one retry: the prompt that keeps timing out is recorded
    once, with its name, the error and the stack; the run returns. *)
Lemma timeouts_retried_then_failure_recorded_witness :
  Generate.failsAt 1 (stuckJob "b") 1 timeoutError
  ∧ Generate.surroundingsReturn oneRetry (setup twoPrompts)
  ∧ Generate.runPrompt oneRetry (stuckJob "b") []
    = (Ok [],
       [{| promptName := "b"; error := "TimeoutError: Evaluation timed out";
           stack := Some "at callWithTimeout" |}])
  ∧ ∃ info,
      Generate.generateCodeAndAssess defaultCompare ownBasename alwaysHalf
        noRecordedUsage oneRetry (setup twoPrompts) [1; 0]%nat
      = Some (Ok info)
      ∧ Generate.summary_failedPrompts info ≡ₚ
          concat (Generate.jobFailures oneRetry <$> twoPrompts).
Proof.
  assert (Generate.failsAt 1 (stuckJob "b") 1 timeoutError) as Hfail.
  { split; [lia|]. split; [|split; [reflexivity|by right]].
    intros j _. exists timeoutError. by split. }
  assert (Generate.surroundingsReturn oneRetry (setup twoPrompts))
    as Hsurroundings.
  { unfold Generate.surroundingsReturn, Generate.evaluationsStart. simpl.
    repeat split; try (by eexists); try done. }
  split; [exact Hfail|]. split; [exact Hsurroundings|].
  destruct (RunFacts.timeouts_retried_then_failure_recorded defaultCompare
              ownBasename alwaysHalf noRecordedUsage oneRetry
              (setup twoPrompts) twoPrompts [1; 0]%nat 1)
    as (_ & Hrecorded & _ & info & Hrun & _ & Hfailed & _).
  - reflexivity.
  - lia.
  - exact Hsurroundings.
  - vm_compute. reflexivity.
  - discriminate.
  - apply perm_swap.
  - split; [exact (Hrecorded (stuckJob "b") [] 1%nat timeoutError Hfail)|].
    exists info. split; [exact Hrun|exact Hfailed].
Defined.

Lemma labels_deduplicated_witness :
  Generate.generateCodeAndAssess defaultCompare ownBasename alwaysHalf
    noRecordedUsage oneRetry (setup twoPrompts) [1; 0]%nat
    = Some (Ok twoPromptsInfo)
  ∧ Generate.labels oneRetry = Some ["nightly"; "ci"; "nightly"]
  ∧ Generate.details_labels twoPromptsInfo
    = keepFirstOccurrences ["nightly"; "ci"; "nightly"].
Proof.
  split; [vm_compute; reflexivity|]. split; [reflexivity|].
  apply (LabelFacts.labels_deduplicated defaultCompare ownBasename alwaysHalf
           noRecordedUsage oneRetry (setup twoPrompts) [1; 0]%nat
           twoPromptsInfo).
  - vm_compute. reflexivity.
  - reflexivity.
Defined.

End Examples.

(** ** The trace of a job *)

Module EvalTaskTraceFacts.
Import JS Shared EvalTask EvalTaskTrace.

Lemma cleanups_app events1 events2 :
  cleanups (events1 ++ events2) = (cleanups events1 + cleanups events2)%nat.
Proof.
  induction events1 as [|ev events1 IH]; simpl; [done|].
  destruct ev; simpl; by rewrite ?IH.
Qed.

Ltac run_task :=
  unfold mbind, mret, task_bind, task_ret, andThen, tryCatch, await, throw,
    emit, ret, cleanup in *;
  simpl in *.

Ltac extend_trace :=
  first
    [ exists []; split; [by rewrite app_nil_r|]
    | rewrite <- ?app_assoc; eexists; split; [reflexivity|] ].

(** Where a clean-up that is called after [added] finds the count of the
    earlier calls. *)
Lemma cleanups_uncleaned trace added :
  cleanups added = 0%nat → cleanups (trace ++ added) = cleanups trace.
Proof. intros Hnone. rewrite cleanups_app, Hnone. lia. Qed.

(** One iteration either adds the result of its step and cleans nothing
    up, or leaves the loop after one clean-up, or throws: without any
    clean-up, or with the error of the clean-up it has just called. *)
Lemma loopBody_outcome config c rootPromptDef promptDef results trace :
  ∃ added,
    snd (loopBody config c rootPromptDef promptDef results trace) = trace ++ added
    ∧ match fst (loopBody config c rootPromptDef promptDef results trace) with
      | Ok (Continue results') =>
          (∃ r, results' = results ++ [r] ∧ resultRef r = stepRef promptDef)
          ∧ cleanups added = 0%nat
      | Ok (Break results') => results' = results ∧ cleanups added = 1%nat
      | Throw e =>
          cleanups added = 0%nat
          ∨ (cleanups added = 1%nat
             ∧ last added = Some Cleanup
             ∧ cleanupOutcome c (cleanups trace) = Throw e)
      end.
Proof.
  unfold loopBody. run_task.
  repeat (case_match; simpl in *; simplify_eq/=);
    try (by extend_trace);
    try (extend_trace; (split; [|done]); by eexists);
    try (extend_trace; by left).
  all: extend_trace; right; split; [done|]; split; [done|].
  all: match goal with
       | H : cleanupOutcome _ _ = Throw _ |- _ => rewrite <- H
       end.
  all: by rewrite ?cleanups_app; simpl; rewrite ?Nat.add_0_r.
Qed.

(** The loop returns the results of a prefix of the steps: of all of
    them without any clean-up, or of fewer after one clean-up. It throws
    without any clean-up, or with the error of the one clean-up it has
    just called. *)
Lemma stepLoop_outcome config c rootPromptDef defs results trace :
  ∃ added,
    snd (stepLoop config c rootPromptDef defs results trace) = trace ++ added
    ∧ match fst (stepLoop config c rootPromptDef defs results trace) with
      | Ok results' =>
          ∃ k, resultRef <$> results' =
                 (resultRef <$> results) ++ (stepRef <$> take k defs)
               ∧ ((k = length defs ∧ cleanups added = 0%nat)
                  ∨ ((k < length defs)%nat ∧ cleanups added = 1%nat))
      | Throw e =>
          cleanups added = 0%nat
          ∨ (cleanups added = 1%nat
             ∧ last added = Some Cleanup
             ∧ cleanupOutcome c (cleanups trace) = Throw e)
      end.
Proof.
  revert results trace.
  induction defs as [|promptDef defs IH]; intros results trace.
  - exists []. simpl. split; [by rewrite app_nil_r|].
    exists 0%nat. rewrite app_nil_r. split; [done|]. by left.
  - cbn [stepLoop]. unfold mbind, task_bind, andThen.
    destruct (loopBody_outcome config c rootPromptDef promptDef results trace)
      as (added1 & Htrace1 & Hbody).
    destruct (loopBody config c rootPromptDef promptDef results trace)
      as [[[results1|results1]|e] trace1]; simpl in *; subst trace1.
    + destruct Hbody as [(r & -> & Hr) Hclean1].
      destruct (IH (results ++ [r]) (trace ++ added1))
        as (added2 & Htrace2 & Hrest).
      exists (added1 ++ added2). rewrite Htrace2, app_assoc. split; [done|].
      destruct (fst (stepLoop _ _ _ _ _ _)) as [results2|e].
      * destruct Hrest as (k & Hrefs & Hk). exists (S k).
        rewrite Hrefs, fmap_app, <- app_assoc. simpl. rewrite Hr.
        split; [done|]. rewrite cleanups_app, Hclean1. simpl.
        destruct Hk as [[-> ?]|[? ?]]; [by left|right; split; [lia|done]].
      * rewrite cleanups_app, Hclean1. simpl.
        destruct Hrest as [Hnone|(Hone & Hlast & Hcall)]; [by left|].
        right. split; [done|].
        rewrite (cleanups_uncleaned _ _ Hclean1) in Hcall.
        split; [|done].
        destruct added2 as [|ev added2 _] using rev_ind; [done|].
        rewrite app_assoc, last_snoc. by rewrite last_snoc in Hlast.
    + destruct Hbody as [-> Hclean1]. exists added1. split; [done|].
      exists 0%nat. simpl. rewrite app_nil_r. split; [done|].
      right. split; [lia|done].
    + by exists added1.
Qed.

(** X4. A job that returns has cleaned its workspace up, as the last
    thing it did: once when every step produced a result, twice when it
    stopped early. A job that throws has either not cleaned up at all, or
    throws what its latest clean-up, the first or the second, rejected
    with, that call being the last thing it did. *)
Theorem cleanup_follows_return config c rootPromptDef trace :
  ∃ added,
    snd (startEvaluationTask config c rootPromptDef trace) = trace ++ added
    ∧ match fst (startEvaluationTask config c rootPromptDef trace) with
      | Ok results =>
          last added = Some Cleanup
          ∧ cleanups added =
              (if decide (length results = length (defsToExecute rootPromptDef))
               then 1 else 2)%nat
      | Throw e =>
          cleanups added = 0%nat
          ∨ (last added = Some Cleanup
             ∧ (cleanups added = 1 ∨ cleanups added = 2)%nat
             ∧ cleanupOutcome c (cleanups trace + pred (cleanups added))
               = Throw e)
      end.
Proof.
  unfold startEvaluationTask. run_task.
  destruct (setupProjectStructure c); simpl;
    [|exists []; rewrite app_nil_r; split; [done|by left]].
  destruct (stepLoop_outcome config c rootPromptDef
              (defsToExecute rootPromptDef) [] (trace ++ [SetupProjectStructure]))
    as (added & Htrace & Hloop).
  rewrite (cleanups_uncleaned trace [SetupProjectStructure] eq_refl) in Hloop.
  destruct (stepLoop config c rootPromptDef (defsToExecute rootPromptDef) []
              (trace ++ [SetupProjectStructure]))
    as [[results|e] trace1]; simpl in *; subst trace1.
  - destruct Hloop as (k & Hrefs & Hk).
    assert (length results = length (take k (defsToExecute rootPromptDef)))
      as Hlength.
    { apply (f_equal length) in Hrefs. by rewrite !length_fmap in Hrefs. }
    rewrite length_take in Hlength.
    assert (cleanups ((trace ++ [SetupProjectStructure]) ++ added)
            = (cleanups trace + cleanups added)%nat) as Hbefore.
    { rewrite !cleanups_app. simpl. lia. }
    rewrite Hbefore.
    assert (cleanups ([SetupProjectStructure] ++ added ++ [Cleanup])
            = S (cleanups added)) as Hcount.
    { rewrite !cleanups_app. simpl. lia. }
    destruct (cleanupOutcome c (cleanups trace + cleanups added)) as [[]|e]
      eqn:Hcleanup; simpl.
    + exists ([SetupProjectStructure] ++ added ++ [Cleanup]).
      rewrite <- !app_assoc. split; [done|].
      split; [by rewrite !app_assoc, last_snoc|].
      rewrite Hcount.
      destruct Hk as [[-> ->]|[Hlt ->]].
      * rewrite decide_True by lia. done.
      * rewrite decide_False by lia. done.
    + exists ([SetupProjectStructure] ++ added ++ [Cleanup]).
      rewrite <- !app_assoc. split; [done|]. right.
      split; [by rewrite !app_assoc, last_snoc|].
      rewrite Hcount. simpl.
      split; [|done].
      destruct Hk as [[_ ->]|[_ ->]]; [by left|by right].
  - exists ([SetupProjectStructure] ++ added).
    rewrite <- app_assoc. split; [done|].
    rewrite cleanups_app. simpl.
    destruct Hloop as [Hnone|(Hone & Hlast & Hcall)]; [by left|].
    right. rewrite Hone. simpl. rewrite Nat.add_0_r.
    split; [|split; [by left|done]].
    rewrite last_cons. by rewrite Hlast.
Qed.

(** X5. The results a job returns belong, one each and in order, to the
    first steps of the prompt: each result carries the name and the text
    of its step. *)
Theorem results_follow_steps config c rootPromptDef trace results :
  fst (startEvaluationTask config c rootPromptDef trace) = Ok results →
  resultRef <$> results `prefix_of` stepRef <$> defsToExecute rootPromptDef.
Proof.
  unfold startEvaluationTask. run_task.
  destruct (setupProjectStructure c); simpl; [|done].
  destruct (stepLoop_outcome config c rootPromptDef
              (defsToExecute rootPromptDef) [] (trace ++ [SetupProjectStructure]))
    as (added & _ & Hloop).
  destruct (stepLoop config c rootPromptDef (defsToExecute rootPromptDef) []
              (trace ++ [SetupProjectStructure]))
    as [[results'|e] trace1]; simpl in *; [|done].
  destruct (cleanupOutcome c _) as [[]|e']; simpl; [|done].
  intros [= ->]. destruct Hloop as (k & -> & _). simpl.
  rewrite fmap_take. apply prefix_take.
Qed.

End EvalTaskTraceFacts.

(** ** Edge cases of a run *)

Module RunEdgeFacts.
Import JS JSFacts Shared Generate RunFacts RunEdges PoolFacts.

Lemma firstRejection_kept options jobs completionOrder st e :
  firstRejection st = Some e →
  firstRejection (foldl (completeTask options jobs) st completionOrder) = Some e.
Proof.
  revert st. induction completionOrder as [|i completionOrder IH];
    intros st Hst; simpl; [done|].
  apply IH. unfold completeTask.
  destruct (jobs !! i) as [job|]; [|done].
  destruct (runPrompt options job (failedPrompts st)) as [[?|?] ?]; simpl;
    [done|by rewrite Hst].
Qed.

(** X6. With a negative number of retries no prompt is evaluated at all:
    the task of every prompt throws as soon as it starts. The tasks start
    in the order of their submission, so the first one to complete is the
    one of the first prompt, and a run that gets as far as the
    evaluations rejects with the error of that prompt. The number of
    retries is above -2^53, where adding 1 to it is exact. *)
Theorem negative_retries_fail_the_run (localeCompare : string → string → Z)
  (basename : string → string) (random : nat → Candidates.UnitInterval)
  (usageOf : AssessmentResult → Summary.ScoredAssessment)
  (options : AssessmentConfig) (c : RunSetup) (jobs : list Job)
  (others : list nat) (job : Job) :
  - 2 ^ 53 < default 0 (promptTimeoutRetries options) < 0 →
  evaluationsStart options c →
  promptsToProcess basename random options c = Ok jobs →
  jobs !! 0%nat = Some job →
  (∀ job' failed,
     runPrompt options job' failed = (Throw (unexpectedCodePath options job'), failed))
  ∧ generateCodeAndAssess localeCompare basename random usageOf options c
      (0%nat :: others) = Some (Throw (unexpectedCodePath options job)).
Proof.
  intros [_ Hnegative] (Henv & Hmodel & Hrunner & Hstart & Hpool & Hworker)
    Hjobs Hjob.
  assert (∀ job' failed,
            runPrompt options job' failed =
              (Throw (unexpectedCodePath options job'), failed)) as Hthrow.
  { intros job' failed. unfold runPrompt.
    by replace (Z.to_nat (default 0 (promptTimeoutRetries options) + 1))
      with 0%nat by lia. }
  split; [done|].
  destruct Henv as [env Henv].
  destruct (pools_constructed options _ Hpool Hworker) as [Houter Hinner].
  unfold generateCodeAndAssess, awaiting.
  rewrite Henv, Hmodel, Hjobs, Hrunner, Hstart, Houter, Hinner.
  destruct jobs as [|job0 jobs]; [done|]. cbn [length Nat.eqb].
  assert (promiseAll (runTasks options (job0 :: jobs) (0%nat :: others))
          = Some (Throw (unexpectedCodePath options job))) as ->.
  { unfold promiseAll, runTasks. cbn [foldl].
    rewrite (firstRejection_kept _ _ _ _ (unexpectedCodePath options job));
      [done|].
    unfold completeTask. rewrite Hjob, Hthrow. done. }
  by destruct (_ || _ || _),
    (localExecutor c && startMcp c && hasStartMcpServerHost c).
Qed.

(** X7. With automatic concurrency the two pool sizes are ordered, inner
    below outer below the number of cores; the outer size reaches 1 from
    two cores up and the inner size from three cores up. *)
Theorem automatic_pool_bounds (options : AssessmentConfig)
  (availableParallelism : Z) :
  concurrency options = auto →
  0 <= availableParallelism →
  let outer := appConcurrency options availableParallelism in
  ∃ inner,
    workerConcurrency options outer = finite inner
    ∧ 0 <= inner ∧ inner <= outer ∧ outer <= availableParallelism
    ∧ (1 <= outer ↔ 2 <= availableParallelism)
    ∧ (1 <= inner ↔ 3 <= availableParallelism).
Proof.
  intros Hauto Hcores outer. subst outer.
  unfold appConcurrency, workerConcurrency. rewrite Hauto.
  rewrite floor_eight_tenths, floor_half.
  eexists. split; [reflexivity|].
  repeat split; Z.div_mod_to_equations; lia.
Qed.

Section accounting.
Variable options : AssessmentConfig.
Variable retries : Z.
Hypothesis retries_configured : default 0 (promptTimeoutRetries options) = retries.
Hypothesis retries_nonnegative : 0 <= retries.

Lemma jobFailures_or_results job :
  (jobFailures options job = [] ∨
   (length (jobFailures options job) = 1%nat ∧ jobResults options job = [])).
Proof.
  unfold jobFailures, jobResults, jobOutcome.
  destruct (job_settles retries retries_nonnegative job)
    as [(k & e & Hfail)|(k & promptResults & Hok)].
  - right. by rewrite (runPrompt_failsAt _ _ retries_configured
                         retries_nonnegative _ [] _ _ Hfail).
  - left. by rewrite (runPrompt_succeedsAt _ _ retries_configured
                        retries_nonnegative _ [] _ _ Hok).
Qed.

Lemma failures_accounted jobs :
  (length (concat (jobFailures options <$> jobs))
   + length (filter (λ job, length (jobFailures options job) = 0%nat) jobs)
   = length jobs)%nat.
Proof.
  induction jobs as [|job jobs IH]; [done|].
  rewrite fmap_cons. cbn [concat]. rewrite length_app, filter_cons.
  destruct (jobFailures_or_results job) as [Hnone|[Hone _]].
  - rewrite Hnone. rewrite decide_True by done. simpl. lia.
  - rewrite decide_False by lia. simpl. lia.
Qed.

End accounting.

(** X8. The failed prompts are listed in the order in which their tasks
    completed. When the retries are not negative and every task has
    completed, each prompt is accounted for once: it has returned, or it
    has one entry among the failed prompts and no results. *)
Theorem failed_prompts_accounted (localeCompare : string → string → Z)
  (basename : string → string) (random : nat → Candidates.UnitInterval)
  (usageOf : AssessmentResult → Summary.ScoredAssessment)
  (options : AssessmentConfig) (c : RunSetup) (jobs : list Job)
  (completionOrder : list nat) (info : RunInfo) :
  0 <= default 0 (promptTimeoutRetries options) →
  promptsToProcess basename random options c = Ok jobs →
  completionOrder ≡ₚ seq 0 (length jobs) →
  generateCodeAndAssess localeCompare basename random usageOf options c
    completionOrder = Some (Ok info) →
  summary_failedPrompts info = concat (failuresOf options jobs <$> completionOrder)
  ∧ (length (summary_failedPrompts info)
     + length (filter (λ job, length (jobFailures options job) = 0%nat) jobs)
     = allPromptsCount info)%nat
  ∧ (∀ job, job ∈ jobs → jobFailures options job ≠ [] → jobResults options job = []).
Proof.
  intros Hretries Hjobs Hperm Hrun.
  destruct (generateCodeAndAssess_Ok _ _ _ _ _ _ _ _ Hrun)
    as (jobs' & all & Hjobs' & _ & _ & _ & -> & -> & _).
  assert (jobs' = jobs) as -> by congruence.
  rewrite runTasks_failedPrompts.
  split; [done|]. split.
  - rewrite (Permutation_length
               (concat_Permutation _ _ (fmap_Permutation _ _ _ Hperm))).
    rewrite failuresOf_seq. by eapply failures_accounted.
  - intros job _ Hfailed.
    destruct (jobFailures_or_results options _ eq_refl Hretries job)
      as [?|[_ ?]]; done.
Qed.

End RunEdgeFacts.

(** ** More of the environment *)

Module EnvironmentEdgeFacts.
Import JS JSFacts Environment EnvironmentEdges HashFacts StepFacts ValidationFacts.

(** *** Ratings and their overrides *)

Lemma checkOverrideIds_Ok keys configured :
  checkOverrideIds keys configured = Ok () ↔
  ∀ key, key ∈ keys → key ∈ id <$> configured.
Proof.
  induction keys as [|key keys IH]; simpl.
  - split; [by intros _ key ?%elem_of_nil|done].
  - destruct (existsb _ configured) eqn:Hexists.
    + rewrite IH. apply existsb_exists in Hexists as (rating & Hin & Hid).
      apply bool_decide_eq_true in Hid. apply list_elem_of_In in Hin.
      split.
      * intros Hrest key' [->|?]%elem_of_cons; [|by apply Hrest].
        apply list_elem_of_fmap. by exists rating.
      * intros Hall key' Hkey'. apply Hall. by right.
    + split; [done|]. intros Hall.
      destruct (proj1 (list_elem_of_fmap _ _ _) (Hall key ltac:(left)))
        as (rating & Hid & Hin).
      assert (existsb (λ rating, bool_decide (id rating = key)) configured = true)
        as Htrue; [|congruence].
      apply existsb_exists. exists rating.
      split; [by apply list_elem_of_In|by apply bool_decide_eq_true].
Qed.

(** The error of the first override key without a rating, in the order
    of the keys. *)
Lemma checkOverrideIds_Throw (known : list string) (key : string)
  (others : list string) (configured : list Rating) :
  (∀ k, k ∈ known → k ∈ id <$> configured) →
  key ∉ id <$> configured →
  checkOverrideIds (known ++ key :: others) configured
  = Throw (newUserFacingError
      ("Rating with an ID of " +:+ DQ +:+ key +:+ DQ +:+
       " has not been configured. Cannot apply an override to it.")).
Proof.
  intros Hknown Hkey.
  induction known as [|k known IH]; simpl.
  - destruct (existsb _ configured) eqn:Hexists; [|done].
    apply existsb_exists in Hexists as (rating & Hin & Hid).
    apply bool_decide_eq_true in Hid. apply list_elem_of_In in Hin.
    destruct Hkey. apply list_elem_of_fmap. by exists rating.
  - destruct (existsb _ configured) eqn:Hexists.
    + apply IH. intros k' Hk'. apply Hknown. by right.
    + destruct (proj1 (list_elem_of_fmap _ _ _) (Hknown k ltac:(left)))
        as (rating & Hid & Hin).
      assert (existsb (λ rating, bool_decide (id rating = k)) configured = true)
        as Htrue; [|congruence].
      apply existsb_exists. exists rating.
      split; [by apply list_elem_of_In|by apply bool_decide_eq_true].
Qed.

(** X9. The ratings resolve exactly when every override is keyed by the
    id of a configured rating; otherwise the error names the first key, in
    the order of the keys, that is not such an id. The resolved ratings
    are as many as the configured ones, and a rating without an override
    stays as it is, at its place. *)
Theorem overrides_keep_the_ratings (config : EnvironmentConfig)
  (overrides : list (string * RatingOverride)) :
  ratingOverrides config = Some overrides →
  ((∃ resolved, resolveRatings config = Ok resolved) ↔
   ∀ key, key ∈ overrides.*1 → key ∈ id <$> ratings config)
  ∧ (∀ known key others,
       overrides.*1 = known ++ key :: others →
       (∀ k, k ∈ known → k ∈ id <$> ratings config) →
       key ∉ id <$> ratings config →
       resolveRatings config
       = Throw (newUserFacingError
           ("Rating with an ID of " +:+ DQ +:+ key +:+ DQ +:+
            " has not been configured. Cannot apply an override to it.")))
  ∧ ∀ resolved,
      resolveRatings config = Ok resolved →
      length resolved = length (ratings config)
      ∧ ∀ i rating,
          ratings config !! i = Some rating →
          lookupOverride overrides (id rating) = None →
          resolved !! i = Some rating.
Proof.
  intros Hoverrides. unfold resolveRatings. rewrite Hoverrides. split.
  - rewrite <- checkOverrideIds_Ok.
    destruct (checkOverrideIds _ _) as [[]|e]; simpl.
    + split; [done|]. by eexists.
    + split; [by intros [? ?]|done].
  - split.
    { intros known key others Hkeys Hknown Hkey.
      change (fst <$> overrides) with (overrides.*1). rewrite Hkeys.
      by rewrite (checkOverrideIds_Throw _ _ _ _ Hknown Hkey). }
    intros resolved.
    destruct (checkOverrideIds _ _) as [[]|e]; simpl; [|done].
    intros [= <-]. split; [by rewrite length_fmap|].
    intros i rating Hrating Hnone.
    by rewrite list_lookup_fmap, Hrating; simpl; rewrite Hnone.
Qed.

(** *** The rating hash *)

(** X10. The hash reads the category, the id, the score reduction and the
    grouping labels of a rating, and nothing else: ratings that agree on
    these hash alike, whatever their kind, name or description. *)
Theorem ratingHash_reads_four_fields (getSha256Hash : string → string)
  (ratings1 ratings2 : list Rating)
  (categories : RatingCategory → CategoryConfig) :
  hashedFields <$> ratings1 = hashedFields <$> ratings2 →
  getRatingHash getSha256Hash ratings1 categories =
  getRatingHash getSha256Hash ratings2 categories.
Proof.
  intros Hfields. unfold getRatingHash, ratingHashInput. do 3 f_equal.
  revert ratings2 Hfields.
  induction ratings1 as [|a ratings1 IH]; intros [|b ratings2] Hfields;
    try done.
  rewrite !fmap_cons in Hfields. unfold hashedFields at 1 3 in Hfields.
  injection Hfields as Hc Hi Hs Hg Htail.
  rewrite !fmap_cons. f_equal; [|by apply IH].
  unfold ratingPart, groupingLabelsPart. by rewrite Hc, Hi, Hs, Hg.
Qed.

(** X11. Once the identifier of the environment, its ratings and its
    analysis prompts resolve, the construction succeeds exactly when no
    expected hash is declared, or the empty one, or the computed one; the
    environment then holds the identifier, the resolved ratings, the
    computed hash and the analysis prompts. *)
Theorem construction_accepts_matching_hash (getSha256Hash : string → string)
  (generateId : string → option string)
  (renderAnalysisPrompt : string → Result string)
  (DEFAULT_SUMMARY_MODEL : string)
  (config : EnvironmentConfig) (this_id : string) (resolved : list Rating)
  (prompts : list AnalysisPrompt) :
  idOrGenerated generateId config = Ok this_id →
  resolveRatings config = Ok resolved →
  resolveAnalysisPrompts renderAnalysisPrompt DEFAULT_SUMMARY_MODEL config
    = Ok prompts →
  let computed :=
    getRatingHash getSha256Hash resolved (getRatingCategories config) in
  ((∃ env, newEnvironment getSha256Hash generateId renderAnalysisPrompt
             DEFAULT_SUMMARY_MODEL config = Ok env) ↔
   expectedRatingHash config = None
   ∨ expectedRatingHash config = Some EmptyString
   ∨ expectedRatingHash config = Some computed)
  ∧ ∀ env,
      newEnvironment getSha256Hash generateId renderAnalysisPrompt
        DEFAULT_SUMMARY_MODEL config = Ok env →
      ratingHash env = computed ∧ env_ratings env = resolved
      ∧ env_id env = this_id ∧ env_analysisPrompts env = prompts.
Proof.
  intros Hid Hresolved Hprompts computed.
  unfold newEnvironment. rewrite Hid, Hresolved, Hprompts. simpl.
  fold computed. unfold validateRatingHash.
  destruct (expectedRatingHash config) as [expected|]; simpl.
  - destruct (truthy expected) eqn:Htruthy; simpl.
    + apply truthy_true in Htruthy.
      destruct (decide (expected = computed)) as [->|Hne].
      * rewrite bool_decide_eq_false_2 by (by intros []). simpl.
        split; [|by intros ? [= <-]].
        split; [by auto|by eexists].
      * rewrite bool_decide_eq_true_2 by done. simpl.
        split; [|done]. split; [by intros [? ?]|].
        intros [?|[[= ?]|[= ?]]]; done.
    + assert (expected = EmptyString) as ->.
      { unfold truthy in Htruthy. apply bool_decide_eq_false in Htruthy.
        by destruct (decide (expected = EmptyString)). }
      split; [|by intros ? [= <-]]. split; [by auto|by eexists].
  - split; [|by intros ? [= <-]]. split; [by auto|by eexists].
Qed.

(** X12. Pinning the hash: an environment that was constructed can be
    constructed again with its own hash as the expected one, and with its
    ratings listed in any order. *)
Theorem own_hash_can_be_expected (getSha256Hash : string → string)
  (generateId : string → option string)
  (renderAnalysisPrompt : string → Result string)
  (DEFAULT_SUMMARY_MODEL : string)
  (config : EnvironmentConfig) (env : Environment) (ratings' : list Rating) :
  newEnvironment getSha256Hash generateId renderAnalysisPrompt
    DEFAULT_SUMMARY_MODEL config = Ok env →
  ratings' ≡ₚ ratings config →
  ∃ env',
    newEnvironment getSha256Hash generateId renderAnalysisPrompt
      DEFAULT_SUMMARY_MODEL
      (withExpected (withRatings config ratings') (Some (ratingHash env)))
      = Ok env'
    ∧ ratingHash env' = ratingHash env.
Proof.
  intros Hnew Hperm.
  pose proof (resolveRatings_Permutation config ratings' Hperm) as Hres.
  unfold newEnvironment in *.
  change (idOrGenerated generateId
            (withExpected (withRatings config ratings') (Some (ratingHash env))))
    with (idOrGenerated generateId config).
  change (getRatingCategories (withExpected (withRatings config ratings') _))
    with (getRatingCategories config).
  change (resolveRatings (withExpected (withRatings config ratings')
                            (Some (ratingHash env))))
    with (resolveRatings (withRatings config ratings')).
  change (resolveAnalysisPrompts renderAnalysisPrompt DEFAULT_SUMMARY_MODEL
            (withExpected (withRatings config ratings') (Some (ratingHash env))))
    with (resolveAnalysisPrompts renderAnalysisPrompt DEFAULT_SUMMARY_MODEL
            config).
  destruct (idOrGenerated generateId config) as [this_id|e]; simpl in *;
    [|done].
  destruct (resolveRatings config) as [resolved|e]; simpl in *; [|done].
  destruct Hres as (resolved' & -> & Hperm'). simpl.
  destruct (resolveAnalysisPrompts _ _ config) as [prompts|e]; simpl in *;
    [|done].
  destruct (validateRatingHash _ _ _ config); simpl in *; [|done].
  injection Hnew as <-. simpl.
  unfold getRatingHash.
  rewrite (ratingHashInput_Permutation _ _ _ Hperm').
  unfold validateRatingHash. simpl.
  destruct (truthy _); simpl; [|by eexists].
  rewrite bool_decide_eq_false_2 by (by intros []). by eexists.
Qed.

(** *** Multi-step prompts *)

Section multi_step.
Variable resolve : string → string → string.
Variable basename : string → string.
Variable pathJoin : string → string → string.
Variable renderEnvironmentPrompt : string → string * list string.




(** X14. A multi-step prompt that resolves has one step per directory
    entry: its steps are the steps of the entries, in some order. The step
    of an entry is named after the directory and the number that
    [parseInt] reads off the name of the file, printed as the language
    prints a number; it carries the ratings of the environment after its
    own, and is a generation step when that number is 1 and an editing
    step otherwise. *)
Theorem resolved_steps_shape (rootPath : string) (rootIsDirectory : bool)
  (entities : list Dirent) (def : MultiStepPrompt) (envRatings : list Rating)
  (resolved : MultiStepPromptDefinition) :
  getMultiStepPrompt resolve basename pathJoin renderEnvironmentPrompt
    rootPath rootIsDirectory entities def envRatings = Ok resolved →
  length (steps resolved) = length entities
  ∧ steps resolved ≡ₚ
      stepOfEntry pathJoin renderEnvironmentPrompt (m_name resolved) def
        envRatings <$> entities
  ∧ Forall (λ step,
      envRatings `suffix_of` p_ratings step
      ∧ ∃ entry,
          entry ∈ entities
          ∧ stepNumber entry ≠ Integral 0
          ∧ p_name step =
              m_name resolved +:+ "-step-" +:+ doubleToString (stepNumber entry)
          ∧ prompt step =
              (renderEnvironmentPrompt
                 (pathJoin (directoryPath def) (d_name entry))).1
          ∧ systemPromptType step =
              (if Number_eqb (stepNumber entry) (Integral 1)
               then generation else editing))
      (steps resolved).
Proof.
  intros Hresolved.
  destruct (resolved_entries_accepted _ _ _ _ _ _ _ _ _ _ Hresolved)
    as (-> & Hnonempty & Hall).
  unfold getMultiStepPrompt in Hresolved. simpl in Hresolved.
  destruct (length entities =? 0)%nat; [done|].
  rewrite (loop_accepted _ _ _ _ _ _ _ Hall) in Hresolved. simpl in Hresolved.
  injection Hresolved as <-. simpl.
  split.
  { by rewrite (Permutation_length (sort_Permutation _ _)), length_fmap. }
  split; [apply sort_Permutation|].
  rewrite sort_Permutation.
  apply Forall_fmap, Forall_forall. intros entry Hentry. simpl.
  destruct (proj1 (Forall_forall _ _) Hall entry Hentry) as (_ & _ & Hnumber).
  unfold stepOfEntry, getSinglePromptDefinition.
  destruct (renderEnvironmentPrompt _) as [result contextFiles] eqn:Hrender.
  simpl.
  split.
  - destruct (stepRatings def !! d_name entry) as [extra|]; [|done].
    by apply suffix_app_r.
  - exists entry. split; [done|]. split; [done|]. split; [done|].
    split; [by rewrite Hrender|].
    by destruct (Number_eqb (stepNumber entry) (Integral 1)).
Qed.

End multi_step.

(** *** The prompt sent to the model *)

Section getPrompt.
Variable renderSystemPrompt : string → Result string.
Variable encodeURIComponent : string → string.
Variable fetch : string → Result FetchResponse.

(** X15. Without a RAG endpoint the full prompt is the system instructions,
    as [getPrompt] returns them for an empty user prompt, followed by the
    user prompt: the two prompts that [startEvaluationTask] asks for
    differ by the user prompt only. *)
Theorem prompt_extends_system_instructions (config : SystemPrompts)
  (type : SystemPromptType) (userPrompt : string) :
  getPrompt renderSystemPrompt encodeURIComponent fetch config type userPrompt None
    = bind (getPrompt renderSystemPrompt encodeURIComponent fetch config type
              EmptyString None)
        (λ systemInstructions, Ok (systemInstructions +:+ userPrompt)).
Proof.
  unfold getPrompt.
  destruct (match type with generation => _ | editing => _ end)
    as [systemPrompt|e]; simpl; [|done].
  f_equal. by rewrite !append_assoc.
Qed.

(** X16. When the system prompt renders, a RAG endpoint without the
    placeholder [PROMPT] is rejected with a user-facing error, whatever
    the endpoint would have answered. *)
Theorem endpoint_without_placeholder_is_rejected (config : SystemPrompts)
  (type : SystemPromptType) (userPrompt endpoint systemPrompt : string) :
  endpoint ≠ EmptyString →
  Strings.includes endpoint "PROMPT" = false →
  getPrompt renderSystemPrompt encodeURIComponent fetch config type
    EmptyString None = Ok systemPrompt →
  getPrompt renderSystemPrompt encodeURIComponent fetch config type
    userPrompt (Some endpoint)
  = Throw (newUserFacingError
      ("The ragEndpoint must include the " +:+ DQ +:+ "PROMPT" +:+ DQ
       +:+ " substring.")).
Proof.
  intros Hendpoint Hmissing. unfold getPrompt.
  destruct (match type with generation => _ | editing => _ end)
    as [systemPrompt'|e]; simpl; [|done].
  intros _. assert (truthy endpoint = true) as ->.
  { unfold truthy. by apply bool_decide_eq_true. }
  by rewrite Hmissing.
Qed.

(** X17. An environment without an editing prompt, or with an empty one,
    gives editing steps the prompt of generation steps. *)
Theorem editing_falls_back_to_generation (config : SystemPrompts)
  (userPrompt : string) (ragEndpoint : option string) :
  editingSystemPrompt config = None
  ∨ editingSystemPrompt config = Some EmptyString →
  getPrompt renderSystemPrompt encodeURIComponent fetch config editing
    userPrompt ragEndpoint =
  getPrompt renderSystemPrompt encodeURIComponent fetch config generation
    userPrompt ragEndpoint.
Proof.
  intros [Hnone|Hempty]; unfold getPrompt, systemPromptEditing.
  - by rewrite Hnone.
  - by rewrite Hempty.
Qed.

End getPrompt.

End EnvironmentEdgeFacts.

(** ** The models of the AI SDK runner *)

Module AiSdkModelFacts.
Import JS AiSdkModels.

Lemma isCase_unlisted model labels :
  model ∉ SUPPORTED_MODELS →
  forallb (λ label, bool_decide (label ∈ SUPPORTED_MODELS)) labels = true →
  isCase model labels = false.
Proof.
  intros Hunlisted Hlabels. apply bool_decide_eq_false. intros Hin.
  induction labels as [|label labels IH]; [by apply elem_of_nil in Hin|].
  simpl in Hlabels. apply andb_true_iff in Hlabels as [Hlabel Hlabels].
  apply elem_of_cons in Hin as [->|Hin]; [|by apply IH].
  apply Hunlisted. by apply bool_decide_eq_true in Hlabel.
Qed.

Lemma unlisted_rejected model :
  model ∉ SUPPORTED_MODELS →
  _getAiSdkModelOptions model
  = Throw (newError ("Unexpected unsupported model: " +:+ model)).
Proof.
  intros Hunlisted.
  unfold _getAiSdkModelOptions, orElse, getAiSdkModelOptionsForGoogle,
    getAiSdkModelOptionsForAnthropic, getAiSdkModelOptionsForOpenAI,
    getAiSdkModelOptionsForGroq.
  by rewrite !(isCase_unlisted model _ Hunlisted) by done.
Qed.

(** Splits [model ∈ SUPPORTED_MODELS] into its twenty-two cases. *)
Ltac each_model H :=
  unfold getSupportedModels, SUPPORTED_MODELS, GOOGLE_MODELS, ANTHROPIC_MODELS,
    OPENAI_MODELS, GROQ_MODELS in H; simpl in H;
  repeat (apply elem_of_cons in H as [->|H]);
  try (by apply elem_of_nil in H).

(** X18. The runner resolves options for exactly the models that
    [getSupportedModels] lists: every listed model is handled by the
    [switch] of some provider, and any other name is rejected with the
    error for an unsupported model. *)
Theorem model_resolves_iff_supported (model : string) :
  (model ∈ getSupportedModels ∧ ∃ options, _getAiSdkModelOptions model = Ok options)
  ∨ ((model ∉ getSupportedModels)
     ∧ _getAiSdkModelOptions model
       = Throw (newError ("Unexpected unsupported model: " +:+ model))).
Proof.
  destruct (decide (model ∈ getSupportedModels)) as [Hlisted|Hunlisted].
  - left. split; [done|]. each_model Hlisted; by eexists.
  - right. split; [done|]. by apply unlisted_rejected.
Qed.

(** X19. The lookup for a Google model never throws: the branch for a
    thinking model whose name ends in neither [-16k] nor [-24k] cannot be
    reached. *)
Theorem google_lookup_never_throws (rawModelName : string) :
  ∃ result, getAiSdkModelOptionsForGoogle rawModelName = Ok result.
Proof.
  unfold getAiSdkModelOptionsForGoogle.
  destruct (isCase rawModelName [_; _; _; _]); [by eexists|].
  destruct (isCase rawModelName [_]); [by eexists|].
  destruct (isCase rawModelName [_; _]) eqn:Hcase; [|by eexists].
  apply bool_decide_eq_true in Hcase.
  repeat (apply elem_of_cons in Hcase as [->|Hcase]); [by eexists..|].
  by apply elem_of_nil in Hcase.
Qed.

(** X20. The options of a model follow its name: a name ending in [-16k],
    [-24k] or [-32k] asks for a thinking budget of 16000, 24000 or 32000
    tokens, a name with [no-thinking] for no budget or a budget of 0, and
    a model is wrapped in the thinking middleware only when a budget is
    sent. *)
Theorem budget_follows_model_name (model : string) (options : ModelOptions) :
  _getAiSdkModelOptions model = Ok options →
  (Strings.endsWith model "-16k" = true → requestedBudget options = Some 16000)
  ∧ (Strings.endsWith model "-24k" = true → requestedBudget options = Some 24000)
  ∧ (Strings.endsWith model "-32k" = true → requestedBudget options = Some 32000)
  ∧ (Strings.includes model "no-thinking" = true →
     requestedBudget options = None ∨ requestedBudget options = Some 0)
  ∧ (wrapped options = true → ∃ budget, requestedBudget options = Some budget).
Proof.
  intros Hresolved.
  destruct (decide (model ∈ getSupportedModels)) as [Hlisted|Hunlisted].
  2: { by rewrite (unlisted_rejected _ Hunlisted) in Hresolved. }
  each_model Hlisted; vm_compute in Hresolved; injection Hresolved as <-;
    vm_compute; repeat split; try done; try (by left); try (by right);
    by eexists.
Qed.

End AiSdkModelFacts.

(** ** The messages of a request *)

Module AiSdkMessageFacts.
Import JS AiSdkMessages.

Lemma toAiSDKMessage_from (acc : list ModelMessage)
  (messages : list PromptDataMessage) :
  foldl (λ result message,
    if String.eqb (role message) "model" then
      result ++ [assistantMessage (toPart <$> content message)]
    else if String.eqb (role message) "user" then
      result ++ [userMessage (toPart <$> content message)]
    else result) acc messages
  = acc ++ _toAiSDKMessage messages.
Proof.
  unfold _toAiSDKMessage. revert acc.
  induction messages as [|message messages IH] using rev_ind; intros acc.
  { simpl. by rewrite app_nil_r. }
  rewrite !foldl_app. simpl. rewrite IH.
  destruct (String.eqb (role message) "model"); [by rewrite app_assoc|].
  destruct (String.eqb (role message) "user"); [by rewrite app_assoc|done].
Qed.

Lemma toAiSDKMessage_cons message messages :
  _toAiSDKMessage (message :: messages)
  = _toAiSDKMessage [message] ++ _toAiSDKMessage messages.
Proof.
  unfold _toAiSDKMessage at 1. simpl. rewrite toAiSDKMessage_from.
  unfold _toAiSDKMessage at 2. simpl.
  by destruct (String.eqb (role message) "model"),
    (String.eqb (role message) "user").
Qed.

Lemma toAiSDKMessage_one message :
  _toAiSDKMessage [message]
  = if String.eqb (role message) "model" then
      [assistantMessage (toPart <$> content message)]
    else if String.eqb (role message) "user" then
      [userMessage (toPart <$> content message)]
    else [].
Proof. reflexivity. Qed.

Lemma toAiSDKMessage_no_system messages :
  Forall (λ message, isSystem message = false) (_toAiSDKMessage messages).
Proof.
  induction messages as [|message messages IH]; [done|].
  rewrite toAiSDKMessage_cons, toAiSDKMessage_one, Forall_app.
  split; [|done].
  destruct (String.eqb (role message) "model"); [by repeat constructor|].
  destruct (String.eqb (role message) "user"); by repeat constructor.
Qed.

(** The loop keeps the turns of the two roles and converts them. *)
Lemma toAiSDKMessage_omap messages :
  _toAiSDKMessage messages
  = omap (λ message,
      let parts :=
        (λ part,
           match part with
           | mediaPart media => FilePart (url media) "image/png"
           | textPart text => TextPart text
           end) <$> content message in
      if decide (role message = "model") then Some (assistantMessage parts)
      else if decide (role message = "user") then Some (userMessage parts)
      else None) messages.
Proof.
  induction messages as [|message messages IH]; [done|].
  rewrite toAiSDKMessage_cons, toAiSDKMessage_one, IH.
  cbn [omap list_omap].
  destruct (String.eqb_spec (role message) "model") as [Hmodel|Hmodel].
  { by rewrite decide_True. }
  rewrite decide_False by done.
  destruct (String.eqb_spec (role message) "user") as [Huser|Huser].
  { by rewrite decide_True. }
  by rewrite decide_False.
Qed.

(** X21. The list of messages handed to the SDK is the system prompt of
    the request, when it has one, then the user and model turns of the
    request in their order, and last the prompt as a user message of one
    text part. A model turn becomes an assistant message and a user turn
    a user message, part for part: a media part becomes a file part of
    type image/png with the address of the media as its data, a text part
    stays a text part with the same text. Turns of any other role are
    left out, so a system message can only come first. *)
Theorem conversation_is_kept_in_order (request : Request) :
  _convertRequestToMessagesList request
  = match systemPrompt request with
    | Some text => [systemMessage text]
    | None => []
    end
    ++ omap (λ message,
         let parts :=
           (λ part,
              match part with
              | mediaPart media => FilePart (url media) "image/png"
              | textPart text => TextPart text
              end) <$> content message in
         if decide (role message = "model") then Some (assistantMessage parts)
         else if decide (role message = "user") then Some (userMessage parts)
         else None) (default [] (messages request))
    ++ [userMessage [TextPart (prompt request)]]
  ∧ last (_convertRequestToMessagesList request)
    = Some (userMessage [TextPart (prompt request)])
  ∧ (∀ (i : nat) text,
       _convertRequestToMessagesList request !! i = Some (systemMessage text) →
       i = 0%nat ∧ systemPrompt request = Some text).
Proof.
  unfold _convertRequestToMessagesList.
  pose proof (toAiSDKMessage_no_system (default [] (messages request)))
    as Hsystem.
  split; [|split].
  - by rewrite toAiSDKMessage_omap.
  - by rewrite app_assoc, last_snoc.
  - intros i text Hlookup.
    assert (∀ j, (_toAiSDKMessage (default [] (messages request))
                  ++ [userMessage [TextPart (prompt request)]]) !! j
                 ≠ Some (systemMessage text)) as Hrest.
    { intros j Hj. apply lookup_app_Some in Hj as [Hj|[_ Hj]].
      - by apply (Forall_lookup_1 _ _ _ _ Hsystem) in Hj.
      - by apply list_lookup_singleton_Some in Hj as [_ ?]. }
    destruct (systemPrompt request) as [systemPrompt|]; simpl in Hlookup.
    + destruct i as [|i]; [by injection Hlookup as ->|].
      by apply Hrest in Hlookup.
    + by apply Hrest in Hlookup.
Qed.

End AiSdkMessageFacts.

(** ** The settings of the Gemini CLI *)

Module GeminiCliFacts.
Import JS GeminiCli.

Lemma append_cons (c : ascii) (a b : string) :
  String c a +:+ b = String c (a +:+ b).
Proof. reflexivity. Qed.

Lemma length_append (a b : string) :
  String.length (a +:+ b) = (String.length a + String.length b)%nat.
Proof.
  induction a as [|c a IH]; [done|]. rewrite append_cons. simpl. by rewrite IH.
Qed.

Lemma append_inj_r (a b t : string) : a +:+ t = b +:+ t → a = b.
Proof.
  revert b. induction a as [|c a IH]; intros [|d b] Heq; [done| | |].
  - apply (f_equal String.length) in Heq.
    rewrite !length_append in Heq. simpl in Heq. lia.
  - apply (f_equal String.length) in Heq.
    rewrite !length_append in Heq. simpl in Heq. lia.
  - rewrite !append_cons in Heq. injection Heq as -> Heq. f_equal. by apply IH.
Qed.

Lemma shellCommand_inj (a b : string) : shellCommand a = shellCommand b → a = b.
Proof.
  unfold shellCommand. intros Heq. apply String.app_inj in Heq.
  by apply append_inj_r in Heq.
Qed.

Lemma subcommand_differs (packageManager subcommand : string) :
  subcommand ≠ EmptyString →
  shellCommand packageManager ≠ shellCommand (packageManager +:+ subcommand).
Proof.
  intros Hsub Heq. apply shellCommand_inj, (f_equal String.length) in Heq.
  rewrite length_append in Heq. destruct subcommand; [done|]. simpl in Heq. lia.
Qed.

(** X22. The settings block [git] and every other possible package manager
    as a whole, but never the chosen package manager as a whole, so that
    its build commands still go through; for that the chosen package
    manager must not be called [git]. *)
Theorem chosen_manager_stays_usable (packageManager : string)
  (possiblePackageManagers : list string) :
  packageManager ≠ "git" →
  (shellCommand packageManager
     ∉ excludeTools packageManager possiblePackageManagers)
  ∧ shellCommand "git" ∈ excludeTools packageManager possiblePackageManagers
  ∧ ∀ m, m ∈ possiblePackageManagers → m ≠ packageManager →
      shellCommand m ∈ excludeTools packageManager possiblePackageManagers.
Proof.
  intros Hgit. unfold excludeTools. split; [|split].
  - intros Hin. apply elem_of_app in Hin as [Hin|Hin].
    { apply list_elem_of_singleton in Hin. by apply shellCommand_inj in Hin. }
    apply elem_of_app in Hin as [Hin|Hin].
    { apply list_elem_of_fmap in Hin as (m & Heq & Hm).
      apply list_elem_of_filter in Hm as [Hm _].
      by apply shellCommand_inj in Heq as ->. }
    repeat (apply elem_of_cons in Hin as [Hin|Hin];
            [by apply subcommand_differs in Hin|]).
    by apply elem_of_nil in Hin.
  - apply elem_of_app. left. by apply list_elem_of_singleton.
  - intros m Hm Hother. apply elem_of_app. right. apply elem_of_app. left.
    apply list_elem_of_fmap. exists m. split; [done|].
    by apply list_elem_of_filter.
Qed.

End GeminiCliFacts.

(** ** Report groups as the server returns them *)

Module ReportServerFacts.
Import JS.

Section server.
Context {Assessment Migrated RunDetails : Type}.
Variable convertV2ReportToV3Report :
  @ReportServer.RunInfo Assessment RunDetails → Migrated.

#[local] Instance checkLabel_inj groupId :
  Inj (=) (=) (ReportServer.checkLabel groupId).
Proof.
  intros j k Heq. unfold ReportServer.checkLabel in Heq.
  do 2 apply String.app_inj in Heq. by apply pretty_Z_inj in Heq.
Qed.

Lemma augmentChecks_ids groupId (checks : list (@ReportServer.StoredCheck Assessment)) checkID :
  (ReportServer.augmentChecks groupId checkID checks).2
    = checkID + Z.of_nat (length checks)
  ∧ (Forall (λ stored, ReportServer.own_id stored = None) checks →
     ReportServer.id <$> (ReportServer.augmentChecks groupId checkID checks).1
       = ReportServer.checkLabel groupId <$> seqZ checkID (Z.of_nat (length checks))).
Proof.
  revert checkID. induction checks as [|stored checks IH]; intros checkID.
  { simpl. split; [lia|done]. }
  simpl. destruct (IH (checkID + 1)) as [IHcount IHids].
  destruct (ReportServer.augmentChecks groupId (checkID + 1) checks)
    as [others checkID'] eqn:Hrest.
  simpl in *. split; [lia|].
  intros Hown. apply Forall_cons in Hown as [Hown Hothers].
  rewrite seqZ_cons by lia. rewrite !fmap_cons. simpl. rewrite Hown. simpl.
  f_equal. rewrite Nat2Z.inj_succ, Z.pred_succ.
  replace (Z.succ checkID) with (checkID + 1) by lia. by apply IHids.
Qed.

Lemma migrateRuns_ids groupId (runs : list (@ReportServer.RunInfo Assessment RunDetails)) checkID :
  length (ReportServer.migrateRuns convertV2ReportToV3Report groupId checkID runs)
    = length runs
  ∧ (Forall (λ run, Forall (λ stored, ReportServer.own_id stored = None)
                      (ReportServer.results run)) runs →
     ReportServer.id <$> ReportServer.allAssessments
       (ReportServer.migrateRuns convertV2ReportToV3Report groupId checkID runs)
     = ReportServer.checkLabel groupId
         <$> seqZ checkID (Z.of_nat (length (runs ≫= ReportServer.results)))).
Proof.
  revert checkID. induction runs as [|run runs IH]; intros checkID; [done|].
  simpl. destruct (augmentChecks_ids groupId (ReportServer.results run) checkID)
    as [Hcount Hids].
  destruct (ReportServer.augmentChecks groupId checkID (ReportServer.results run))
    as [served checkID'] eqn:Hserved.
  simpl in *. destruct (IH checkID') as [IHlength IHids].
  split; [by rewrite IHlength|].
  intros Hown. apply Forall_cons in Hown as [Hown Hothers].
  change (list_bind _ _ ReportServer.results runs)
    with (runs ≫= ReportServer.results).
  rewrite fmap_app, (Hids Hown), (IHids Hothers), length_app.
  rewrite Nat2Z.inj_add, seqZ_app, fmap_app by lia.
  by rewrite Hcount.
Qed.

Variable localData : gmap string (@ReportServer.RunInfo Assessment RunDetails).
Variable getGroupedReports :
  string → Result (option (list (@ReportServer.RunInfo Assessment RunDetails))).

(** X23. When no stored check carries an identifier of its own, the checks
    of a group are served with the identifiers [<group>-0], [<group>-1],
    and so on, counted through all the runs of the group; no two checks
    of the group share an identifier, and no run is dropped. *)
Theorem served_ids_are_consecutive (groupId : string)
  (runs : list (@ReportServer.RunInfo Assessment RunDetails)) :
  ReportServer.storedRuns localData getGroupedReports groupId = Ok (Some runs) →
  Forall (λ run, Forall (λ stored, ReportServer.own_id stored = None)
                   (ReportServer.results run)) runs →
  ∃ reports,
    ReportServer.fetchAndMigrateReports convertV2ReportToV3Report localData
      getGroupedReports groupId = Ok (Some reports)
    ∧ length reports = length runs
    ∧ ReportServer.id <$> ReportServer.allAssessments reports
      = ReportServer.checkLabel groupId
          <$> seqZ 0 (Z.of_nat (length (runs ≫= ReportServer.results)))
    ∧ NoDup (ReportServer.id <$> ReportServer.allAssessments reports).
Proof.
  intros Hstored Hown. unfold ReportServer.fetchAndMigrateReports.
  rewrite Hstored. simpl. eexists. split; [done|].
  destruct (migrateRuns_ids groupId runs 0) as [Hlength Hids].
  split; [done|]. rewrite (Hids Hown). split; [done|].
  apply (NoDup_fmap_2 _), NoDup_seqZ.
Qed.

End server.

End ReportServerFacts.

(** ** Logos of the report application *)

Module ProviderLabelFacts.
Import JS ProviderLabel.

(** X24. The table of exact matches and the prefixes of model names never
    disagree: an identifier that starts with [gemini], [openai] or
    [claude] gets the logo of that prefix whether or not the table lists
    it, and any other identifier gets what the table holds for it, if
    anything. *)
Theorem exact_logos_agree_with_prefixes (id : string) :
  logo (Some id)
  = match getModelLogoURL id with
    | Some url => Some url
    | None => exactMatches !! id
    end.
Proof.
  unfold logo. destruct (truthy id) eqn:Htruthy; simpl.
  - destruct (exactMatches !! id) as [url|] eqn:Hexact;
      [|by destruct (getModelLogoURL id)].
    unfold exactMatches in Hexact. apply elem_of_list_to_map_2 in Hexact.
    repeat (apply elem_of_cons in Hexact as [[= -> ->]|Hexact]; [done|]).
    by apply elem_of_nil in Hexact.
  - apply bool_decide_eq_false in Htruthy.
    destruct id; [done|]. by exfalso; apply Htruthy.
Qed.

End ProviderLabelFacts.

(** ** The context of a chat about a report *)

Module ReportChatFacts.
Import JS ReportChat.

Section chat.
Context {Assessment : Type}.
Variable idOf : Assessment → option string.
Variable totalPoints maxOverallPoints : Assessment → Q.

(** X25. The assessments given to the model are taken from the report without
    changing their order, whatever the filter; and with the filter for
    active reports and no list of active reports, none is given. *)
Theorem context_is_drawn_from_the_report
  (reportContextFilter : ReportContextFilter)
  (activeReportIDs : option (list string)) (allAssessments : list Assessment) :
  assessmentsToProcess idOf totalPoints maxOverallPoints reportContextFilter
    activeReportIDs allAssessments `sublist_of` allAssessments
  ∧ assessmentsToProcess idOf totalPoints maxOverallPoints ActiveReports
      None allAssessments = [].
Proof.
  split.
  - destruct reportContextFilter; simpl; [done|apply sublist_filter..].
  - simpl. induction allAssessments as [|a allAssessments IH]; [done|].
    rewrite filter_cons, IH. unfold isActive.
    rewrite andb_false_r. by case_decide.
Qed.

End chat.

Section served.
Context {Assessment Migrated RunDetails : Type}.
Variable convertV2ReportToV3Report :
  @ReportServer.RunInfo Assessment RunDetails → Migrated.
Variable localData : gmap string (@ReportServer.RunInfo Assessment RunDetails).
Variable getGroupedReports :
  string → Result (option (list (@ReportServer.RunInfo Assessment RunDetails))).
Variable totalPoints maxOverallPoints :
  @ReportServer.AssessmentResultFromReportServer Assessment → Q.

(** X26. The chat endpoint of the report server, with the filter for active
    reports: among the checks served for a group whose stored checks
    carry no identifier of their own, exactly those whose identifier is
    among the open ones are given to the model, and no two of them share
    an identifier. *)
Theorem open_apps_are_selected_by_id (groupId : string)
  (runs : list (@ReportServer.RunInfo Assessment RunDetails))
  (openAppIDs : list string) :
  ReportServer.storedRuns localData getGroupedReports groupId = Ok (Some runs) →
  Forall (λ run, Forall (λ stored, ReportServer.own_id stored = None)
                   (ReportServer.results run)) runs →
  ∃ reports,
    ReportServer.fetchAndMigrateReports convertV2ReportToV3Report localData
      getGroupedReports groupId = Ok (Some reports)
    ∧ NoDup (ReportServer.id <$>
        assessmentsToProcess (λ a, Some (ReportServer.id a)) totalPoints
          maxOverallPoints ActiveReports (Some openAppIDs)
          (ReportServer.allAssessments reports))
    ∧ ∀ a,
        a ∈ assessmentsToProcess (λ a, Some (ReportServer.id a)) totalPoints
              maxOverallPoints ActiveReports (Some openAppIDs)
              (ReportServer.allAssessments reports)
        ↔ a ∈ ReportServer.allAssessments reports
          ∧ ReportServer.id a ∈ openAppIDs.
Proof.
  intros Hstored Hown. unfold ReportServer.fetchAndMigrateReports.
  rewrite Hstored. simpl. eexists. split; [done|].
  destruct (ReportServerFacts.migrateRuns_ids convertV2ReportToV3Report
              groupId runs 0) as [_ Hids].
  specialize (Hids Hown). split.
  - eapply sublist_NoDup; [|apply fmap_sublist, sublist_filter].
    rewrite Hids. apply (NoDup_fmap_2 _), NoDup_seqZ.
  - intros a. rewrite list_elem_of_filter. unfold isActive, isAssessmentResultWithID.
    rewrite bool_decide_true by done. simpl. rewrite bool_decide_eq_true.
    rewrite list_elem_of_fmap. split.
    + intros [(id' & [= ->] & Hopen) Hin]. done.
    + intros [Hin Hopen]. split; [|done]. by eexists.
Qed.

End served.

End ReportChatFacts.

(** ** Further theorems at work on concrete inputs *)

Module MoreExamples.
Import JS JSFacts Shared Scenarios MoreScenarios.

(** The filter [todo] keeps the two todo prompts of the catalog. *)
Lemma filtered_candidates_keep_catalog_order_witness :
  "todo" ≠ EmptyString
  ∧ Candidates.getCandidateExecutablePrompts ownName ownName alwaysHalf catalog
      false None (Some "todo") `sublist_of` catalog.
Proof.
  assert ("todo" ≠ EmptyString) as Hfilter by discriminate.
  split; [exact Hfilter|].
  exact (proj1 (CandidateFacts.filtered_candidates_keep_catalog_order ownName
                  ownName alwaysHalf catalog "todo" Hfilter)).
Defined.

(** A limit of two draws two prompts of the catalog. *)
Lemma limited_prompts_drawn_from_catalog_witness :
  0 <= 2
  ∧ Candidates.promptsToProcess ownName ownName alwaysHalf catalog false None
      None 2 ⊆+ catalog.
Proof.
  assert (0 <= 2) as Hlimit by lia.
  split; [exact Hlimit|].
  exact (proj1 (CandidateFacts.limited_prompts_drawn_from_catalog ownName
                  ownName alwaysHalf catalog false None None 2 Hlimit)).
Defined.

(** The job of the todo app returns one result, for its one step. *)
Lemma results_follow_steps_witness :
  ∃ results,
    fst (EvalTask.startEvaluationTask plainConfig
           (job (Ok (Some generated)) (Ok ())) todoApp []) = Ok results
    ∧ EvalTaskTrace.resultRef <$> results
      `prefix_of` EvalTaskTrace.stepRef <$> EvalTask.defsToExecute todoApp.
Proof.
  eexists. split; [reflexivity|].
  apply (EvalTaskTraceFacts.results_follow_steps plainConfig
           (job (Ok (Some generated)) (Ok ())) todoApp []).
  reflexivity.
Defined.

(** With -1 retries the run of the two prompts fails with the error of
    the first prompt. *)
Lemma negative_retries_fail_the_run_witness :
  - 2 ^ 53 < default 0 (Generate.promptTimeoutRetries (RunEdges.withRetries (-1)))
    < 0
  ∧ Generate.evaluationsStart (RunEdges.withRetries (-1)) (setup twoPrompts)
  ∧ twoPrompts !! 0%nat = Some (stuckJob "b")
  ∧ Generate.generateCodeAndAssess defaultCompare ownBasename alwaysHalf
      noRecordedUsage (RunEdges.withRetries (-1)) (setup twoPrompts)
      [0; 1]%nat
    = Some (Throw (RunEdges.unexpectedCodePath (RunEdges.withRetries (-1))
                     (stuckJob "b"))).
Proof.
  assert (- 2 ^ 53
          < default 0 (Generate.promptTimeoutRetries (RunEdges.withRetries (-1)))
          < 0) as Hnegative by (simpl; lia).
  assert (Generate.evaluationsStart (RunEdges.withRetries (-1))
            (setup twoPrompts)) as Hstart.
  { unfold Generate.evaluationsStart. simpl.
    repeat split; try (by eexists); try done. }
  assert (Generate.promptsToProcess ownBasename alwaysHalf
            (RunEdges.withRetries (-1)) (setup twoPrompts) = Ok twoPrompts)
    as Hjobs by (vm_compute; reflexivity).
  split; [exact Hnegative|]. split; [exact Hstart|]. split; [reflexivity|].
  exact (proj2 (RunEdgeFacts.negative_retries_fail_the_run defaultCompare
                  ownBasename alwaysHalf noRecordedUsage
                  (RunEdges.withRetries (-1)) (setup twoPrompts) twoPrompts
                  [1%nat] (stuckJob "b") Hnegative Hstart Hjobs eq_refl)).
Defined.

(** With a concurrency of 0 the job pool cannot be constructed, and the
    run fails before any prompt is evaluated. *)
Example zero_concurrency_fails_the_run :
  Generate.generateCodeAndAssess defaultCompare ownBasename alwaysHalf
    noRecordedUsage
    {| Generate.concurrency := Generate.fixed 0;
       Generate.promptTimeoutRetries := None;
       Generate.labels := None; Generate.promptFilter := None |}
    (setup twoPrompts) [0; 1]%nat
  = Some (Throw (ErrorObj {|
      err_class := TypeError; err_name := "TypeError";
      err_message :=
        "Expected `concurrency` to be a number from 1 and up, got `0` (number)";
      err_stack := None |})).
Proof. vm_compute. reflexivity. Qed.

(** Eight cores. *)
Lemma automatic_pool_bounds_witness :
  Generate.concurrency oneRetry = Generate.auto
  ∧ 0 <= 8
  ∧ ∃ inner,
      Generate.workerConcurrency oneRetry (Generate.appConcurrency oneRetry 8)
        = Generate.finite inner
      ∧ 0 <= inner.
Proof.
  assert (0 <= 8) as Hcores by lia.
  split; [reflexivity|]. split; [exact Hcores|].
  destruct (RunEdgeFacts.automatic_pool_bounds oneRetry 8 eq_refl Hcores)
    as (inner & Hinner & Hnonneg & _).
  exists inner. by split.
Defined.

(** The run of the two prompts lists the one failed prompt. *)
Lemma failed_prompts_accounted_witness :
  0 <= default 0 (Generate.promptTimeoutRetries oneRetry)
  ∧ [1; 0]%nat ≡ₚ seq 0 (length twoPrompts)
  ∧ Generate.generateCodeAndAssess defaultCompare ownBasename alwaysHalf
      noRecordedUsage oneRetry (setup twoPrompts) [1; 0]%nat
    = Some (Ok twoPromptsInfo)
  ∧ Generate.summary_failedPrompts twoPromptsInfo
    = concat (Generate.failuresOf oneRetry twoPrompts <$> [1; 0]%nat).
Proof.
  assert (0 <= default 0 (Generate.promptTimeoutRetries oneRetry)) as Hretries
    by (simpl; lia).
  assert ([1; 0]%nat ≡ₚ seq 0 (length twoPrompts)) as Horder by apply perm_swap.
  assert (Generate.promptsToProcess ownBasename alwaysHalf oneRetry
            (setup twoPrompts) = Ok twoPrompts) as Hjobs
    by (vm_compute; reflexivity).
  assert (Generate.generateCodeAndAssess defaultCompare ownBasename alwaysHalf
            noRecordedUsage oneRetry (setup twoPrompts) [1; 0]%nat
          = Some (Ok twoPromptsInfo)) as Hrun
    by (vm_compute; reflexivity).
  split; [exact Hretries|]. split; [exact Horder|]. split; [exact Hrun|].
  exact (proj1 (RunEdgeFacts.failed_prompts_accounted defaultCompare
                  ownBasename alwaysHalf noRecordedUsage oneRetry
                  (setup twoPrompts) twoPrompts [1; 0]%nat twoPromptsInfo
                  Hretries Hjobs Horder Hrun)).
Defined.

(** The override of [b] leaves the rating [a] as it is, at its place. *)
Lemma overrides_keep_the_ratings_witness :
  ∃ overrides resolved,
    Environment.ratingOverrides overridden = Some overrides
    ∧ Environment.resolveRatings overridden = Ok resolved
    ∧ length resolved = 2%nat
    ∧ resolved !! 0%nat = Some (rating "a" None).
Proof.
  eexists. eexists. split; [reflexivity|]. split; [reflexivity|].
  destruct (EnvironmentEdgeFacts.overrides_keep_the_ratings overridden _ eq_refl)
    as (_ & _ & Hkept).
  destruct (Hkept _ eq_refl) as [Hlength Hsame].
  split; [exact Hlength|].
  by apply (Hsame 0%nat (rating "a" None)).
Defined.

(** An override for a rating that is not configured. *)
Example unknown_override_is_rejected :
  Environment.resolveRatings
    (EnvironmentEdges.withExpected
       (Environment.withRatings overridden [rating "a" None]) None)
  = Throw (newUserFacingError
      ("Rating with an ID of " +:+ DQ +:+ "b" +:+ DQ +:+
       " has not been configured. Cannot apply an override to it.")).
Proof. reflexivity. Qed.

(** The rating [a] hashes the same under another name and kind. *)
Lemma ratingHash_reads_four_fields_witness :
  EnvironmentEdges.hashedFields <$> [rating "a" None]
    = EnvironmentEdges.hashedFields <$> [renamed]
  ∧ Environment.getRatingHash tagDigest [rating "a" None] defaultCategories
    = Environment.getRatingHash tagDigest [renamed] defaultCategories.
Proof.
  split; [reflexivity|].
  apply (EnvironmentEdgeFacts.ratingHash_reads_four_fields tagDigest
           [rating "a" None] [renamed] defaultCategories).
  reflexivity.
Defined.

(** A configuration that declares the hash of its ratings is accepted. *)
Lemma construction_accepts_matching_hash_witness :
  let pinned := config [rating "a" None] (Some "sha256:high-impact;60;a;30%;") in
  Environment.resolveRatings pinned = Ok [rating "a" None]
  ∧ Environment.expectedRatingHash pinned
    = Some (Environment.getRatingHash tagDigest [rating "a" None]
              (Environment.getRatingCategories pinned))
  ∧ ∃ env,
      Environment.newEnvironment tagDigest nameAsId echoAnalysisPrompt
        summaryModel pinned = Ok env.
Proof.
  intros pinned. split; [reflexivity|]. split; [reflexivity|].
  apply (proj1 (EnvironmentEdgeFacts.construction_accepts_matching_hash
                  tagDigest nameAsId echoAnalysisPrompt summaryModel pinned
                  "demo" [rating "a" None]
                  [{| Environment.a_name := "failures";
                      Environment.a_prompt := "prompts/failures.md";
                      Environment.a_model := summaryModel;
                      Environment.reportsFilter := Filters.NonPerfectReports;
                      Environment.ratingsFilter := Filters.NonPerfectRatings |}]
                  eq_refl eq_refl eq_refl)).
  right. right. reflexivity.
Defined.

(** An analysis prompt whose file is missing fails the construction
    before the hash is looked at. *)
Example missing_analysis_prompt_fails_first :
  Environment.newEnvironment tagDigest nameAsId (λ _, Throw diskError)
    summaryModel (config [rating "a" None] (Some "sha256:stale"))
  = Throw diskError.
Proof. reflexivity. Qed.

(** The hash of two ratings is accepted for the same ratings swapped. *)
Lemma own_hash_can_be_expected_witness :
  ∃ env,
    Environment.newEnvironment tagDigest nameAsId echoAnalysisPrompt
      summaryModel (config [rating "a" None; rating "b" None] None) = Ok env
    ∧ [rating "b" None; rating "a" None] ≡ₚ
        Environment.ratings (config [rating "a" None; rating "b" None] None)
    ∧ ∃ env',
        Environment.newEnvironment tagDigest nameAsId echoAnalysisPrompt
          summaryModel
          (EnvironmentEdges.withExpected
             (Environment.withRatings
                (config [rating "a" None; rating "b" None] None)
                [rating "b" None; rating "a" None])
             (Some (Environment.ratingHash env))) = Ok env'
        ∧ Environment.ratingHash env' = Environment.ratingHash env.
Proof.
  eexists. split; [reflexivity|]. split; [apply perm_swap|].
  apply (EnvironmentEdgeFacts.own_hash_can_be_expected tagDigest nameAsId
           echoAnalysisPrompt summaryModel
           (config [rating "a" None; rating "b" None] None) _
           [rating "b" None; rating "a" None]).
  - reflexivity.
  - apply perm_swap.
Defined.


(** The directory of three steps resolves to the steps of its three
    entries. *)
Lemma resolved_steps_shape_witness :
  ∃ resolved,
    Environment.getMultiStepPrompt slashJoin shopBasename slashJoin echoRenderer
      "/env" true [entry "step-2"; entry "step-1"; entry "step-3"] shop []
      = Ok resolved
    ∧ length (Environment.steps resolved) = 3%nat
    ∧ Environment.steps resolved ≡ₚ
        Environment.stepOfEntry slashJoin echoRenderer
          (Environment.m_name resolved) shop []
        <$> [entry "step-2"; entry "step-1"; entry "step-3"].
Proof.
  eexists. split; [reflexivity|].
  destruct (EnvironmentEdgeFacts.resolved_steps_shape slashJoin shopBasename
              slashJoin echoRenderer "/env" true
              [entry "step-2"; entry "step-1"; entry "step-3"] shop [] _
              eq_refl) as (Hlength & Hsteps & _).
  split; [exact Hlength|exact Hsteps].
Defined.

(** Step numbers from 2^53 on are named by the double that [parseInt]
    returns, and in exponent notation from 10^21 on. *)
Example large_step_numbers_are_named_as_doubles :
  ∃ resolved,
    Environment.getMultiStepPrompt slashJoin shopBasename slashJoin echoRenderer
      "/env" true
      [entry "step-1000000000000000000000"; entry "step-9007199254740993";
       entry "step-1"] shop []
      = Ok resolved
    ∧ Environment.p_name <$> Environment.steps resolved
      = ["shop-step-1"; "shop-step-9007199254740992"; "shop-step-1e+21"].
Proof. eexists. split; vm_compute; reflexivity. Qed.

(** A clean-up that rejects fails the job with its error, as the last
    thing the job does. *)
Example rejected_cleanup_fails_the_job :
  EvalTask.startEvaluationTask plainConfig
    {| EvalTask.setupProjectStructure := Ok ();
       EvalTask.cleanupOutcome := λ _, Throw diskError;
       EvalTask.getPrompts := EvalTask.getPrompts (job (Ok None) (Ok ()));
       EvalTask.resolveContextFiles :=
         EvalTask.resolveContextFiles (job (Ok None) (Ok ()));
       EvalTask.generateInitialFiles := λ _, Ok (Some generated);
       EvalTask.writeResponseFiles := λ _ _, Ok ();
       EvalTask.generateUserJourneysForApp :=
         EvalTask.generateUserJourneysForApp (job (Ok None) (Ok ()));
       EvalTask.attemptBuildAndTest :=
         EvalTask.attemptBuildAndTest (job (Ok None) (Ok ()));
       EvalTask.rateGeneratedCode :=
         EvalTask.rateGeneratedCode (job (Ok None) (Ok ())) |}
    todoApp []
  = (Throw diskError,
     [EvalTask.SetupProjectStructure; EvalTask.WriteResponseFiles "todo-app";
      EvalTask.Cleanup]).
Proof. reflexivity. Qed.

(** An endpoint without the placeholder. *)
Lemma endpoint_without_placeholder_is_rejected_witness :
  "https://rag.example/search" ≠ EmptyString
  ∧ Strings.includes "https://rag.example/search" "PROMPT" = false
  ∧ EnvironmentEdges.getPrompt echoSystemPrompt asIs offline generationOnly
      Environment.generation EmptyString None
    = Ok ("system.md" +:+ LF +:+ LF)
  ∧ ∃ e,
      EnvironmentEdges.getPrompt echoSystemPrompt asIs offline generationOnly
        Environment.generation "Build it." (Some "https://rag.example/search")
      = Throw e.
Proof.
  assert ("https://rag.example/search" ≠ EmptyString) as Hendpoint
    by discriminate.
  split; [exact Hendpoint|]. split; [reflexivity|]. split; [reflexivity|].
  eexists.
  exact (EnvironmentEdgeFacts.endpoint_without_placeholder_is_rejected
           echoSystemPrompt asIs offline generationOnly Environment.generation
           "Build it." "https://rag.example/search" _ Hendpoint eq_refl eq_refl).
Defined.

(** An environment with a generation prompt only. *)
Lemma editing_falls_back_to_generation_witness :
  (EnvironmentEdges.editingSystemPrompt generationOnly = None
   ∨ EnvironmentEdges.editingSystemPrompt generationOnly = Some EmptyString)
  ∧ EnvironmentEdges.getPrompt echoSystemPrompt asIs offline generationOnly
      Environment.editing "Add a button." None
    = EnvironmentEdges.getPrompt echoSystemPrompt asIs offline generationOnly
        Environment.generation "Add a button." None.
Proof.
  assert (EnvironmentEdges.editingSystemPrompt generationOnly = None
          ∨ EnvironmentEdges.editingSystemPrompt generationOnly = Some EmptyString)
    as Hediting by (by left).
  split; [exact Hediting|].
  exact (EnvironmentEdgeFacts.editing_falls_back_to_generation echoSystemPrompt
           asIs offline generationOnly "Add a button." None Hediting).
Defined.

(** A Claude model with a budget of 32k. *)
Lemma budget_follows_model_name_witness :
  ∃ options,
    AiSdkModels._getAiSdkModelOptions "claude-opus-4.5-with-thinking-32k"
      = Ok options
    ∧ Strings.endsWith "claude-opus-4.5-with-thinking-32k" "-32k" = true
    ∧ AiSdkModels.requestedBudget options = Some 32000.
Proof.
  eexists. split; [reflexivity|]. split; [reflexivity|].
  destruct (AiSdkModelFacts.budget_follows_model_name
              "claude-opus-4.5-with-thinking-32k" _ eq_refl)
    as (_ & _ & Hbudget & _).
  by apply Hbudget.
Defined.

(** A workspace that uses pnpm. *)
Lemma chosen_manager_stays_usable_witness :
  "pnpm" ≠ "git"
  ∧ GeminiCli.shellCommand "pnpm"
      ∉ GeminiCli.excludeTools "pnpm" ["npm"; "pnpm"; "yarn"].
Proof.
  assert ("pnpm" ≠ "git") as Hgit by discriminate.
  split; [exact Hgit|].
  exact (proj1 (GeminiCliFacts.chosen_manager_stays_usable "pnpm"
                  ["npm"; "pnpm"; "yarn"] Hgit)).
Defined.

(** The local report of the group [nightly]. *)
Lemma served_ids_are_consecutive_witness :
  ReportServer.storedRuns localReports noLoader "nightly" = Ok (Some [nightlyRun])
  ∧ Forall (λ run, Forall (λ stored, ReportServer.own_id stored = None)
                     (ReportServer.results run)) [nightlyRun]
  ∧ ∃ reports,
      ReportServer.fetchAndMigrateReports noMigration localReports noLoader
        "nightly" = Ok (Some reports)
      ∧ NoDup (ReportServer.id <$> ReportServer.allAssessments reports).
Proof.
  assert (ReportServer.storedRuns localReports noLoader "nightly"
          = Ok (Some [nightlyRun])) as Hstored by reflexivity.
  assert (Forall (λ run, Forall (λ stored, ReportServer.own_id stored = None)
                           (ReportServer.results run)) [nightlyRun]) as Hown
    by (by repeat constructor).
  split; [exact Hstored|]. split; [exact Hown|].
  destruct (ReportServerFacts.served_ids_are_consecutive noMigration
              localReports noLoader "nightly" [nightlyRun] Hstored Hown)
    as (reports & Hreports & _ & _ & Hdistinct).
  by exists reports.
Defined.

(** The chat about the group [nightly] with its second app open. *)
Lemma open_apps_are_selected_by_id_witness :
  ReportServer.storedRuns localReports noLoader "nightly" = Ok (Some [nightlyRun])
  ∧ Forall (λ run, Forall (λ stored, ReportServer.own_id stored = None)
                     (ReportServer.results run)) [nightlyRun]
  ∧ ∃ reports,
      ReportServer.fetchAndMigrateReports noMigration localReports noLoader
        "nightly" = Ok (Some reports)
      ∧ NoDup (ReportServer.id <$>
          ReportChat.assessmentsToProcess (λ a, Some (ReportServer.id a))
            fullScore fullScore Filters.ActiveReports (Some ["nightly-1"])
            (ReportServer.allAssessments reports)).
Proof.
  assert (ReportServer.storedRuns localReports noLoader "nightly"
          = Ok (Some [nightlyRun])) as Hstored by reflexivity.
  assert (Forall (λ run, Forall (λ stored, ReportServer.own_id stored = None)
                           (ReportServer.results run)) [nightlyRun]) as Hown
    by (by repeat constructor).
  split; [exact Hstored|]. split; [exact Hown|].
  destruct (ReportChatFacts.open_apps_are_selected_by_id noMigration
              localReports noLoader fullScore fullScore "nightly" [nightlyRun]
              ["nightly-1"] Hstored Hown)
    as (reports & Hreports & Hdistinct & _).
  by exists reports.
Defined.

(** Two analysis prompts that settle in either order. *)
Lemma settling_order_changes_only_the_order_witness :
  [(analysis "first", Ok answer); (analysis "second", Throw providerError)]
    ≡ₚ [(analysis "second", Throw providerError); (analysis "first", Ok answer)]
  ∧ match
      Summary.prepareSummary true "gemini-2.5-pro" demoEnvironment [] ()
        (Throw providerError)
        [(analysis "first", Ok answer); (analysis "second", Throw providerError)]
        (Some (Ok localExecutor)),
      Summary.prepareSummary true "gemini-2.5-pro" demoEnvironment [] ()
        (Throw providerError)
        [(analysis "second", Throw providerError); (analysis "first", Ok answer)]
        (Some (Ok localExecutor))
    with
    | Ok summary1, Ok summary2 =>
        Summary.summary_usage summary1 = Summary.summary_usage summary2
        ∧ Summary.aiSummary summary1 = Summary.aiSummary summary2
        ∧ Summary.additionalAiAnalysis summary1
          ≡ₚ Summary.additionalAiAnalysis summary2
    | Throw e1, Throw e2 => e1 = e2
    | _, _ => False
    end.
Proof.
  assert ([(analysis "first", Ok answer); (analysis "second", Throw providerError)]
            ≡ₚ [(analysis "second", Throw providerError);
                (analysis "first", Ok answer)]) as Horder by apply perm_swap.
  split; [exact Horder|].
  exact (SummaryFacts.settling_order_changes_only_the_order true
           "gemini-2.5-pro" demoEnvironment [] () (Throw providerError) _ _
           (Some (Ok localExecutor)) Horder).
Defined.

End MoreExamples.
